(** * redmine-context-cli: the incremental sync engine

    A shallow embedding of the Markdown codec ([file.util.ts]), the mappers
    ([mappers.ts]), the per-issue engine ([sync-issue.ts]) and the project
    orchestrator ([sync-project.ts]), with the slugs and file names
    ([slug.util.ts]) and the paging of the HTTP client ([api.ts]) they
    rely on, and the properties of the sync engine stated and proved over
    it.

    Conventions.
    - A JavaScript string is the list of its UTF-16 code units ([list N]);
      [u "..."] turns an ASCII literal into one.
    - A JavaScript number is an integer ([Z]); [NaN] is [None] where the
      code can produce it.  Fractions and infinities are outside the model,
      and so is the rounding of the integers beyond 2^53 in absolute
      value: [parseInt] and [toString] are exact here, as they are in
      JavaScript below that bound.
    - A thrown exception is the [Err] branch of [result]; effects on the
      file store are threaded explicitly.
    - What the code calls in other packages (gray-matter, slugify, [Date],
      [path.resolve], the HTTP client) is a field of [Host] or [Remote].
      The general theorems hold for every host and remote; [Node.host] is
      one host to compute with, for the examples and the concrete runs. *)

From Stdlib Require Import ZArith Lia Ascii String DecimalString DecimalPos.
From stdpp Require Import base option list gmap sorting.

Local Open Scope Z_scope.
Set Warnings "-register-all".

(* ===================================================================== *)
(** ** JavaScript strings *)
(* ===================================================================== *)

Abbreviation jsstring := (list N).

Definition u (s : string) : jsstring :=
  List.map N_of_ascii (list_ascii_of_string s).

(** [WhiteSpace] and [LineTerminator] code units: what [trim] and the
    numeric conversions skip. *)
Definition is_ws (c : N) : bool :=
  match c with
  | 9 | 10 | 11 | 12 | 13 | 32 | 160 | 5760
  | 8232 | 8233 | 8239 | 8287 | 12288 | 65279 => true
  | _ => (8192 <=? c)%N && (c <=? 8202)%N
  end%N.

Fixpoint trimStart (s : jsstring) : jsstring :=
  match s with
  | c :: s' => if is_ws c then trimStart s' else s
  | [] => []
  end.

Definition trimEnd (s : jsstring) : jsstring := rev (trimStart (rev s)).

Definition trim (s : jsstring) : jsstring := trimEnd (trimStart s).

Definition str_eqb (a b : jsstring) : bool := bool_decide (a = b).

Fixpoint startsWith (p s : jsstring) : bool :=
  match p, s with
  | [], _ => true
  | a :: p', b :: s' => (a =? b)%N && startsWith p' s'
  | _ :: _, [] => false
  end.

Definition endsWith (p s : jsstring) : bool := startsWith (rev p) (rev s).

(** [s.indexOf(p)]: the first index at which [p] occurs, [None] for -1. *)
Fixpoint indexOf (p s : jsstring) : option nat :=
  if startsWith p s then Some 0%nat
  else match s with
       | [] => None
       | _ :: s' => S <$> indexOf p s'
       end.

(** [s.match(/p/)] for a pattern without metacharacters, read as a truth
    value: it is non-null exactly when [p] occurs in [s]. *)
Definition includes (p s : jsstring) : bool :=
  match indexOf p s with Some _ => true | None => false end.

(** [s.substring(a, b)]: both ends clamped to the string, swapped when
    [a > b]. *)
Definition substring (s : jsstring) (a b : Z) : jsstring :=
  let n := Z.of_nat (length s) in
  let a' := Z.max 0 (Z.min a n) in
  let b' := Z.max 0 (Z.min b n) in
  let lo := Z.min a' b' in
  let hi := Z.max a' b' in
  take (Z.to_nat (hi - lo)) (drop (Z.to_nat lo) s).

(** [s.substring(a)]. *)
Definition substring_from (s : jsstring) (a : Z) : jsstring :=
  substring s a (Z.of_nat (length s)).

(** [s.split(sep)[0]]: the text before the first [sep]. *)
Definition split_head (sep s : jsstring) : jsstring :=
  match sep with
  | [] => take 1 s
  | _ => match indexOf sep s with
         | Some i => take i s
         | None => s
         end
  end.

(** [s.replace(p, r)] for a string pattern [p]: the first occurrence only
    (no [$] pattern in [r]). *)
Definition replace_first (p r s : jsstring) : jsstring :=
  match indexOf p s with
  | Some i => take i s ++ r ++ drop (i + length p) s
  | None => s
  end.

(** [n.toString()] and [`${n}`] for an integer [n]. *)
Definition Number_toString (z : Z) : jsstring :=
  u (NilZero.string_of_int (Z.to_int z)).

Definition is_digit (c : N) : bool := (48 <=? c)%N && (c <=? 57)%N.

Fixpoint digits_value (acc : Z) (s : jsstring) : Z :=
  match s with
  | c :: s' => if is_digit c then digits_value (10 * acc + (Z.of_N c - 48)) s'
               else acc
  | [] => acc
  end.

(** [parseInt(s, 10)]: leading white space, a sign, then the longest run
    of decimal digits; [None] is [NaN]. *)
Definition parseInt (s : jsstring) : option Z :=
  let s1 := trimStart s in
  let '(neg, s2) := match s1 with
                    | 45%N :: r => (true, r)
                    | 43%N :: r => (false, r)
                    | _ => (false, s1)
                    end in
  match s2 with
  | c :: _ => if is_digit c
              then Some (if neg then - digits_value 0 s2 else digits_value 0 s2)
              else None
  | [] => None
  end.

(** [Number(s)] on integer literals: white space is trimmed, the empty
    string is 0, a signed run of decimal digits is its value, and what is
    no numeric literal is [NaN].  The other literal forms (fractions,
    exponents, [0x..], [Infinity]) are outside the integer model and are
    read as [NaN] too. *)
Definition StringToNumber (s : jsstring) : option Z :=
  match trim s with
  | [] => Some 0
  | t => let '(neg, d) := match t with
                          | 45%N :: r => (true, r)
                          | 43%N :: r => (false, r)
                          | _ => (false, t)
                          end in
         match d with
         | [] => None
         | _ => if forallb is_digit d
                then Some (if neg then - digits_value 0 d else digits_value 0 d)
                else None
         end
  end.

(* ===================================================================== *)
(** ** Values, exceptions *)
(* ===================================================================== *)

(** The values a decoded frontmatter can hold ([unknown] in the source). *)
Inductive jsval : Type :=
| VUndef
| VNull
| VBool (b : bool)
| VNum (z : Z)
| VStr (s : jsstring)
| VArr (items : list jsval)
| VObj (fields : list (jsstring * jsval)).

(** [Record<string, unknown>]: keys in insertion order, each once. *)
Abbreviation frontmatter := (list (jsstring * jsval)).

(** [o[k]]: a missing property reads [undefined]. *)
Fixpoint get (k : jsstring) (o : frontmatter) : jsval :=
  match o with
  | [] => VUndef
  | (k', v) :: o' => if str_eqb k k' then v else get k o'
  end.

(** [Object.keys(o).length]. *)
Definition keys_length (o : frontmatter) : nat := length o.

(** [!!v]. *)
Definition truthy (v : jsval) : bool :=
  match v with
  | VUndef | VNull => false
  | VBool b => b
  | VNum z => negb (z =? 0)
  | VStr s => match s with [] => false | _ => true end
  | VArr _ | VObj _ => true
  end.

Fixpoint join_with (sep : jsstring) (l : list jsstring) : jsstring :=
  match l with
  | [] => []
  | [x] => x
  | x :: l' => x ++ sep ++ join_with sep l'
  end.

(** [String(v)]. *)
Fixpoint ToString (v : jsval) : jsstring :=
  match v with
  | VUndef => u "undefined"
  | VNull => u "null"
  | VBool true => u "true"
  | VBool false => u "false"
  | VNum z => Number_toString z
  | VStr s => s
  | VArr items =>
      join_with (u ",")
        (List.map (fun x => match x with
                            | VUndef | VNull => []
                            | _ => ToString x
                            end) items)
  | VObj _ => u "[object Object]"
  end.

(** [Number(v)]; [None] is [NaN]. *)
Definition ToNumber (v : jsval) : option Z :=
  match v with
  | VUndef => None
  | VNull => Some 0
  | VBool b => Some (if b then 1 else 0)
  | VNum z => Some z
  | VStr s => StringToNumber s
  | VArr _ | VObj _ => StringToNumber (ToString v)
  end.

(** [n > v] for a number [n]: false when [v] converts to [NaN]. *)
Definition num_gt (n : Z) (v : jsval) : bool :=
  match ToNumber v with
  | Some m => m <? n
  | None => false
  end.

(** What a [throw] carries: [error.code] and [error.message]. *)
Record exn : Type := Exn { exn_code : option jsstring; exn_message : jsstring }.

Inductive result (A : Type) : Type :=
| Ok (a : A)
| Err (e : exn).
Arguments Ok {A} a.
Arguments Err {A} e.

Definition bind {A B} (r : result A) (f : A -> result B) : result B :=
  match r with
  | Ok a => f a
  | Err e => Err e
  end.

Notation "x <- r ;; k" := (bind r (fun x => k))
  (at level 100, r at next level, right associativity).

(* ===================================================================== *)
(** ** Configuration ([config.ts]) *)
(* ===================================================================== *)

Inductive TrackBy : Type := journalId | createdOn.

Record CommentsConfig : Type := {
  anchors_start : jsstring;
  anchors_end : jsstring;
  trackBy : TrackBy
}.

Record SlugConfig : Type := {
  maxLength : Z;
  dedupe : bool;
  lowercase : bool
}.

Record FilenameConfig : Type := {
  pattern : jsstring;
  slug : SlugConfig;
  renameOnTitleChange : bool
}.

Record RedmineConfig : Type := {
  project_id : Z;
  outputDir : jsstring;
  defaults_include : list jsstring;
  defaults_status : jsstring;
  defaults_pageSize : Z;
  filename : FilenameConfig;
  comments : CommentsConfig
}.

(* ===================================================================== *)
(** ** Remote data ([api.ts]) *)
(* ===================================================================== *)

Record Named : Type := { ref_id : Z; name : jsstring }.

Record JournalDetail : Type := {
  d_name : jsstring;
  d_old_value : jsstring;
  d_new_value : jsstring
}.

Record RedmineJournal : Type := {
  j_id : Z;
  j_user : Named;
  j_notes : option jsstring;
  j_created_on : jsstring;
  j_details : option (list JournalDetail)
}.

Record RedmineRelation : Type := {
  r_id : Z;
  r_issue_to_id : Z;
  r_relation_type : jsstring;
  r_delay : option Z
}.

Record RedmineAttachment : Type := {
  a_id : Z;
  a_filename : jsstring;
  a_filesize : Z;
  a_content_type : jsstring;
  a_author : Named;
  a_created_on : jsstring;
  a_content_url : option jsstring
}.

Record RedmineIssue : Type := {
  i_id : Z;
  i_subject : jsstring;
  i_description : jsstring;
  i_status : Named;
  i_priority : Named;
  i_author : Named;
  i_assigned_to : option Named;
  i_created_on : jsstring;
  i_updated_on : jsstring;
  i_project : Named;
  i_tracker : Named;
  i_journals : option (list RedmineJournal);
  i_relations : option (list RedmineRelation);
  i_attachments : option (list RedmineAttachment)
}.

(* ===================================================================== *)
(** ** The host: what the code calls outside this repository *)
(* ===================================================================== *)

Record Host : Type := {
  (** [matter(text)] of gray-matter: the decoded frontmatter and the body. *)
  matter : jsstring -> result (frontmatter * jsstring);
  (** [matter.stringify('', data)]. *)
  matter_stringify : frontmatter -> result jsstring;
  (** [new Date(v).getTime()]; [None] for an invalid date. *)
  Date_new : jsval -> option Z;
  (** [toISOString()] and [toTimeString()] of a valid date. *)
  toISOString : Z -> jsstring;
  toTimeString : Z -> jsstring;
  (** [slugify(title, {lower, strict: true, remove})]. *)
  slugify : jsstring -> bool -> jsstring;
  (** [path.resolve(dir, file)]. *)
  path_resolve : jsstring -> jsstring -> jsstring
}.

(* ===================================================================== *)
(** ** Mappers ([mappers.ts]) *)
(* ===================================================================== *)

Definition nl : jsstring := [10%N].

Definition opt_val {A} (f : A -> jsval) (o : option A) : jsval :=
  match o with
  | Some a => f a
  | None => VUndef
  end.

Definition relation_entry (r : RedmineRelation) : jsval :=
  VObj [ (u "type", VStr (r_relation_type r));
         (u "issue_id", VNum (r_issue_to_id r));
         (u "delay", opt_val VNum (r_delay r)) ].

Definition attachment_entry (a : RedmineAttachment) : jsval :=
  VObj [ (u "id", VNum (a_id a));
         (u "filename", VStr (a_filename a));
         (u "filesize", VNum (a_filesize a));
         (u "content_type", VStr (a_content_type a));
         (u "author", VStr (name (a_author a)));
         (u "created_on", VStr (a_created_on a));
         (u "content_url", opt_val VStr (a_content_url a)) ].

(** [journals.reduce((latest, j) => j.id > latest.id ? j : latest)] on a
    non-empty array [first :: rest]. *)
Definition lastJournal (first : RedmineJournal) (rest : list RedmineJournal)
  : RedmineJournal :=
  fold_left (fun latest j => if j_id latest <? j_id j then j else latest)
            rest first.

Definition mapIssueToFrontmatter (issue : RedmineIssue) : frontmatter :=
  [ (u "id", VNum (i_id issue));
    (u "subject", VStr (i_subject issue));
    (u "status", VStr (name (i_status issue)));
    (u "priority", VStr (name (i_priority issue)));
    (u "author", VStr (name (i_author issue)));
    (u "created_on", VStr (i_created_on issue));
    (u "updated_on", VStr (i_updated_on issue));
    (u "project", VStr (name (i_project issue)));
    (u "tracker", VStr (name (i_tracker issue))) ]
  ++ match i_assigned_to issue with
     | Some a => [ (u "assigned_to", VStr (name a)) ]
     | None => []
     end
  ++ match i_relations issue with
     | Some (r :: rs) => [ (u "relations", VArr (List.map relation_entry (r :: rs))) ]
     | _ => []
     end
  ++ match i_attachments issue with
     | Some (a :: al) =>
         [ (u "attachments", VArr (List.map attachment_entry (a :: al))) ]
     | _ => []
     end
  ++ match i_journals issue with
     | Some (j :: js) => [ (u "lastJournalId", VNum (j_id (lastJournal j js))) ]
     | _ => []
     end.

Definition mapIssueToContent (issue : RedmineIssue) : jsstring :=
  match i_description issue with
  | [] => []
  | d => [] ++ d
  end.

(** [allJournals.filter(j => j.id > lastJournalId)], everything when the
    marker is falsy ([null] or 0). *)
Definition extractNewJournals (allJournals : list RedmineJournal)
    (lastJournalId : option Z) : list RedmineJournal :=
  match lastJournalId with
  | None | Some 0 => allJournals
  | Some m => List.filter (fun j => m <? j_id j) allJournals
  end.

(** [remoteJournals.some(j => j.id > marker)] on the raw frontmatter value,
    any journal at all when that value is falsy. *)
Definition shouldUpdateComments (remoteJournals : list RedmineJournal)
    (localFrontmatter : frontmatter) : bool :=
  let localLastJournalId := get (u "lastJournalId") localFrontmatter in
  if negb (truthy localLastJournalId)
  then (0 <? length remoteJournals)%nat
  else existsb (fun j => num_gt (j_id j) localLastJournalId) remoteJournals.

(** Array.prototype.sort with a comparator: a stable insertion sort. *)
Fixpoint insert_by {A} (cmp : A -> A -> Z) (x : A) (l : list A) : list A :=
  match l with
  | [] => [x]
  | y :: l' => if cmp x y <? 0 then x :: l else y :: insert_by cmp x l'
  end.

Definition sort_by {A} (cmp : A -> A -> Z) (l : list A) : list A :=
  fold_left (fun acc x => insert_by cmp x acc) l [].

(** A journal the rendering loop skips: [!notes || notes.trim() === '']. *)
Definition silent (j : RedmineJournal) : bool :=
  match j_notes j with
  | None => true
  | Some n => match n with
              | [] => true
              | _ => str_eqb (trim n) []
              end
  end.

Definition or_none (s : jsstring) : jsstring :=
  match s with
  | [] => u "(none)"
  | _ => s
  end.

Definition render_detail (d : JournalDetail) : jsstring :=
  u "- " ++ d_name d ++ u ": " ++ or_none (d_old_value d)
    ++ [32; 8594; 32]%N ++ or_none (d_new_value d) ++ nl.

Section Mappers.
Context (host : Host).

Definition shouldUpdateIssue (remoteIssue : RedmineIssue)
    (localFrontmatter : frontmatter) : bool :=
  let localUpdatedOn := get (u "updated_on") localFrontmatter in
  let remoteUpdatedOn := i_updated_on remoteIssue in
  if negb (truthy localUpdatedOn) then true
  else match Date_new host (VStr remoteUpdatedOn), Date_new host localUpdatedOn with
       | Some r, Some l => l <? r
       | _, _ => false
       end.

(** The comparator handed to [sort]; a [NaN] difference counts as 0. *)
Definition journal_cmp (track : TrackBy) (a b : RedmineJournal) : Z :=
  match track with
  | journalId => j_id a - j_id b
  | createdOn =>
      match Date_new host (VStr (j_created_on a)),
            Date_new host (VStr (j_created_on b)) with
      | Some x, Some y => x - y
      | _, _ => 0
      end
  end.

(** One pass of the rendering loop for a journal that is not skipped;
    [toISOString] throws a RangeError on an invalid date. *)
Definition render_journal (j : RedmineJournal) : result jsstring :=
  match Date_new host (VStr (j_created_on j)) with
  | None => Err (Exn None (u "Invalid time value"))
  | Some t =>
      let date := split_head (u "T") (toISOString host t) in
      let time := substring (split_head (u " ") (toTimeString host t)) 0 5 in
      Ok (u "## " ++ name (j_user j) ++ u " - " ++ date ++ u " " ++ time
            ++ nl ++ nl
          ++ default [] (j_notes j) ++ nl ++ nl
          ++ match j_details j with
             | Some (d :: ds) =>
                 u "**Changes:**" ++ nl
                 ++ concat (List.map render_detail (d :: ds)) ++ nl
             | _ => []
             end
          ++ u "---" ++ nl ++ nl)
  end.

Fixpoint render_loop (comments : jsstring) (js : list RedmineJournal)
  : result jsstring :=
  match js with
  | [] => Ok comments
  | j :: js' =>
      if silent j then render_loop comments js'
      else (t <- render_journal j ;; render_loop (comments ++ t) js')
  end.

Definition mapJournalsToComments (journals : list RedmineJournal)
    (config : CommentsConfig) : result jsstring :=
  match journals with
  | [] => Ok []
  | _ =>
      let sortedJournals := sort_by (journal_cmp (trackBy config)) journals in
      comments <- render_loop [] sortedJournals ;;
      Ok (trim comments)
  end.

End Mappers.

(* ===================================================================== *)
(** ** Slugs and file names ([slug.util.ts]) *)
(* ===================================================================== *)

(** The [while (existingSlugs.has(finalSlug))] loop.  The model runs it at
    most [fuel] times; [generateSlug] gives it one more round than the set
    has members. *)
Fixpoint dedupe_loop (fuel : nat) (slug0 : jsstring) (maxLen : Z)
    (existingSlugs : gset jsstring) (finalSlug : jsstring) (counter : Z)
  : jsstring :=
  match fuel with
  | O => finalSlug
  | S fuel' =>
      if bool_decide (finalSlug ∈ existingSlugs) then
        let suffix := u "-" ++ Number_toString counter in
        let maxLength := maxLen - Z.of_nat (length suffix) in
        dedupe_loop fuel' slug0 maxLen existingSlugs
                    (substring slug0 0 maxLength ++ suffix) (counter + 1)
      else finalSlug
  end.

Section Slug.
Context (host : Host).

(** Returns the slug and the set as the call leaves it. *)
Definition generateSlug (title : jsstring) (config : SlugConfig)
    (existingSlugs : gset jsstring) : jsstring * gset jsstring :=
  let slug0 := substring (slugify host title (lowercase config)) 0 (maxLength config) in
  if negb (dedupe config) then (slug0, existingSlugs)
  else
    let finalSlug :=
      dedupe_loop (S (size existingSlugs)) slug0 (maxLength config)
                  existingSlugs slug0 1 in
    (finalSlug, {[ finalSlug ]} ∪ existingSlugs).

Definition generateFilename (issueId : Z) (title : jsstring)
    (config : FilenameConfig) (existingSlugs : gset jsstring) : jsstring :=
  let slug1 := fst (generateSlug title (slug config) existingSlugs) in
  replace_first (u "{slug}") slug1
    (replace_first (u "{issueId}") (Number_toString issueId) (pattern config)).

End Slug.

(* ===================================================================== *)
(** ** The Markdown codec ([file.util.ts]) *)
(* ===================================================================== *)

Record MarkdownData : Type := {
  md_frontmatter : frontmatter;
  md_content : jsstring;
  md_comments : option jsstring
}.

Record ParsedMarkdown : Type := {
  pm_frontmatter : frontmatter;
  pm_content : jsstring;
  pm_comments : option jsstring;
  pm_rawContent : jsstring
}.

(** The two anchors the parser looks for (regular expression literals in
    the source, not the configured strings). *)
Definition START_ANCHOR : jsstring := u "<!-- redmine:comments:start -->".
Definition END_ANCHOR : jsstring := u "<!-- redmine:comments:end -->".

Definition extractCommentsSection (content : jsstring) : option jsstring :=
  match indexOf START_ANCHOR content, indexOf END_ANCHOR content with
  | Some s, Some e =>
      let startIndex := (s + length START_ANCHOR)%nat in
      let endIndex := e in
      if (endIndex <=? startIndex)%nat then None
      else Some (trim (substring content (Z.of_nat startIndex) (Z.of_nat endIndex)))
  | _, _ => None
  end.

Definition removeCommentsSection (content : jsstring) : jsstring :=
  match indexOf START_ANCHOR content, indexOf END_ANCHOR content with
  | Some s, Some e =>
      let startIndex := s in
      let endIndex := (e + length END_ANCHOR)%nat in
      substring content 0 (Z.of_nat startIndex)
        ++ trim (substring_from content (Z.of_nat endIndex))
  | _, _ => content
  end.

(** [s.replace(/^---\n|\n---\n?$/g, '')]: the opening delimiter line when
    [s] starts with it, then (in what follows it) a closing delimiter that
    ends the string, with or without its newline. *)
Definition strip_delimiters (s : jsstring) : jsstring :=
  let r := if startsWith (u "---" ++ nl) s then drop 4 s else s in
  if endsWith (nl ++ u "---" ++ nl) r then take (length r - 5) r
  else if endsWith (nl ++ u "---") r then take (length r - 4) r
  else r.

Definition empty_parsed (raw : jsstring) : ParsedMarkdown :=
  {| pm_frontmatter := []; pm_content := []; pm_comments := None;
     pm_rawContent := raw |}.

(** The file store: the text of each file (files are read and written as
    UTF-8, so the text stands for the bytes), and the paths on which every
    access is refused.  Directories are not tracked: [mkdir -p] always
    succeeds and leaves the files as they are. *)
Record FS : Type := {
  files : gmap jsstring jsstring;
  denied : gset jsstring
}.

Definition ENOENT : exn := Exn (Some (u "ENOENT")) (u "ENOENT: no such file or directory").
Definition EACCES : exn := Exn (Some (u "EACCES")) (u "EACCES: permission denied").

Definition readFile (fs : FS) (path : jsstring) : result jsstring :=
  if bool_decide (path ∈ denied fs) then Err EACCES
  else match files fs !! path with
       | Some text => Ok text
       | None => Err ENOENT
       end.

Definition writeFile (fs : FS) (path text : jsstring) : result FS :=
  if bool_decide (path ∈ denied fs) then Err EACCES
  else Ok {| files := <[ path := text ]> (files fs); denied := denied fs |}.

Definition ensureDir (fs : FS) (filePath : jsstring) : result FS := Ok fs.

Section Codec.
Context (host : Host).

Definition parseMarkdownContent (content : jsstring) : result ParsedMarkdown :=
  match trim content with
  | [] => Ok (empty_parsed content)
  | _ =>
      file <- matter host content ;;
      let '(fm, body) := file in
      let comments := extractCommentsSection body in
      let mainContent := removeCommentsSection body in
      Ok {| pm_frontmatter := fm; pm_content := mainContent;
            pm_comments := comments; pm_rawContent := content |}
  end.

Definition readMarkdownFile (fs : FS) (filePath : jsstring)
  : result ParsedMarkdown :=
  match (content <- readFile fs filePath ;; parseMarkdownContent content) with
  | Ok parsed => Ok parsed
  | Err error =>
      if bool_decide (exn_code error = Some (u "ENOENT"))
      then Ok (empty_parsed [])
      else Err error
  end.

Definition buildMarkdownContent (data : MarkdownData) (config : CommentsConfig)
  : result jsstring :=
  content1 <-
    (if (0 <? keys_length (md_frontmatter data))%nat then
       y <- matter_stringify host (md_frontmatter data) ;;
       let frontmatterYaml := strip_delimiters y in
       Ok ([] ++ u "---" ++ nl ++ frontmatterYaml ++ u "---" ++ nl ++ nl)
     else Ok []) ;;
  let content2 := content1 ++ md_content data in
  Ok match md_comments data with
     | Some (c :: cs) =>
         content2 ++ nl ++ nl ++ anchors_start config ++ nl
           ++ (c :: cs) ++ nl ++ anchors_end config
     | _ => content2
     end.

Definition writeMarkdownFile (fs : FS) (filePath : jsstring)
    (data : MarkdownData) (config : CommentsConfig) : result FS :=
  fs1 <- ensureDir fs filePath ;;
  content <- buildMarkdownContent data config ;;
  writeFile fs1 filePath content.

End Codec.

Definition extractIssueIdFromFrontmatter (fm : frontmatter) : option Z :=
  match get (u "id") fm with
  | VNum id => Some id
  | VStr id => parseInt id
  | _ => None
  end.

Definition extractLastJournalId (fm : frontmatter) : option Z :=
  match get (u "lastJournalId") fm with
  | VNum lastJournalId => Some lastJournalId
  | VStr lastJournalId => parseInt lastJournalId
  | _ => None
  end.

(* ===================================================================== *)
(** ** The per-issue engine ([sync-issue.ts]) *)
(* ===================================================================== *)

Inductive Action : Type := created | updated | skipped.

Definition Action_toString (a : Action) : jsstring :=
  match a with
  | created => u "created"
  | updated => u "updated"
  | skipped => u "skipped"
  end.

Record SyncIssueOptions : Type := {
  dryRun : bool;
  o_outputDir : option jsstring
}.

(** [changes]: a flag is [true] when the source sets the property. *)
Record Changes : Type := {
  ch_content : bool;
  ch_comments : bool;
  ch_frontmatter : bool
}.

Record SyncIssueResult : Type := {
  success : bool;
  issueId : Z;
  res_filename : jsstring;
  action : Action;
  message : jsstring;
  changes : option Changes
}.

(** The HTTP client, as the engine sees it.  [new RedmineApiClient(config)]
    has no failure of its own for a configuration with an integer
    [concurrency], the only ones the model has. *)
Record IssuesQuery : Type := {
  q_status : jsstring;
  q_pageSize : Z;
  q_include : list jsstring;
  q_updatedSince : option jsstring
}.

Record Remote : Type := {
  getIssue : Z -> list jsstring -> result RedmineIssue;
  getIssuesConcurrently : Z -> IssuesQuery -> result (list RedmineIssue)
}.

(** [a || b] on strings. *)
Definition str_or (a : option jsstring) (b : jsstring) : jsstring :=
  match a with
  | Some (c :: cs) => c :: cs
  | _ => b
  end.

(** [existingFile.comments || undefined]. *)
Definition comments_or_undefined (c : option jsstring) : option jsstring :=
  match c with
  | Some (x :: xs) => Some (x :: xs)
  | _ => None
  end.

(** [existingIssueId ? ... : ...] on [number | null]. *)
Definition id_truthy (i : option Z) : bool :=
  match i with
  | Some z => negb (z =? 0)
  | None => false
  end.

(** [existingIssueId && existingIssueId !== issue.id]. *)
Definition id_conflict (existingIssueId : option Z) (id : Z) : bool :=
  match existingIssueId with
  | Some e => negb (e =? 0) && negb (e =? id)
  | None => false
  end.

Definition separator : jsstring := nl ++ nl ++ u "---" ++ nl ++ nl.

Definition conflict_message (fname : jsstring) (existing id : Z) : jsstring :=
  u "File " ++ fname ++ u " contains issue " ++ Number_toString existing
    ++ u ", not " ++ Number_toString id.

Definition up_to_date_message (id : Z) : jsstring :=
  u "Issue " ++ Number_toString id ++ u " is already up to date".

Definition dry_run_message (a : Action) (id : Z) : jsstring :=
  u "Would " ++ Action_toString a ++ u " issue " ++ Number_toString id
    ++ u " (dry run)".

Definition done_message (a : Action) (id : Z) : jsstring :=
  u "Successfully " ++ Action_toString a ++ u " issue " ++ Number_toString id.

Definition failed_message (id : Z) (error : exn) : jsstring :=
  u "Failed to sync issue " ++ Number_toString id ++ u ": " ++ exn_message error.

Section Engine.
Context (host : Host) (remote : Remote).

(** The comments text of the document to write (lines 87-102). *)
Definition resolveComments (issue : RedmineIssue) (config : RedmineConfig)
    (existingFile : ParsedMarkdown) (needsCommentsUpdate : bool)
    (existingLastJournalId : option Z) : result (option jsstring) :=
  match needsCommentsUpdate, i_journals issue with
  | true, Some journals =>
      let newJournals := extractNewJournals journals existingLastJournalId in
      if (0 <? length newJournals)%nat then
        newComments <- mapJournalsToComments host newJournals (comments config) ;;
        match pm_comments existingFile with
        | Some (c :: cs) => Ok (Some ((c :: cs) ++ separator ++ newComments))
        | _ => Ok (Some newComments)
        end
      else Ok (comments_or_undefined (pm_comments existingFile))
  | _, _ => Ok (comments_or_undefined (pm_comments existingFile))
  end.

(** The body of the [try] block: the result, and the store as the call
    leaves it. *)
Definition syncIssue_try (id : Z) (config : RedmineConfig)
    (options : SyncIssueOptions) (fs : FS) : result (SyncIssueResult * FS) :=
  let outDir := str_or (o_outputDir options) (outputDir config) in
  let include := defaults_include config in
  issue <- getIssue remote id include ;;
  let fname := generateFilename host (i_id issue) (i_subject issue)
                 (filename config) ∅ in
  let filePath := path_resolve host outDir fname in
  existingFile <- readMarkdownFile host fs filePath ;;
  let existingIssueId := extractIssueIdFromFrontmatter (pm_frontmatter existingFile) in
  let existingLastJournalId := extractLastJournalId (pm_frontmatter existingFile) in
  if id_conflict existingIssueId (i_id issue) then
    Ok ({| success := false; issueId := i_id issue; res_filename := fname;
           action := skipped;
           message := conflict_message fname (default 0 existingIssueId) (i_id issue);
           changes := None |}, fs)
  else
    let needsUpdate := shouldUpdateIssue host issue (pm_frontmatter existingFile) in
    let needsCommentsUpdate :=
      shouldUpdateComments (default [] (i_journals issue))
                           (pm_frontmatter existingFile) in
    if negb needsUpdate && negb needsCommentsUpdate then
      Ok ({| success := true; issueId := i_id issue; res_filename := fname;
             action := skipped; message := up_to_date_message id;
             changes := None |}, fs)
    else
      let fm := mapIssueToFrontmatter issue in
      let content := mapIssueToContent issue in
      cmts <- resolveComments issue config existingFile needsCommentsUpdate
                existingLastJournalId ;;
      let chg := {| ch_content := needsUpdate; ch_comments := needsCommentsUpdate;
                    ch_frontmatter := needsUpdate |} in
      let act := if id_truthy existingIssueId then updated else created in
      if dryRun options then
        Ok ({| success := true; issueId := i_id issue; res_filename := fname;
               action := act; message := dry_run_message act id;
               changes := Some chg |}, fs)
      else
        fs' <- writeMarkdownFile host fs filePath
                 {| md_frontmatter := fm; md_content := content;
                    md_comments := cmts |} (comments config) ;;
        Ok ({| success := true; issueId := i_id issue; res_filename := fname;
               action := act; message := done_message act id;
               changes := Some chg |}, fs').

(** [try { ... } catch (error) { ... }]: nothing is thrown past it. *)
Definition syncIssue (id : Z) (config : RedmineConfig)
    (options : SyncIssueOptions) (fs : FS) : SyncIssueResult * FS :=
  match syncIssue_try id config options fs with
  | Ok r => r
  | Err error =>
      ({| success := false; issueId := id; res_filename := [];
          action := skipped; message := failed_message id error;
          changes := None |}, fs)
  end.

End Engine.

(** [url.match(/\/issues\/(\d+)(?:\/|$)/)], below.  The longest run of
    decimal digits at the head of a string, and what follows it. *)
Fixpoint span_digits (s : jsstring) : jsstring * jsstring :=
  match s with
  | c :: s' => if is_digit c
               then let '(d, r) := span_digits s' in (c :: d, r)
               else ([], s)
  | [] => ([], [])
  end.

(** The capture group when the expression matches at the head of [s]:
    [/issues/], one or more digits, then a slash or the end of the input.
    The digits are taken greedily; giving one back leaves a digit where
    the slash or the end is required, so only the longest run can match. *)
Definition issue_segment_at (s : jsstring) : option jsstring :=
  if startsWith (u "/issues/") s then
    match span_digits (drop 8 s) with
    | (c :: d, []) => Some (c :: d)
    | (c :: d, 47%N :: _) => Some (c :: d)
    | _ => None
    end
  else None.

(** The leftmost match. *)
Fixpoint issue_segment (s : jsstring) : option jsstring :=
  match issue_segment_at s with
  | Some d => Some d
  | None => match s with
            | [] => None
            | _ :: s' => issue_segment s'
            end
  end.

Definition extractIssueIdFromUrl (url : jsstring) : option Z :=
  match issue_segment url with
  | Some d => parseInt d
  | None => None
  end.

(* ===================================================================== *)
(** ** The project orchestrator ([sync-project.ts]) *)
(* ===================================================================== *)

Record SyncProjectOptions : Type := {
  p_status : option jsstring;
  p_updatedSince : option jsstring;
  p_dryRun : bool;
  p_outputDir : option jsstring;
  p_pageSize : option Z
}.

Record SyncProjectResult : Type := {
  p_success : bool;
  totalIssues : Z;
  processed : Z;
  n_created : Z;
  n_updated : Z;
  n_skipped : Z;
  n_failed : Z;
  errors : list (Z * jsstring)
}.

Definition initial_result : SyncProjectResult :=
  {| p_success := true; totalIssues := 0; processed := 0; n_created := 0;
     n_updated := 0; n_skipped := 0; n_failed := 0; errors := [] |}.

(** What the callback does with one issue's outcome once it has it. *)
Definition tally (r : SyncProjectResult) (syncResult : SyncIssueResult)
  : SyncProjectResult :=
  let r1 := {| p_success := p_success r; totalIssues := totalIssues r;
               processed := processed r + 1; n_created := n_created r;
               n_updated := n_updated r; n_skipped := n_skipped r;
               n_failed := n_failed r; errors := errors r |} in
  if success syncResult then
    match action syncResult with
    | created =>
        {| p_success := p_success r1; totalIssues := totalIssues r1;
           processed := processed r1; n_created := n_created r1 + 1;
           n_updated := n_updated r1; n_skipped := n_skipped r1;
           n_failed := n_failed r1; errors := errors r1 |}
    | updated =>
        {| p_success := p_success r1; totalIssues := totalIssues r1;
           processed := processed r1; n_created := n_created r1;
           n_updated := n_updated r1 + 1; n_skipped := n_skipped r1;
           n_failed := n_failed r1; errors := errors r1 |}
    | skipped =>
        {| p_success := p_success r1; totalIssues := totalIssues r1;
           processed := processed r1; n_created := n_created r1;
           n_updated := n_updated r1; n_skipped := n_skipped r1 + 1;
           n_failed := n_failed r1; errors := errors r1 |}
    end
  else
    {| p_success := p_success r1; totalIssues := totalIssues r1;
       processed := processed r1; n_created := n_created r1;
       n_updated := n_updated r1; n_skipped := n_skipped r1;
       n_failed := n_failed r1 + 1;
       errors := errors r1 ++ [ (issueId syncResult, message syncResult) ] |}.

Definition finish (r : SyncProjectResult) : SyncProjectResult :=
  {| p_success := (n_failed r =? 0); totalIssues := totalIssues r;
     processed := processed r; n_created := n_created r;
     n_updated := n_updated r; n_skipped := n_skipped r;
     n_failed := n_failed r; errors := errors r |}.

Definition fetch_failed (r : SyncProjectResult) (error : exn) : SyncProjectResult :=
  {| p_success := false; totalIssues := totalIssues r;
     processed := processed r; n_created := n_created r;
     n_updated := n_updated r; n_skipped := n_skipped r;
     n_failed := n_failed r;
     errors := errors r ++ [ (0, u "Failed to fetch issues: " ++ exn_message error) ] |}.

Section Orchestrator.
Context (host : Host) (remote : Remote).

(** The per-issue calls, one after the other in the order of the list:
    one of the schedules [Promise.all] allows. *)
Fixpoint sync_each (config : RedmineConfig) (options : SyncIssueOptions)
    (issues : list RedmineIssue) (r : SyncProjectResult) (fs : FS)
  : SyncProjectResult * FS :=
  match issues with
  | [] => (r, fs)
  | issue :: rest =>
      let '(syncResult, fs1) := syncIssue host remote (i_id issue) config options fs in
      sync_each config options rest (tally r syncResult) fs1
  end.

Definition syncProject (config : RedmineConfig) (options : SyncProjectOptions)
    (fs : FS) : SyncProjectResult * FS :=
  let pageSize := match p_pageSize options with
                  | Some 0 | None => defaults_pageSize config
                  | Some n => n
                  end in
  let query := {| q_status := str_or (p_status options) (defaults_status config);
                  q_pageSize := pageSize;
                  q_include := defaults_include config;
                  q_updatedSince := p_updatedSince options |} in
  match getIssuesConcurrently remote (project_id config) query with
  | Err error => (fetch_failed initial_result error, fs)
  | Ok issues =>
      let r0 := {| p_success := true; totalIssues := Z.of_nat (length issues);
                   processed := 0; n_created := 0; n_updated := 0;
                   n_skipped := 0; n_failed := 0; errors := [] |} in
      match issues with
      | [] => (r0, fs)
      | _ =>
          let '(r, fs1) :=
            sync_each config
              {| dryRun := p_dryRun options; o_outputDir := p_outputDir options |}
              issues r0 fs in
          (finish r, fs1)
      end
  end.

End Orchestrator.

(* ===================================================================== *)
(** ** The HTTP client ([api.ts]) *)
(* ===================================================================== *)

Record RedmineIssuesResponse : Type := {
  r_issues : list RedmineIssue;
  total_count : Z;
  r_offset : Z;
  r_limit : Z
}.

(** [Math.ceil(a / b)] on integers, [b] not 0. *)
Definition ceil_div (a b : Z) : Z := - ((- a) / b).

(** The indices of [Array.from({ length: n }, ...)]: none for [n <= 0]. *)
Definition indices (n : Z) : list Z := List.map Z.of_nat (seq 0 (Z.to_nat n)).

(** [Promise.all] over calls made in the order of the array: the values,
    or the first rejection. *)
Fixpoint all_of {A} (l : list (result A)) : result (list A) :=
  match l with
  | [] => Ok []
  | r :: l' => x <- r ;; xs <- all_of l' ;; Ok (x :: xs)
  end.

(** [{ ...options, pageSize }]. *)
Definition with_pageSize (options : IssuesQuery) (pageSize : Z) : IssuesQuery :=
  {| q_status := q_status options; q_pageSize := pageSize;
     q_include := q_include options; q_updatedSince := q_updatedSince options |}.

Module RedmineApiClient.
Section Client.
(** [this.request('/issues.json?' + params)], from the name and value
    pairs appended to the [URLSearchParams]. *)
Context (request : list (jsstring * jsstring) -> result RedmineIssuesResponse).

Definition getIssues (projectId : Z) (options : IssuesQuery) (offset : option Z)
  : result RedmineIssuesResponse :=
  request
    ([ (u "project_id", Number_toString projectId) ]
     ++ match q_status options with
        | [] => []
        | s => if str_eqb s (u "*") then [] else [ (u "status_id", s) ]
        end
     ++ (if q_pageSize options =? 0 then []
         else [ (u "limit", Number_toString (q_pageSize options)) ])
     ++ match offset with
        | Some o => if o =? 0 then [] else [ (u "offset", Number_toString o) ]
        | None => []
        end
     ++ match q_include options with
        | [] => []
        | l => [ (u "include", join_with (u ",") l) ]
        end
     ++ match q_updatedSince options with
        | Some (c :: s) => [ (u "updated_on", u ">=" ++ c :: s) ]
        | _ => []
        end).

(** The [while (hasMore)] loop, run at most [fuel] times: [None] when the
    fuel runs out before the loop ends. *)
Fixpoint getAllIssues_loop (fuel : nat) (projectId : Z) (options : IssuesQuery)
    (pageSize : Z) (allIssues : list RedmineIssue) (offset : Z)
  : option (result (list RedmineIssue)) :=
  match fuel with
  | O => None
  | S fuel' =>
      match getIssues projectId (with_pageSize options pageSize) (Some offset) with
      | Err e => Some (Err e)
      | Ok response =>
          let allIssues' := allIssues ++ r_issues response in
          if Z.of_nat (length allIssues') <? total_count response
          then getAllIssues_loop fuel' projectId options pageSize allIssues'
                 (offset + pageSize)
          else Some (Ok allIssues')
      end
  end.

Definition getAllIssues (fuel : nat) (projectId : Z) (options : IssuesQuery)
  : option (result (list RedmineIssue)) :=
  let pageSize := if q_pageSize options =? 0 then 100 else q_pageSize options in
  getAllIssues_loop fuel projectId options pageSize [] 0.

Definition getIssuesConcurrently (projectId : Z) (options : IssuesQuery)
  : result (list RedmineIssue) :=
  let pageSize := if q_pageSize options =? 0 then 100 else q_pageSize options in
  initialResponse <- getIssues projectId (with_pageSize options 1) None ;;
  let totalCount := total_count initialResponse in
  let totalPages := ceil_div totalCount pageSize in
  pageResults <-
    all_of (List.map
              (fun index =>
                 let offset := index * pageSize in
                 response <- getIssues projectId (with_pageSize options pageSize)
                               (Some offset) ;;
                 Ok (r_issues response))
              (indices totalPages)) ;;
  Ok (concat pageResults).

End Client.
End RedmineApiClient.

(* ===================================================================== *)
(** ** A reference host

    One host to run the engine on: gray-matter's delimiter handling over a
    small YAML printer and reader (flat mappings of integers, booleans,
    null and plain or single-quoted strings), ISO-8601 UTC timestamps for
    [Date], slugs of ASCII titles, and absolute output directories.  It
    gives the examples and the concrete runs below something to compute
    with; the general theorems quantify over the host. *)
(* ===================================================================== *)

Module Node.

Definition is_alpha (c : N) : bool :=
  ((65 <=? c) && (c <=? 90) || (97 <=? c) && (c <=? 122))%N.

Definition lower (c : N) : N :=
  if ((65 <=? c) && (c <=? 90))%N then (c + 32)%N else c.

(** *** YAML scalars and flat mappings *)

Definition plain_char (c : N) : bool :=
  is_alpha c || is_digit c || (c =? 32)%N || (c =? 45)%N || (c =? 95)%N.

Definition reserved (s : jsstring) : bool :=
  let l := List.map lower s in
  str_eqb l (u "true") || str_eqb l (u "false") || str_eqb l (u "null").

Definition plain_safe (s : jsstring) : bool :=
  match s with
  | c :: _ => is_alpha c && forallb plain_char s
              && negb (is_ws (List.last s 0%N)) && negb (reserved s)
  | [] => false
  end.

Fixpoint quote_body (s : jsstring) : jsstring :=
  match s with
  | [] => []
  | 39%N :: s' => 39%N :: 39%N :: quote_body s'
  | c :: s' => c :: quote_body s'
  end.

Definition printable (s : jsstring) : bool :=
  forallb (fun c => (32 <=? c)%N && (c <=? 126)%N) s.

Definition dump_scalar (v : jsval) : result jsstring :=
  match v with
  | VNull => Ok (u "null")
  | VBool true => Ok (u "true")
  | VBool false => Ok (u "false")
  | VNum z => Ok (Number_toString z)
  | VStr s0 =>
      if plain_safe s0 then Ok s0
      else if printable s0 then Ok ([39%N] ++ quote_body s0 ++ [39%N])
      else Err (Exn None (u "reference YAML: unsupported string"))
  | VUndef => Err (Exn None (u "unacceptable kind of an object to dump [object Undefined]"))
  | VArr _ | VObj _ => Err (Exn None (u "reference YAML: nested values are not supported"))
  end.

Fixpoint dump_entries (fm : frontmatter) : result jsstring :=
  match fm with
  | [] => Ok []
  | (k, v) :: fm' =>
      if plain_safe k then
        t <- dump_scalar v ;;
        rest <- dump_entries fm' ;;
        Ok (k ++ u ": " ++ t ++ nl ++ rest)
      else Err (Exn None (u "reference YAML: unsupported key"))
  end.

Definition safeDump (fm : frontmatter) : result jsstring :=
  match fm with
  | [] => Ok (u "{}" ++ nl)
  | _ => dump_entries fm
  end.

Fixpoint split_lines_aux (cur : jsstring) (s : jsstring) : list jsstring :=
  match s with
  | [] => [rev cur]
  | 10%N :: s' => rev cur :: split_lines_aux [] s'
  | c :: s' => split_lines_aux (c :: cur) s'
  end.

Definition split_lines (s : jsstring) : list jsstring := split_lines_aux [] s.

Fixpoint unquote_body (s : jsstring) : option jsstring :=
  match s with
  | [39%N] => Some []
  | 39%N :: 39%N :: s' => cons 39%N <$> unquote_body s'
  | 39%N :: _ => None
  | c :: s' => cons c <$> unquote_body s'
  | [] => None
  end.

Definition load_scalar (t : jsstring) : option jsval :=
  match t with
  | 39%N :: body => VStr <$> unquote_body body
  | _ =>
      if str_eqb t (u "null") || str_eqb t (u "~") || str_eqb t [] then Some VNull
      else if str_eqb t (u "true") then Some (VBool true)
      else if str_eqb t (u "false") then Some (VBool false)
      else match t with
           | c :: _ =>
               if is_digit c || (c =? 45)%N then
                 match StringToNumber t with
                 | Some z => if str_eqb (trim t) t then Some (VNum z) else None
                 | None => None
                 end
               else if plain_safe t then Some (VStr t) else None
           | [] => None
           end
  end.

Definition load_line (line : jsstring) : option (jsstring * jsval) :=
  match indexOf (u ": ") line with
  | Some i =>
      if plain_safe (take i line)
      then pair (take i line) <$> load_scalar (drop (i + 2) line)
      else None
  | None => None
  end.

Fixpoint load_lines (ls : list jsstring) : option frontmatter :=
  match ls with
  | [] => Some []
  | l :: ls' =>
      match trim l with
      | [] | 35%N :: _ => load_lines ls'
      | _ => e ← load_line l; rest ← load_lines ls'; Some (e :: rest)
      end
  end.

Definition safeLoad (text : jsstring) : result frontmatter :=
  match load_lines (split_lines text) with
  | Some fm => Ok fm
  | None => Err (Exn None (u "YAMLException"))
  end.

(** *** gray-matter: [matter(text)] and [matter.stringify('', data)] *)

Definition fence : jsstring := u "---".

Definition ends_line (s : jsstring) : jsstring :=
  if endsWith nl s then s else s ++ nl.

Definition strip_eol (s : jsstring) : jsstring :=
  let s1 := match s with 13%N :: r => r | _ => s end in
  match s1 with 10%N :: r => r | _ => s1 end.

Definition gm_matter (text : jsstring) : result (frontmatter * jsstring) :=
  if negb (startsWith fence text) then Ok ([], text)
  else if startsWith [45%N] (drop 3 text) then Ok ([], text)
  else
    let str := drop 3 text in
    let raw := match indexOf nl str with
               | Some i => take i str
               | None => take (length str - 1) str
               end in
    let lang := trim raw in
    match lang with
    | _ :: _ => Err (Exn None (u "reference gray-matter: language tags are not supported"))
    | [] =>
        let len := length str in
        let closeIndex := default len (indexOf (nl ++ fence) str) in
        let block := take closeIndex str in
        body_data <- (match trim block with
                      | [] => Ok []
                      | _ => safeLoad block
                      end) ;;
        let body := if (closeIndex =? len)%nat then []
                    else strip_eol (drop (closeIndex + 4) str) in
        Ok (body_data, body)
    end.

Definition gm_stringify (data : frontmatter) : result jsstring :=
  y <- safeDump data ;;
  let m := trim y in
  let buf := if str_eqb m (u "{}") then []
             else ends_line fence ++ ends_line m ++ ends_line fence in
  Ok (buf ++ ends_line []).

(** *** [Date] on [YYYY-MM-DDTHH:MM:SSZ] *)

Definition days_from_civil (y m d : Z) : Z :=
  let y1 := if m <=? 2 then y - 1 else y in
  let era := y1 / 400 in
  let yoe := y1 - era * 400 in
  let mp := if 2 <? m then m - 3 else m + 9 in
  let doy := (153 * mp + 2) / 5 + d - 1 in
  let doe := yoe * 365 + yoe / 4 - yoe / 100 + doy in
  era * 146097 + doe - 719468.

Definition civil_from_days (z : Z) : Z * Z * Z :=
  let z := z + 719468 in
  let era := z / 146097 in
  let doe := z - era * 146097 in
  let yoe := (doe - doe / 1460 + doe / 36524 - doe / 146096) / 365 in
  let doy := doe - (365 * yoe + yoe / 4 - yoe / 100) in
  let mp := (5 * doy + 2) / 153 in
  let d := doy - (153 * mp + 2) / 5 + 1 in
  let m := if mp <? 10 then mp + 3 else mp - 9 in
  let y := yoe + era * 400 in
  (if m <=? 2 then y + 1 else y, m, d).

Definition num_field (s : jsstring) (from len : nat) : option Z :=
  let f := take len (drop from s) in
  if forallb is_digit f && (length f =? len)%nat then Some (digits_value 0 f) else None.

Definition sep_at (s : jsstring) (i : nat) (c : N) : bool :=
  match s !! i with
  | Some c' => (c =? c')%N
  | None => false
  end.

Definition parse_iso (s : jsstring) : option Z :=
  if (length s =? 20)%nat && sep_at s 4 45 && sep_at s 7 45 && sep_at s 10 84
     && sep_at s 13 58 && sep_at s 16 58 && sep_at s 19 90
  then
    y ← num_field s 0 4; mo ← num_field s 5 2; d ← num_field s 8 2;
    h ← num_field s 11 2; mi ← num_field s 14 2; sec ← num_field s 17 2;
    if (1 <=? mo) && (mo <=? 12) && (1 <=? d) && (d <=? 31)
       && (h <=? 23) && (mi <=? 59) && (sec <=? 59)
    then Some ((days_from_civil y mo d * 86400 + h * 3600 + mi * 60 + sec) * 1000)
    else None
  else None.

Definition pad (width : nat) (z : Z) : jsstring :=
  let d := Number_toString z in
  replicate (width - length d) 48%N ++ d.

Definition iso_string (t : Z) : jsstring :=
  let day := t / 86400000 in
  let ms := t mod 86400000 in
  let '(y, m, d) := civil_from_days day in
  pad 4 y ++ u "-" ++ pad 2 m ++ u "-" ++ pad 2 d ++ u "T"
    ++ pad 2 (ms / 3600000) ++ u ":" ++ pad 2 (ms / 60000 mod 60) ++ u ":"
    ++ pad 2 (ms / 1000 mod 60) ++ u "." ++ pad 3 (ms mod 1000) ++ u "Z".

Definition time_string (t : Z) : jsstring :=
  let ms := t mod 86400000 in
  pad 2 (ms / 3600000) ++ u ":" ++ pad 2 (ms / 60000 mod 60) ++ u ":"
    ++ pad 2 (ms / 1000 mod 60) ++ u " GMT+0000 (Coordinated Universal Time)".

Definition date_new (v : jsval) : option Z :=
  match v with
  | VStr s0 => parse_iso s0
  | VNum z => Some z
  | _ => None
  end.

(** *** slugify on ASCII letters, digits, spaces and hyphens *)

Fixpoint squeeze (prev_dash : bool) (s : jsstring) : jsstring :=
  match s with
  | [] => []
  | c :: s' =>
      if is_ws c || (c =? 45)%N
      then (if prev_dash then squeeze true s' else 45%N :: squeeze true s')
      else if is_alpha c || is_digit c then c :: squeeze false s'
      else squeeze prev_dash s'
  end.

(** Spaces and hyphens become single hyphens between the words. *)
Definition slug_of (title : jsstring) (low : bool) : jsstring :=
  let words := trim (List.map (fun c => if (c =? 45)%N then 32%N else c) title) in
  let s1 := squeeze false (List.filter (fun c => is_alpha c || is_digit c || is_ws c) words) in
  if low then List.map lower s1 else s1.

Definition resolve (dir file : jsstring) : jsstring := dir ++ u "/" ++ file.

Definition host : Host :=
  {| matter := gm_matter;
     matter_stringify := gm_stringify;
     Date_new := date_new;
     toISOString := iso_string;
     toTimeString := time_string;
     slugify := slug_of;
     path_resolve := resolve |}.

End Node.

(* ===================================================================== *)
(** * The vocabulary of the properties *)
(* ===================================================================== *)

(** ** Documents and their serialization *)

(** The frontmatter block of a serialized document. *)
Definition frontmatter_part (host : Host) (fm : frontmatter) : result jsstring :=
  match fm with
  | [] => Ok []
  | _ => y <- matter_stringify host fm ;;
         Ok (u "---" ++ nl ++ strip_delimiters y ++ u "---" ++ nl ++ nl)
  end.

(** The comments block of a serialized document: the blank-line separator,
    the start anchor, the text and the end anchor. *)
Definition comments_part (config : CommentsConfig) (c : option jsstring) : jsstring :=
  match c with
  | Some (x :: xs) =>
      nl ++ nl ++ anchors_start config ++ nl ++ (x :: xs) ++ nl ++ anchors_end config
  | _ => []
  end.

Definition document_body (d : MarkdownData) (config : CommentsConfig) : jsstring :=
  md_content d ++ comments_part config (md_comments d).

(** [parse] returns the document it is given the serialization of. *)
Definition same_document (d : MarkdownData) (p : ParsedMarkdown) : Prop :=
  pm_frontmatter p = md_frontmatter d
  /\ pm_content p = md_content d
  /\ pm_comments p = md_comments d.

Definition round_trips (host : Host) (config : CommentsConfig) (d : MarkdownData) : Prop :=
  exists text p,
    buildMarkdownContent host d config = Ok text
    /\ parseMarkdownContent host text = Ok p
    /\ same_document d p.

(** A comments text the codec hands back unchanged: absent, or not empty,
    without white space around it and without the end anchor in it. *)
Definition well_formed_comments (c : option jsstring) : Prop :=
  match c with
  | None => True
  | Some t => t <> [] /\ trim t = t /\ includes END_ANCHOR t = false
  end.

(** What follows the content once a document with a comments block is
    parsed again: the blank line that separated the two. *)
Definition kept_separator (c : option jsstring) : jsstring :=
  match c with
  | Some (_ :: _) => nl ++ nl
  | _ => []
  end.

(** The body of a serialized document with the comments text [t] after
    the text [x], under the default anchors. *)
Definition anchored_body (x t : jsstring) : jsstring :=
  x ++ nl ++ nl ++ START_ANCHOR ++ nl ++ t ++ nl ++ END_ANCHOR.

Definition default_anchors (config : CommentsConfig) : Prop :=
  anchors_start config = START_ANCHOR /\ anchors_end config = END_ANCHOR.

(** ** One run of the engine *)

Definition target_name (host : Host) (config : RedmineConfig) (issue : RedmineIssue)
  : jsstring :=
  generateFilename host (i_id issue) (i_subject issue) (filename config) ∅.

Definition target_path (host : Host) (config : RedmineConfig)
    (options : SyncIssueOptions) (issue : RedmineIssue) : jsstring :=
  path_resolve host (str_or (o_outputDir options) (outputDir config))
               (target_name host config issue).

(** One of the four steps of a run throws [e]: the fetch, the read, the
    merge of the comments, or the write. *)
Definition raises (host : Host) (remote : Remote) (id : Z) (config : RedmineConfig)
    (options : SyncIssueOptions) (fs : FS) (e : exn) : Prop :=
  getIssue remote id (defaults_include config) = Err e
  \/ exists issue,
       getIssue remote id (defaults_include config) = Ok issue
       /\ (readMarkdownFile host fs (target_path host config options issue) = Err e
           \/ exists existingFile,
                let fm := pm_frontmatter existingFile in
                let needsComments :=
                  shouldUpdateComments (default [] (i_journals issue)) fm in
                readMarkdownFile host fs (target_path host config options issue)
                = Ok existingFile
                /\ id_conflict (extractIssueIdFromFrontmatter fm) (i_id issue) = false
                /\ shouldUpdateIssue host issue fm || needsComments = true
                /\ (resolveComments host issue config existingFile needsComments
                      (extractLastJournalId fm) = Err e
                    \/ exists cmts,
                         resolveComments host issue config existingFile needsComments
                           (extractLastJournalId fm) = Ok cmts
                         /\ dryRun options = false
                         /\ writeMarkdownFile host fs
                              (target_path host config options issue)
                              {| md_frontmatter := mapIssueToFrontmatter issue;
                                 md_content := mapIssueToContent issue;
                                 md_comments := cmts |} (comments config) = Err e)).

(** The remote [updated_on] is strictly later than the recorded one. *)
Definition strictly_later (host : Host) (remote_updated_on : jsstring)
    (local_updated_on : jsval) : Prop :=
  exists r l, Date_new host (VStr remote_updated_on) = Some r
              /\ Date_new host local_updated_on = Some l /\ l < r.

(** No journal of the remote is newer than the recorded marker; without a
    marker, no journal at all. *)
Definition no_new_comments (journals : list RedmineJournal) (fm : frontmatter) : Prop :=
  (exists m, get (u "lastJournalId") fm = VNum m
             /\ forall j, j ∈ journals -> 0 < j_id j <= m)
  \/ (get (u "lastJournalId") fm = VUndef /\ journals = []).

(** The frontmatter records the issue id [e]: its [id] is the number [e],
    or a string [parseInt] reads as [e], and [e] is not 0 (issue ids are
    positive; the engine takes a 0 for no id). *)
Definition recorded_id (fm : frontmatter) (e : Z) : Prop :=
  extractIssueIdFromFrontmatter fm = Some e /\ e <> 0.

(** The frontmatter records no usable id: no [id] key, a value that is
    neither a number nor a string [parseInt] reads, or the number 0. *)
Definition no_recorded_id (fm : frontmatter) : Prop :=
  match get (u "id") fm with
  | VNum z => z = 0
  | VStr s => parseInt s = None
  | _ => True
  end.

(** The [id] the file holds, read off the frontmatter itself: the number
    [e], or a string [parseInt] reads as [e]. *)
Definition id_on_file (fm : frontmatter) (e : Z) : Prop :=
  match get (u "id") fm with
  | VNum z => z = e
  | VStr s => parseInt s = Some e
  | _ => False
  end.

(** The identity guard as the specification words it: whatever id the
    file holds, when it is not the id of the fetched issue the run fails
    with action [skipped] and hands the store back as it was. *)
Definition guards_every_id (host : Host) (remote : Remote) (id : Z)
    (config : RedmineConfig) (options : SyncIssueOptions) (fs : FS) : Prop :=
  forall issue existingFile e,
    getIssue remote id (defaults_include config) = Ok issue ->
    readMarkdownFile host fs (target_path host config options issue) = Ok existingFile ->
    id_on_file (pm_frontmatter existingFile) e ->
    e <> i_id issue ->
    success (fst (syncIssue host remote id config options fs)) = false
    /\ action (fst (syncIssue host remote id config options fs)) = skipped
    /\ snd (syncIssue host remote id config options fs) = fs.

(** The dry run as the specification words it: a run that detects a
    change reports [created] when the file holds no id, and [updated]
    when it holds one. *)
Definition names_action_by_presence (host : Host) (remote : Remote) (id : Z)
    (config : RedmineConfig) (options : SyncIssueOptions) (fs : FS) : Prop :=
  forall issue existingFile,
    getIssue remote id (defaults_include config) = Ok issue ->
    readMarkdownFile host fs (target_path host config options issue) = Ok existingFile ->
    shouldUpdateIssue host issue (pm_frontmatter existingFile)
    || shouldUpdateComments (default [] (i_journals issue))
         (pm_frontmatter existingFile) = true ->
    ((forall e, ~ id_on_file (pm_frontmatter existingFile) e) ->
     action (fst (syncIssue host remote id config options fs)) = created)
    /\ ((exists e, id_on_file (pm_frontmatter existingFile) e) ->
        action (fst (syncIssue host remote id config options fs)) = updated).

(** The journals for which the rendering loop emits text. *)
Definition rendered (journals : list RedmineJournal) : list RedmineJournal :=
  List.filter (fun j => negb (silent j)) journals.

Definition max_id (journals : list RedmineJournal) : option Z :=
  match journals with
  | [] => None
  | j :: js => Some (fold_left Z.max (List.map j_id js) (j_id j))
  end.

(** The claim of the specification: the marker written for [issue] is the
    greatest id among the entries rendered into the comments block, where
    [last] is the marker the file held before. *)
Definition marker_is_max_rendered (issue : RedmineIssue) (last : option Z) : Prop :=
  extractLastJournalId (mapIssueToFrontmatter issue)
  = max_id (rendered (extractNewJournals (default [] (i_journals issue)) last)).

(** ** The outcomes of a project run *)

(** The per-issue results of [sync_each], in the order they are tallied. *)
Fixpoint outcomes (host : Host) (remote : Remote) (config : RedmineConfig)
    (options : SyncIssueOptions) (issues : list RedmineIssue) (fs : FS)
  : list SyncIssueResult :=
  match issues with
  | [] => []
  | issue :: rest =>
      let '(r, fs1) := syncIssue host remote (i_id issue) config options fs in
      r :: outcomes host remote config options rest fs1
  end.

Definition failures (rs : list SyncIssueResult) : list SyncIssueResult :=
  List.filter (fun r => negb (success r)) rs.

(** The query [syncProject] sends for the list of issues. *)
Definition project_query (config : RedmineConfig) (options : SyncProjectOptions)
  : IssuesQuery :=
  {| q_status := str_or (p_status options) (defaults_status config);
     q_pageSize := match p_pageSize options with
                   | Some 0 | None => defaults_pageSize config
                   | Some n => n
                   end;
     q_include := defaults_include config;
     q_updatedSince := p_updatedSince options |}.

Definition report (r : SyncIssueResult) : Z * jsstring := (issueId r, message r).

Definition project_options (options : SyncProjectOptions) : SyncIssueOptions :=
  {| dryRun := p_dryRun options; o_outputDir := p_outputDir options |}.

(** A tally in which every processed issue is counted once, and every
    failure has its entry in [errors]. *)
Definition balanced (r : SyncProjectResult) : Prop :=
  n_created r + n_updated r + n_skipped r + n_failed r = processed r
  /\ Z.of_nat (length (errors r)) = n_failed r
  /\ 0 <= n_created r /\ 0 <= n_updated r /\ 0 <= n_skipped r.

(** ** The server behind the HTTP client *)

(** [URLSearchParams.get]: the first value appended under the name. *)
Definition param (k : jsstring) (ps : list (jsstring * jsstring)) : option jsstring :=
  snd <$> List.find (fun kv => str_eqb k (fst kv)) ps.

(** The answer of a server that holds the issues [all] of the project, in
    a fixed order: the [limit] issues from [offset] on (25 from the first
    one when the request does not say), and the number of issues there
    are. *)
Definition window (all : list RedmineIssue) (ps : list (jsstring * jsstring))
  : RedmineIssuesResponse :=
  let limit := default 25 (param (u "limit") ps ≫= parseInt) in
  let offset := default 0 (param (u "offset") ps ≫= parseInt) in
  {| r_issues := take (Z.to_nat limit) (drop (Z.to_nat offset) all);
     total_count := Z.of_nat (length all);
     r_offset := offset;
     r_limit := limit |}.

Definition serves (request : list (jsstring * jsstring) -> result RedmineIssuesResponse)
    (all : list RedmineIssue) : Prop :=
  forall ps, request ps = Ok (window all ps).

(** ** Slugs *)

(** The [k]-th name the dedupe loop tries: the slug cut to leave room for
    the suffix [-k]. *)
Definition candidate (slug0 : jsstring) (maxLen : Z) (k : Z) : jsstring :=
  substring slug0 0 (maxLen - Z.of_nat (length (u "-" ++ Number_toString k)))
    ++ u "-" ++ Number_toString k.
(* ===================================================================== *)
(** * Sample inputs

    Issue 42 ("Fix bug") with one written comment (journal 10) and one
    silent field change (journal 11), the default configuration with the
    output directory [/out], and a few file stores. *)
(* ===================================================================== *)

Module Sample.

Definition who (s : string) : Named := {| ref_id := 1; name := u s |}.

Definition config : RedmineConfig :=
  {| project_id := 1;
     outputDir := u "/out";
     defaults_include := [u "journals"];
     defaults_status := u "*";
     defaults_pageSize := 100;
     filename := {| pattern := u "{issueId}-{slug}.md";
                    slug := {| maxLength := 80; dedupe := true; lowercase := true |};
                    renameOnTitleChange := false |};
     comments := {| anchors_start := START_ANCHOR; anchors_end := END_ANCHOR;
                    trackBy := journalId |} |}.

Definition note10 : RedmineJournal :=
  {| j_id := 10; j_user := who "Ann"; j_notes := Some (u "First note");
     j_created_on := u "2024-01-02T10:20:30Z"; j_details := None |}.

Definition silent11 : RedmineJournal :=
  {| j_id := 11; j_user := who "Bob"; j_notes := Some [];
     j_created_on := u "2024-01-03T10:20:30Z";
     j_details := Some [ {| d_name := u "status_id"; d_old_value := u "1";
                            d_new_value := u "2" |} ] |}.

(** A written comment whose timestamp [Date] cannot read. *)
Definition undated12 : RedmineJournal :=
  {| j_id := 12; j_user := who "Cy"; j_notes := Some (u "Later note");
     j_created_on := u "yesterday"; j_details := None |}.

Definition issue (id : Z) (updated_on : string)
    (journals : option (list RedmineJournal)) : RedmineIssue :=
  {| i_id := id; i_subject := u "Fix bug"; i_description := u "Some description";
     i_status := who "New"; i_priority := who "Normal"; i_author := who "Ann";
     i_assigned_to := None;
     i_created_on := u "2024-01-01T00:00:00Z"; i_updated_on := u updated_on;
     i_project := who "Demo"; i_tracker := who "Bug";
     i_journals := journals; i_relations := None; i_attachments := None |}.

Definition not_found : exn := Exn None (u "Not Found").

(** A remote that serves the one issue [i] and nothing else. *)
Definition remote (i : RedmineIssue) : Remote :=
  {| getIssue := fun id _ => if id =? i_id i then Ok i else Err not_found;
     getIssuesConcurrently := fun _ _ => Ok [i] |}.

(** A remote that is down. *)
Definition offline : Remote :=
  {| getIssue := fun _ _ => Err not_found;
     getIssuesConcurrently := fun _ _ => Err not_found |}.

Definition write : SyncIssueOptions := {| dryRun := false; o_outputDir := None |}.
Definition dry : SyncIssueOptions := {| dryRun := true; o_outputDir := None |}.

Definition path42 : jsstring := u "/out/42-fix-bug.md".

Definition empty_fs : FS := {| files := ∅; denied := ∅ |}.

Definition first : RedmineIssue := issue 42 "2024-01-05T00:00:00Z" (Some [note10]).
Definition second : RedmineIssue := issue 42 "2024-01-06T00:00:00Z" (Some [note10; silent11]).

(** The store after issue 42 was synced for the first time. *)
Definition synced_fs : FS := snd (syncIssue Node.host (remote first) 42 config write empty_fs).

(** A store where the file of issue 42 records another issue. *)
Definition foreign_fs : FS :=
  {| files := {[ path42 := u "---" ++ nl ++ u "id: 5" ++ nl ++ u "---" ++ nl ++ u "Other" ]};
     denied := ∅ |}.

(** A store where the file of issue 42 records the id 0. *)
Definition zero_fs : FS :=
  {| files := {[ path42 := u "---" ++ nl ++ u "id: 0" ++ nl ++ u "---" ++ nl ++ u "Draft" ]};
     denied := ∅ |}.

(** The document the first sync of issue 42 writes. *)
Definition document : MarkdownData :=
  {| md_frontmatter := mapIssueToFrontmatter first;
     md_content := u "Some description";
     md_comments := Some (u "## Ann - 2024-01-02 10:20" ++ nl ++ nl
                           ++ u "First note" ++ nl ++ nl ++ u "---") |}.

(** Its serialization. *)
Definition document_text : jsstring :=
  match buildMarkdownContent Node.host document (comments config) with
  | Ok text => text
  | Err _ => []
  end.

(** What gray-matter leaves in front of the body once it has taken the
    header of [document_text] off. *)
Definition header_rest : jsstring := nl ++ u "---" ++ nl ++ nl.

(** A body in which the end anchor comes before the start anchor. *)
Definition reversed_body : jsstring :=
  u "x" ++ END_ANCHOR ++ u "y" ++ START_ANCHOR ++ u "z".

(** The file of issue 42 as the engine reads it from a store. *)
Definition reread (fs : FS) : ParsedMarkdown :=
  match readMarkdownFile Node.host fs path42 with
  | Ok p => p
  | Err _ => empty_parsed []
  end.

(** Issue 42 without journals: the "first sync" scenario. *)
Definition plain : RedmineIssue := issue 42 "2024-01-05T00:00:00Z" None.

(** A project of two issues of which only issue 42 can be fetched. *)
Definition partial : Remote :=
  {| getIssue := fun id _ => if id =? 42 then Ok first else Err not_found;
     getIssuesConcurrently := fun _ _ => Ok [ first; issue 7 "2024-01-05T00:00:00Z" None ] |}.

Definition all_issues : SyncProjectOptions :=
  {| p_status := None; p_updatedSince := None; p_dryRun := false;
     p_outputDir := None; p_pageSize := None |}.

(** The slug configuration of the deduplication test. *)
Definition dedupe : SlugConfig :=
  {| maxLength := 80; dedupe := true; lowercase := true |}.

(** A project of three issues behind a server that answers page by page. *)
Definition backlog : list RedmineIssue :=
  [ issue 42 "2024-01-05T00:00:00Z" (Some [note10]);
    issue 7 "2024-01-05T00:00:00Z" None;
    issue 8 "2024-01-06T00:00:00Z" None ].

Definition server (ps : list (jsstring * jsstring)) : result RedmineIssuesResponse :=
  Ok (window backlog ps).

Definition by_two : IssuesQuery :=
  {| q_status := u "*"; q_pageSize := 2; q_include := [u "journals"];
     q_updatedSince := None |}.

(** The configuration with anchors of the user's own. *)
Definition own_anchors : RedmineConfig :=
  {| project_id := 1;
     outputDir := u "/out";
     defaults_include := [u "journals"];
     defaults_status := u "*";
     defaults_pageSize := 100;
     filename := filename config;
     comments := {| anchors_start := u "<!-- notes -->";
                    anchors_end := u "<!-- /notes -->";
                    trackBy := journalId |} |}.

(** A second written comment, and issue 42 once it has it. *)
Definition note12 : RedmineJournal :=
  {| j_id := 12; j_user := who "Cy"; j_notes := Some (u "Later note");
     j_created_on := u "2024-01-04T10:20:30Z"; j_details := None |}.

Definition third : RedmineIssue :=
  issue 42 "2024-01-07T00:00:00Z" (Some [note10; note12]).

(** The text of the file of issue 42 after [first], then [third], were
    synced under a configuration. *)
Definition twice (c : RedmineConfig) : jsstring :=
  let fs1 := snd (syncIssue Node.host (remote first) 42 c write empty_fs) in
  let fs2 := snd (syncIssue Node.host (remote third) 42 c write fs1) in
  default [] (files fs2 !! path42).

End Sample.

(* ===================================================================== *)
(** * Tactics *)
(* ===================================================================== *)

(** Runs [syncIssue] through a fetch [Hfetch] and a read [Hread] that both
    succeed. *)
Ltac run_engine Hfetch Hread :=
  unfold syncIssue, syncIssue_try; cbv zeta; rewrite Hfetch; cbn [bind];
  unfold target_path, target_name in Hread; rewrite Hread; cbn [bind].

(** A change was detected: the test for "up to date" fails. *)
Ltac change_detected Hchange :=
  match goal with
  | |- context [negb ?a && negb ?b] =>
      replace (negb a && negb b) with false
        by (symmetry; rewrite <- negb_orb; by apply negb_false_iff)
  end.

(* ===================================================================== *)
(** * Sanity checks of the model *)
(* ===================================================================== *)

Example trim_example : trim (u "  a b  ") = u "a b".
Proof. reflexivity. Qed.

Example indexOf_example : indexOf (u "lo") (u "hello") = Some 3%nat.
Proof. reflexivity. Qed.

Example parseInt_example :
  parseInt (u " 42abc") = Some 42 /\ parseInt (u "abc") = None
  /\ Number_toString (-7) = u "-7".
Proof. repeat split; reflexivity. Qed.

Example node_iso :
  Node.parse_iso (u "2024-01-01T00:00:00Z") = Some 1704067200000
  /\ Node.iso_string 1704067200000 = u "2024-01-01T00:00:00.000Z"
  /\ Node.iso_string 1709210096000 = u "2024-02-29T12:34:56.000Z".
Proof. repeat split; reflexivity. Qed.

Example node_slug : Node.slug_of (u "Fix  bug - now!") true = u "fix-bug-now".
Proof. reflexivity. Qed.

(* ===================================================================== *)
(** * Facts about strings *)
(* ===================================================================== *)

Section StringFacts.
Implicit Types (p s x y : jsstring) (c : N).

Lemma startsWith_app p s : startsWith p (p ++ s) = true.
Proof.
  induction p as [|a p IH]; simpl; [done|].
  by rewrite N.eqb_refl, IH.
Qed.

(** A pattern without the code unit [c] cannot reach across a [c]. *)
Lemma startsWith_across c p x y :
  c ∉ p -> startsWith p (x ++ c :: y) = startsWith p x.
Proof.
  revert p. induction x as [|b x IH]; intros [|a p] Hc; simpl; try done.
  - destruct (N.eqb_spec a c) as [->|]; [|done].
    exfalso. apply Hc. set_solver.
  - rewrite IH; [done|]. set_solver.
Qed.

Lemma indexOf_nil_pattern_free p : p <> [] -> indexOf p [] = None.
Proof. by destruct p. Qed.

Lemma indexOf_across c p x y :
  c ∉ p -> p <> [] ->
  indexOf p (x ++ c :: y) =
    match indexOf p x with
    | Some i => Some i
    | None => (fun j => (length x + 1 + j)%nat) <$> indexOf p y
    end.
Proof.
  intros Hc Hp. induction x as [|b x IH].
  - rewrite indexOf_nil_pattern_free by done. simpl.
    replace (startsWith p (c :: y)) with (startsWith p ([] ++ c :: y)) by done.
    rewrite startsWith_across by done.
    destruct p; [done|]. simpl. by destruct (indexOf _ y).
  - change ((b :: x) ++ c :: y) with (b :: (x ++ c :: y)).
    cbn [indexOf].
    replace (startsWith p (b :: x ++ c :: y))
      with (startsWith p ((b :: x) ++ c :: y)) by done.
    rewrite startsWith_across by done.
    destruct (startsWith p (b :: x)); [done|].
    rewrite IH. destruct (indexOf p x); [done|].
    by destruct (indexOf p y).
Qed.

Lemma indexOf_here p s : indexOf p (p ++ s) = Some 0%nat.
Proof. destruct p; simpl; [by destruct s|]. by rewrite N.eqb_refl, startsWith_app. Qed.

Lemma includes_false p s : includes p s = false -> indexOf p s = None.
Proof. unfold includes. by destruct (indexOf p s). Qed.

Lemma substring_prefix s n :
  (n <= length s)%nat -> substring s 0 (Z.of_nat n) = take n s.
Proof.
  intros Hn. unfold substring. cbv zeta.
  replace (Z.max 0 (Z.min 0 (Z.of_nat (length s)))) with 0 by lia.
  replace (Z.max 0 (Z.min (Z.of_nat n) (Z.of_nat (length s)))) with (Z.of_nat n) by lia.
  replace (Z.min 0 (Z.of_nat n)) with 0 by lia.
  replace (Z.max 0 (Z.of_nat n)) with (Z.of_nat n) by lia.
  rewrite Z.sub_0_r, Nat2Z.id. done.
Qed.

Lemma substring_middle x y s :
  substring (x ++ y ++ s) (Z.of_nat (length x)) (Z.of_nat (length x + length y)) = y.
Proof.
  unfold substring. cbv zeta. rewrite !length_app.
  set (a := Z.of_nat (length x)). set (b := Z.of_nat (length x + length y)).
  set (n := Z.of_nat (length x + (length y + length s))).
  replace (Z.max 0 (Z.min a n)) with a by lia.
  replace (Z.max 0 (Z.min b n)) with b by lia.
  replace (Z.min a b) with a by lia. replace (Z.max a b) with b by lia.
  subst a b. rewrite Nat2Z.id.
  replace (Z.to_nat (Z.of_nat (length x + length y) - Z.of_nat (length x)))
    with (length y) by lia.
  by rewrite drop_app_length, take_app_length.
Qed.

Lemma substring_from_end s : substring_from s (Z.of_nat (length s)) = [].
Proof.
  unfold substring_from, substring. cbv zeta.
  replace (Z.max 0 (Z.min (Z.of_nat (length s)) (Z.of_nat (length s))))
    with (Z.of_nat (length s)) by lia.
  rewrite Z.min_id, Z.max_id, Z.sub_diag. done.
Qed.

Lemma trimStart_length s : (length (trimStart s) <= length s)%nat.
Proof. induction s as [|c s IH]; simpl; [done|]. destruct (is_ws c); simpl; lia. Qed.

Lemma trimEnd_length s : (length (trimEnd s) <= length s)%nat.
Proof.
  unfold trimEnd. rewrite length_rev.
  etrans; [apply trimStart_length|]. by rewrite length_rev.
Qed.

Lemma trimEnd_snoc_ws s c : is_ws c = true -> trimEnd (s ++ [c]) = trimEnd s.
Proof. intros Hc. unfold trimEnd. rewrite rev_app_distr. simpl. by rewrite Hc. Qed.

(** A string that [trim] leaves alone starts with a visible code unit. *)
Lemma trimmed_head c s : trim (c :: s) = c :: s -> is_ws c = false.
Proof.
  intros Ht. destruct (is_ws c) eqn:Hc; [|done].
  exfalso. assert (length (trim (c :: s)) <= length s)%nat as Hlen.
  { unfold trim. etrans; [apply trimEnd_length|]. simpl. rewrite Hc.
    apply trimStart_length. }
  rewrite Ht in Hlen. simpl in Hlen. lia.
Qed.

Lemma trimmed_trimEnd c s : trim (c :: s) = c :: s -> trimEnd (c :: s) = c :: s.
Proof.
  intros Ht. pose proof (trimmed_head _ _ Ht) as Hc.
  unfold trim in Ht. simpl in Ht. by rewrite Hc in Ht.
Qed.

(** The text between the anchors comes back as it went in. *)
Lemma trim_between_newlines c s :
  trim (c :: s) = c :: s -> trim (nl ++ (c :: s) ++ nl) = c :: s.
Proof.
  intros Ht. pose proof (trimmed_head _ _ Ht) as Hc.
  unfold trim. simpl. rewrite Hc.
  change (c :: s ++ nl) with ((c :: s) ++ [10%N]).
  rewrite trimEnd_snoc_ws by done. by apply trimmed_trimEnd.
Qed.

Lemma trim_visible_head c s : is_ws c = false -> trim (c :: s) <> [].
Proof.
  intros Hc. unfold trim. simpl. rewrite Hc.
  destruct (rev s) as [|d r] eqn:Hr.
  - apply (f_equal (@rev N)) in Hr. rewrite rev_involutive in Hr. subst s.
    unfold trimEnd. simpl. by rewrite Hc.
  - unfold trimEnd. simpl. rewrite Hr.
    assert (forall r', trimStart (r' ++ [c]) <> []) as Hne.
    { intros r'. induction r' as [|e r' IH]; simpl; [by rewrite Hc|].
      by destruct (is_ws e). }
    change ((d :: r) ++ [c]) with (d :: r ++ [c]).
    intros Hnil. apply (f_equal (@rev N)) in Hnil. rewrite rev_involutive in Hnil.
    by apply (Hne (d :: r)).
Qed.

End StringFacts.
(* ===================================================================== *)
(** * The codec *)
(* ===================================================================== *)

Lemma newline_not_in_start : 10%N ∉ START_ANCHOR.
Proof. apply (bool_decide_unpack _). by vm_compute. Qed.

Lemma newline_not_in_end : 10%N ∉ END_ANCHOR.
Proof. apply (bool_decide_unpack _). by vm_compute. Qed.

Lemma start_anchor_length : length START_ANCHOR = 31%nat.
Proof. reflexivity. Qed.

Lemma end_anchor_length : length END_ANCHOR = 29%nat.
Proof. reflexivity. Qed.

(** Without one of the anchors the body is all content. *)
Lemma anchor_missing body :
  includes START_ANCHOR body = false \/ includes END_ANCHOR body = false ->
  extractCommentsSection body = None /\ removeCommentsSection body = body.
Proof.
  unfold extractCommentsSection, removeCommentsSection.
  intros [H|H]; apply includes_false in H; rewrite H; [done|].
  by destruct (indexOf START_ANCHOR body).
Qed.

Section Anchored.
Variables (x t : jsstring).
Hypothesis no_start : includes START_ANCHOR x = false.
Hypothesis no_end : includes END_ANCHOR x = false.
Hypothesis no_end_inside : includes END_ANCHOR t = false.

Lemma start_anchor_found : indexOf START_ANCHOR (anchored_body x t) = Some (length x + 2)%nat.
Proof.
  unfold anchored_body, nl. cbn [app].
  rewrite (indexOf_across 10%N) by (apply newline_not_in_start || done).
  rewrite (includes_false _ _ no_start).
  change (10%N :: START_ANCHOR ++ 10%N :: t ++ 10%N :: END_ANCHOR)
    with ([] ++ 10%N :: START_ANCHOR ++ 10%N :: t ++ 10%N :: END_ANCHOR).
  rewrite (indexOf_across 10%N) by (apply newline_not_in_start || done).
  rewrite indexOf_nil_pattern_free by done.
  rewrite indexOf_here. simpl. f_equal. lia.
Qed.

Lemma end_anchor_found :
  indexOf END_ANCHOR (anchored_body x t) = Some (length x + 2 + 31 + 1 + length t + 1)%nat.
Proof.
  unfold anchored_body, nl. cbn [app].
  rewrite (indexOf_across 10%N) by (apply newline_not_in_end || done).
  rewrite (includes_false _ _ no_end).
  change (10%N :: START_ANCHOR ++ 10%N :: t ++ 10%N :: END_ANCHOR)
    with ([] ++ 10%N :: START_ANCHOR ++ 10%N :: t ++ 10%N :: END_ANCHOR).
  rewrite (indexOf_across 10%N) by (apply newline_not_in_end || done).
  rewrite indexOf_nil_pattern_free by done.
  rewrite (indexOf_across 10%N) by (apply newline_not_in_end || done).
  replace (indexOf END_ANCHOR START_ANCHOR) with (@None nat) by reflexivity.
  rewrite (indexOf_across 10%N) by (apply newline_not_in_end || done).
  rewrite (includes_false _ _ no_end_inside).
  replace (indexOf END_ANCHOR END_ANCHOR) with (Some 0%nat) by reflexivity.
  rewrite start_anchor_length. simpl. f_equal. lia.
Qed.

Lemma comments_extracted c s :
  t = c :: s -> trim t = t -> extractCommentsSection (anchored_body x t) = Some t.
Proof.
  intros Ht Htrim. unfold extractCommentsSection.
  rewrite start_anchor_found, end_anchor_found, start_anchor_length.
  destruct (Nat.leb_spec (length x + 2 + 31 + 1 + length t + 1)
                         (length x + 2 + 31)) as [Hle|_]; [lia|].
  f_equal. unfold anchored_body.
  replace (x ++ nl ++ nl ++ START_ANCHOR ++ nl ++ t ++ nl ++ END_ANCHOR)
    with ((x ++ nl ++ nl ++ START_ANCHOR) ++ (nl ++ t ++ nl) ++ END_ANCHOR)
    by (by rewrite <- !app_assoc).
  replace (Z.of_nat (length x + 2 + 31))
    with (Z.of_nat (length (x ++ nl ++ nl ++ START_ANCHOR)))
    by (rewrite !length_app, start_anchor_length; simpl; lia).
  replace (Z.of_nat (length x + 2 + 31 + 1 + length t + 1))
    with (Z.of_nat (length (x ++ nl ++ nl ++ START_ANCHOR) + length (nl ++ t ++ nl)))
    by (rewrite !length_app, start_anchor_length; simpl; lia).
  rewrite substring_middle. subst t. by apply trim_between_newlines.
Qed.

Lemma comments_removed : removeCommentsSection (anchored_body x t) = x ++ nl ++ nl.
Proof.
  unfold removeCommentsSection.
  rewrite start_anchor_found, end_anchor_found, end_anchor_length.
  replace (Z.of_nat (length x + 2 + 31 + 1 + length t + 1 + 29))
    with (Z.of_nat (length (anchored_body x t)))
    by (unfold anchored_body;
        rewrite !length_app, start_anchor_length, end_anchor_length; simpl; lia).
  rewrite substring_from_end.
  rewrite substring_prefix
    by (unfold anchored_body; rewrite !length_app; simpl; lia).
  unfold anchored_body.
  replace (x ++ nl ++ nl ++ START_ANCHOR ++ nl ++ t ++ nl ++ END_ANCHOR)
    with ((x ++ nl ++ nl) ++ START_ANCHOR ++ nl ++ t ++ nl ++ END_ANCHOR)
    by (by rewrite <- !app_assoc).
  rewrite take_app_length' by (rewrite !length_app; simpl; lia).
  change (trim []) with (@nil N). by rewrite app_nil_r.
Qed.

End Anchored.

(** ** C6: a body without a well-ordered pair of anchors *)

(** C6 (the code departs from the claim).  The claim: when an anchor is
    missing or the start anchor does not come before the end anchor, the
    comments are absent and the content is the whole body, unmodified.  On
    a body with the end anchor first, [extractCommentsSection] does return
    no comments, but [removeCommentsSection], which lacks the order test of
    its sibling, cuts and pastes around the two anchors: the content is not
    the body. *)
Theorem C6_reversed_anchors_change_content :
  extractCommentsSection Sample.reversed_body = None
  /\ removeCommentsSection Sample.reversed_body
     = u "x" ++ END_ANCHOR ++ u "y" ++ u "y" ++ START_ANCHOR ++ u "z"
  /\ removeCommentsSection Sample.reversed_body <> Sample.reversed_body
  /\ (pm_content <$> match parseMarkdownContent Node.host Sample.reversed_body with
                     | Ok p => Some p
                     | Err _ => None
                     end)
     = Some (u "x" ++ END_ANCHOR ++ u "y" ++ u "y" ++ START_ANCHOR ++ u "z").
Proof.
  split; [reflexivity|]. split; [reflexivity|]. split; [|reflexivity].
  intros H. vm_compute in H. discriminate H.
Qed.

(** ** C10: which blocks a serialization has *)

Lemma frontmatter_part_empty host fm head :
  frontmatter_part host fm = Ok head -> (head = [] <-> fm = []).
Proof.
  destruct fm as [|kv fm]; simpl.
  - intros [= <-]. done.
  - destruct (matter_stringify host (kv :: fm)); simpl; [|done].
    intros [= <-]. split; intros H; discriminate H.
Qed.

Lemma comments_part_empty config c :
  comments_part config c = [] <-> c = None \/ c = Some [].
Proof.
  destruct c as [[|x xs]|]; simpl; split; try (intros; discriminate); auto.
  - intros [H|H]; discriminate H.
Qed.

Lemma build_as_parts host d config :
  buildMarkdownContent host d config
  = (head <- frontmatter_part host (md_frontmatter d) ;;
     Ok (head ++ md_content d ++ comments_part config (md_comments d))).
Proof.
  unfold buildMarkdownContent, frontmatter_part, keys_length.
  destruct (md_frontmatter d) as [|kv fm]; simpl.
  - destruct (md_comments d) as [[|x xs]|]; simpl; by rewrite ?app_nil_r.
  - destruct (matter_stringify host (kv :: fm)); simpl; [|done].
    destruct (md_comments d) as [[|x xs]|]; simpl; f_equal;
      rewrite <- ?app_assoc; simpl; by rewrite ?app_nil_r.
Qed.

(** C10.  A serialization is the frontmatter block, the content and the
    comments block; the frontmatter block is empty exactly when the mapping
    has no keys, the comments block (separator, both anchors and text) is
    empty exactly when the comments are absent or the empty string; so the
    empty string and absent comments serialize to the same text. *)
Theorem C10_blocks_omitted (host : Host) (d : MarkdownData) (config : CommentsConfig) :
  buildMarkdownContent host d config
  = (head <- frontmatter_part host (md_frontmatter d) ;;
     Ok (head ++ md_content d ++ comments_part config (md_comments d)))
  /\ (forall head, frontmatter_part host (md_frontmatter d) = Ok head ->
        (head = [] <-> md_frontmatter d = []))
  /\ (comments_part config (md_comments d) = []
      <-> md_comments d = None \/ md_comments d = Some [])
  /\ buildMarkdownContent host
       {| md_frontmatter := md_frontmatter d; md_content := md_content d;
          md_comments := Some [] |} config
     = buildMarkdownContent host
         {| md_frontmatter := md_frontmatter d; md_content := md_content d;
            md_comments := None |} config.
Proof.
  split; [apply build_as_parts|].
  split; [intros head; apply frontmatter_part_empty|].
  split; [apply comments_part_empty|].
  by rewrite !build_as_parts.
Qed.

(** ** C1: parsing a serialization *)

Lemma build_starts_with_fence host d config text :
  md_frontmatter d <> [] ->
  buildMarkdownContent host d config = Ok text ->
  exists rest, text = 45%N :: rest.
Proof.
  intros Hfm. rewrite build_as_parts. unfold frontmatter_part.
  destruct (md_frontmatter d) as [|kv fm]; [done|].
  destruct (matter_stringify host (kv :: fm)); simpl; [|done].
  intros [= <-]. eauto.
Qed.

(** C1 (the claim as stated fails).  The document the first sync of issue
    42 writes is not what parsing its serialization returns: the content
    comes back with more than the description in it. *)
Lemma C1_content_not_preserved :
  buildMarkdownContent Node.host Sample.document (comments Sample.config)
  = readFile Sample.synced_fs Sample.path42
  /\ ~ round_trips Node.host (comments Sample.config) Sample.document.
Proof.
  split; [by vm_compute|].
  intros (text & p & Hbuild & Hparse & _ & Hcontent & _).
  vm_compute in Hbuild. injection Hbuild as <-.
  vm_compute in Hparse. injection Hparse as <-.
  vm_compute in Hcontent. discriminate Hcontent.
Qed.

(** C1, amended.  With the default anchors, for a document with a
    frontmatter, with well-formed comments and with a content free of both
    anchors: when gray-matter decodes the serialization into the
    frontmatter and the body (after whatever it leaves of the header,
    [pre]), parsing returns that frontmatter and those comments; the
    content it returns is the document's content after [pre], followed by
    the blank-line separator when there is a comments block. *)
Theorem C1_round_trip_up_to_separator (host : Host) (config : CommentsConfig)
    (d : MarkdownData) (pre text : jsstring) :
  default_anchors config ->
  md_frontmatter d <> [] ->
  well_formed_comments (md_comments d) ->
  includes START_ANCHOR (pre ++ md_content d) = false ->
  includes END_ANCHOR (pre ++ md_content d) = false ->
  buildMarkdownContent host d config = Ok text ->
  matter host text = Ok (md_frontmatter d, pre ++ document_body d config) ->
  parseMarkdownContent host text
  = Ok {| pm_frontmatter := md_frontmatter d;
          pm_content := pre ++ md_content d ++ kept_separator (md_comments d);
          pm_comments := md_comments d;
          pm_rawContent := text |}.
Proof.
  intros [Hs He] Hfm Hwf Hns Hne Hbuild Hmatter.
  destruct (build_starts_with_fence _ _ _ _ Hfm Hbuild) as [rest ->].
  unfold parseMarkdownContent.
  destruct (trim (45%N :: rest)) eqn:Htrim.
  { by apply trim_visible_head in Htrim. }
  rewrite Hmatter. simpl. unfold document_body, comments_part.
  rewrite Hs, He. f_equal.
  destruct (md_comments d) as [[|c s]|] eqn:Hc; simpl in Hwf.
  - by destruct Hwf as [? _].
  - destruct Hwf as (_ & Htrimmed & Hinside).
    replace (pre ++ md_content d ++ nl ++ nl ++ START_ANCHOR ++ nl ++ (c :: s)
               ++ nl ++ END_ANCHOR)
      with (anchored_body (pre ++ md_content d) (c :: s))
      by (unfold anchored_body; by rewrite <- !app_assoc).
    rewrite (comments_extracted _ _ Hns Hne Hinside c s eq_refl Htrimmed).
    rewrite (comments_removed _ _ Hns Hne Hinside).
    simpl. by rewrite <- !app_assoc.
  - rewrite !app_nil_r.
    destruct (anchor_missing (pre ++ md_content d) (or_introl Hns)) as [-> ->].
    done.
Qed.

Lemma C1_round_trip_witness :
  parseMarkdownContent Node.host Sample.document_text
  = Ok {| pm_frontmatter := md_frontmatter Sample.document;
          pm_content := Sample.header_rest ++ md_content Sample.document
                          ++ kept_separator (md_comments Sample.document);
          pm_comments := md_comments Sample.document;
          pm_rawContent := Sample.document_text |}.
Proof.
  apply (C1_round_trip_up_to_separator Node.host (comments Sample.config)
           Sample.document Sample.header_rest Sample.document_text).
  - split; reflexivity.
  - discriminate.
  - split; [discriminate | split; by vm_compute].
  - by vm_compute.
  - by vm_compute.
  - by vm_compute.
  - by vm_compute.
Defined.

(* ===================================================================== *)
(** * The per-issue engine *)
(* ===================================================================== *)

(** ** The frontmatter the engine writes *)

Lemma get_id issue : get (u "id") (mapIssueToFrontmatter issue) = VNum (i_id issue).
Proof. reflexivity. Qed.

Lemma get_updated_on issue :
  get (u "updated_on") (mapIssueToFrontmatter issue) = VStr (i_updated_on issue).
Proof. reflexivity. Qed.

Lemma get_marker issue :
  get (u "lastJournalId") (mapIssueToFrontmatter issue)
  = match i_journals issue with
    | Some (j :: js) => VNum (j_id (lastJournal j js))
    | _ => VUndef
    end.
Proof.
  unfold mapIssueToFrontmatter.
  destruct (i_assigned_to issue), (i_relations issue) as [[|??]|],
    (i_attachments issue) as [[|??]|], (i_journals issue) as [[|??]|];
    reflexivity.
Qed.

Lemma lastJournal_id j js :
  j_id (lastJournal j js) = fold_left Z.max (List.map j_id js) (j_id j).
Proof.
  unfold lastJournal. revert j. induction js as [|a js IH]; intros j; simpl; [done|].
  rewrite IH. f_equal. destruct (Z.ltb_spec (j_id j) (j_id a)); lia.
Qed.

Lemma fold_max_ge (l : list Z) (a : Z) :
  a <= fold_left Z.max l a /\ forall x, x ∈ l -> x <= fold_left Z.max l a.
Proof.
  revert a. induction l as [|b l IH]; intros a; simpl.
  - split; [lia|]. intros x Hx. by apply elem_of_nil in Hx.
  - destruct (IH (Z.max a b)) as [H1 H2]. split; [lia|].
    intros x [->|Hx]%elem_of_cons; [lia|by apply H2].
Qed.

Lemma max_id_ge js m j : max_id js = Some m -> j ∈ js -> j_id j <= m.
Proof.
  destruct js as [|a js]; simpl; [done|]. intros [= <-] Hj.
  destruct (fold_max_ge (List.map j_id js) (j_id a)) as [H1 H2].
  apply elem_of_cons in Hj as [->|Hj]; [done|].
  apply H2. apply list_elem_of_In, in_map, list_elem_of_In, Hj.
Qed.

Lemma max_id_some js j : j ∈ js -> exists m, max_id js = Some m.
Proof. destruct js; simpl; [by intros ?%elem_of_nil|eauto]. Qed.

(** The marker the engine writes is the greatest id the remote sent. *)
Lemma marker_is_max_fetched issue :
  extractLastJournalId (mapIssueToFrontmatter issue)
  = max_id (default [] (i_journals issue)).
Proof.
  unfold extractLastJournalId. rewrite get_marker.
  destruct (i_journals issue) as [[|j js]|]; simpl; try done.
  by rewrite lastJournal_id.
Qed.

Lemma existsb_none {A} (f : A -> bool) (l : list A) :
  (forall x, x ∈ l -> f x = false) -> existsb f l = false.
Proof.
  induction l as [|a l IH]; intros H; simpl; [done|].
  rewrite (H a) by set_solver. apply IH. intros x Hx. apply H. set_solver.
Qed.

(** ** Change detection *)

Lemma not_later_no_update host issue fm :
  truthy (get (u "updated_on") fm) = true ->
  ~ strictly_later host (i_updated_on issue) (get (u "updated_on") fm) ->
  shouldUpdateIssue host issue fm = false.
Proof.
  intros Ht Hn. unfold shouldUpdateIssue. cbv zeta. rewrite Ht. simpl.
  destruct (Date_new host (VStr (i_updated_on issue))) as [r|] eqn:Hr; [|done].
  destruct (Date_new host (get (u "updated_on") fm)) as [l|] eqn:Hl; [|done].
  destruct (Z.ltb_spec l r); [|done].
  exfalso. apply Hn. by exists r, l.
Qed.

Lemma no_new_comments_no_update journals fm :
  no_new_comments journals fm -> shouldUpdateComments journals fm = false.
Proof.
  unfold shouldUpdateComments. cbv zeta.
  intros [(m & -> & Hm)|[-> ->]]; [|done].
  simpl. destruct (Z.eqb_spec m 0) as [->|Hm0]; simpl.
  - destruct journals as [|j js]; [done|].
    pose proof (Hm j (list_elem_of_here _ _)) as Hj. lia.
  - apply existsb_none. intros j Hj. unfold num_gt. simpl.
    specialize (Hm j Hj). destruct (Z.ltb_spec m (j_id j)); [lia|done].
Qed.

(** The frontmatter of an issue shows no change against that same issue. *)
Lemma fresh_frontmatter_unchanged host issue :
  i_updated_on issue <> [] ->
  (forall j, j ∈ default [] (i_journals issue) -> 0 < j_id j) ->
  shouldUpdateIssue host issue (mapIssueToFrontmatter issue) = false
  /\ shouldUpdateComments (default [] (i_journals issue))
       (mapIssueToFrontmatter issue) = false
  /\ id_conflict (extractIssueIdFromFrontmatter (mapIssueToFrontmatter issue))
       (i_id issue) = false.
Proof.
  intros Hupd Hpos. split; [|split].
  - unfold shouldUpdateIssue. cbv zeta. rewrite get_updated_on. simpl.
    destruct (i_updated_on issue) eqn:Hu; [done|]. simpl.
    destruct (Date_new host _); [|done]. by rewrite Z.ltb_irrefl.
  - apply no_new_comments_no_update. unfold no_new_comments.
    rewrite get_marker.
    destruct (i_journals issue) as [[|j js]|] eqn:Hj; simpl in *; auto.
    left. exists (j_id (lastJournal j js)). split; [done|].
    intros k Hk. split; [by apply Hpos|].
    apply (max_id_ge (j :: js)); [|done]. simpl. by rewrite lastJournal_id.
  - unfold extractIssueIdFromFrontmatter. rewrite get_id. simpl.
    by rewrite Z.eqb_refl, andb_false_r.
Qed.

(** ** Running the engine step by step *)

Lemma id_conflict_true e id : e <> 0 -> e <> id -> id_conflict (Some e) id = true.
Proof.
  intros H0 Hid. simpl.
  destruct (Z.eqb_spec e 0); [done|]. by destruct (Z.eqb_spec e id).
Qed.

Lemma no_recorded_id_falsy fm :
  no_recorded_id fm -> id_truthy (extractIssueIdFromFrontmatter fm) = false.
Proof.
  unfold no_recorded_id, extractIssueIdFromFrontmatter.
  destruct (get (u "id") fm); try done.
  - by intros ->.
  - by intros ->.
Qed.

Lemma id_falsy_no_conflict e id : id_truthy e = false -> id_conflict e id = false.
Proof.
  destruct e as [z|]; simpl; [|done]. intros H.
  apply negb_false_iff in H. by rewrite H.
Qed.

Lemma write_inserts host fs path d config fs' :
  writeMarkdownFile host fs path d config = Ok fs' ->
  exists text, buildMarkdownContent host d config = Ok text
               /\ (path ∉ denied fs)
               /\ fs' = {| files := <[ path := text ]> (files fs); denied := denied fs |}.
Proof.
  unfold writeMarkdownFile, ensureDir. cbn [bind].
  destruct (buildMarkdownContent host d config) as [text|]; simpl; [|done].
  unfold writeFile. case_bool_decide; [done|]. intros [= <-]. eauto.
Qed.

(** ** C2: the identity guard *)

(** A frontmatter records an id, or none: the two cases of the guard. *)
Lemma recorded_id_truthy fm :
  (exists e, recorded_id fm e) <-> id_truthy (extractIssueIdFromFrontmatter fm) = true.
Proof.
  unfold recorded_id. destruct (extractIssueIdFromFrontmatter fm) as [z|]; simpl.
  - destruct (Z.eqb_spec z 0) as [->|Hz]; simpl; split; try done.
    + intros (e & [= <-] & He). done.
    + intros _. by exists z.
  - split; [intros (e & He & _)|]; done.
Qed.

Lemma no_recorded_id_none fm e : no_recorded_id fm -> ~ recorded_id fm e.
Proof.
  intros Hno Hrec. pose proof (no_recorded_id_falsy _ Hno) as Hf.
  assert (id_truthy (extractIssueIdFromFrontmatter fm) = true) as Ht
    by (apply recorded_id_truthy; eauto).
  congruence.
Qed.

Lemma id_on_file_extracted fm e :
  id_on_file fm e <-> extractIssueIdFromFrontmatter fm = Some e.
Proof.
  unfold id_on_file, extractIssueIdFromFrontmatter.
  destruct (get (u "id") fm); try done. split; [by intros ->|by intros [= ->]].
Qed.

(** C2.  When the fetch and the read succeed and the file holds an issue
    id other than 0 (a number, or a string [parseInt] reads as one) that
    is not the id of the fetched issue, the result is a failure with
    action [skipped] whose message names both ids, and the store handed
    back is the store handed in: nothing is written.  An id 0 on the file
    is not guarded, see [C2_zero_id_is_overwritten]. *)
Theorem C2_identity_guard (host : Host) (remote : Remote) (id : Z)
    (config : RedmineConfig) (options : SyncIssueOptions) (fs : FS)
    (issue : RedmineIssue) (existingFile : ParsedMarkdown) (e : Z) :
  getIssue remote id (defaults_include config) = Ok issue ->
  readMarkdownFile host fs (target_path host config options issue) = Ok existingFile ->
  id_on_file (pm_frontmatter existingFile) e ->
  e <> 0 ->
  e <> i_id issue ->
  syncIssue host remote id config options fs
  = ({| success := false;
        issueId := i_id issue;
        res_filename := target_name host config issue;
        action := skipped;
        message := u "File " ++ target_name host config issue
                     ++ u " contains issue " ++ Number_toString e
                     ++ u ", not " ++ Number_toString (i_id issue);
        changes := None |}, fs).
Proof.
  intros Hfetch Hread He%id_on_file_extracted H0 Hne. run_engine Hfetch Hread.
  rewrite He, (id_conflict_true _ _ H0 Hne). reflexivity.
Qed.

Lemma C2_identity_guard_witness :
  syncIssue Node.host (Sample.remote Sample.first) 42 Sample.config Sample.write
    Sample.foreign_fs
  = ({| success := false;
        issueId := 42;
        res_filename := u "42-fix-bug.md";
        action := skipped;
        message := u "File 42-fix-bug.md contains issue 5, not 42";
        changes := None |}, Sample.foreign_fs).
Proof.
  refine (C2_identity_guard Node.host (Sample.remote Sample.first) 42 Sample.config
            Sample.write Sample.foreign_fs Sample.first
            {| pm_frontmatter := [ (u "id", VNum 5) ]; pm_content := u "Other";
               pm_comments := None;
               pm_rawContent := u "---" ++ nl ++ u "id: 5" ++ nl ++ u "---" ++ nl
                                  ++ u "Other" |}
            5 _ _ _ _ _).
  - reflexivity.
  - by vm_compute.
  - reflexivity.
  - discriminate.
  - discriminate.
Defined.

(** C2, the id 0.  The file of issue 42 holds [id: 0], which is not the id
    of the fetched issue; the run succeeds with action [created] and
    replaces the text of the file: the guard tests the id for truthiness
    before it compares it. *)
Lemma C2_zero_id_is_overwritten :
  id_on_file (pm_frontmatter (Sample.reread Sample.zero_fs)) 0
  /\ 0 <> i_id Sample.first
  /\ syncIssue Node.host (Sample.remote Sample.first) 42 Sample.config Sample.write
       Sample.zero_fs
     = ({| success := true; issueId := 42; res_filename := u "42-fix-bug.md";
           action := created; message := u "Successfully created issue 42";
           changes := Some {| ch_content := true; ch_comments := true;
                              ch_frontmatter := true |} |},
        {| files := {[ Sample.path42 := Sample.document_text ]}; denied := ∅ |})
  /\ files Sample.zero_fs !! Sample.path42 <> Some Sample.document_text
  /\ ~ guards_every_id Node.host (Sample.remote Sample.first) 42 Sample.config
        Sample.write Sample.zero_fs.
Proof.
  assert (syncIssue Node.host (Sample.remote Sample.first) 42 Sample.config
            Sample.write Sample.zero_fs
          = ({| success := true; issueId := 42; res_filename := u "42-fix-bug.md";
                action := created; message := u "Successfully created issue 42";
                changes := Some {| ch_content := true; ch_comments := true;
                                   ch_frontmatter := true |} |},
             {| files := {[ Sample.path42 := Sample.document_text ]}; denied := ∅ |}))
    as Hrun; [by vm_compute|].
  split; [by vm_compute|]. split; [discriminate|]. split; [exact Hrun|].
  split; [by vm_compute|].
  intros Hguard.
  destruct (Hguard Sample.first (Sample.reread Sample.zero_fs) 0) as (Hs & _).
  - reflexivity.
  - by vm_compute.
  - by vm_compute.
  - discriminate.
  - rewrite Hrun in Hs. discriminate.
Qed.

(** ** C3: an unchanged issue is skipped *)

Lemma up_to_date_skips host remote id config options fs issue existingFile :
  getIssue remote id (defaults_include config) = Ok issue ->
  readMarkdownFile host fs (target_path host config options issue) = Ok existingFile ->
  id_conflict (extractIssueIdFromFrontmatter (pm_frontmatter existingFile))
    (i_id issue) = false ->
  shouldUpdateIssue host issue (pm_frontmatter existingFile) = false ->
  shouldUpdateComments (default [] (i_journals issue)) (pm_frontmatter existingFile)
  = false ->
  syncIssue host remote id config options fs
  = ({| success := true; issueId := i_id issue;
        res_filename := target_name host config issue; action := skipped;
        message := up_to_date_message id; changes := None |}, fs).
Proof.
  intros Hfetch Hread Hid Hu Hc. run_engine Hfetch Hread.
  rewrite Hid, Hu, Hc. reflexivity.
Qed.

(** What a run that is not a dry run and did not throw has done. *)
Lemma syncIssue_try_outcome host remote id config options fs r fs' :
  dryRun options = false ->
  syncIssue_try host remote id config options fs = Ok (r, fs') ->
  (fs' = fs /\ action r = skipped)
  \/ (exists issue cmts text,
        getIssue remote id (defaults_include config) = Ok issue
        /\ buildMarkdownContent host
             {| md_frontmatter := mapIssueToFrontmatter issue;
                md_content := mapIssueToContent issue;
                md_comments := cmts |} (comments config) = Ok text
        /\ (target_path host config options issue ∉ denied fs)
        /\ fs' = {| files := <[ target_path host config options issue := text ]> (files fs);
                    denied := denied fs |}).
Proof.
  intros Hdry. unfold syncIssue_try. cbv zeta.
  destruct (getIssue remote id (defaults_include config)) as [issue|] eqn:Hfetch;
    cbn [bind]; [|done].
  destruct (readMarkdownFile host fs _) as [existingFile|]; cbn [bind]; [|done].
  destruct (id_conflict _ _); [intros [= <- <-]; by left|].
  destruct (negb _ && negb _); [intros [= <- <-]; by left|].
  destruct (resolveComments _ _ _ _ _ _) as [cmts|]; cbn [bind]; [|done].
  rewrite Hdry.
  destruct (writeMarkdownFile _ _ _ _ _) as [fs1|] eqn:Hw; cbn [bind]; [|done].
  intros [= <- <-]. right.
  apply write_inserts in Hw as (text & Hb & Hd & ->).
  by exists issue, cmts, text.
Qed.

Lemma written_file_read_back host fs path text rest fm body :
  path ∉ denied fs ->
  text = 45%N :: rest ->
  matter host text = Ok (fm, body) ->
  exists existingFile,
    readMarkdownFile host
      {| files := <[ path := text ]> (files fs); denied := denied fs |} path
    = Ok existingFile
    /\ pm_frontmatter existingFile = fm.
Proof.
  intros Hd -> Hm. unfold readMarkdownFile, readFile. simpl.
  rewrite bool_decide_eq_false_2 by done.
  rewrite lookup_insert_eq. cbn [bind]. unfold parseMarkdownContent.
  destruct (trim (45%N :: rest)) eqn:Htrim.
  { by apply trim_visible_head in Htrim. }
  rewrite Hm. cbn [bind]. eauto.
Qed.

(** C3.  After a successful fetch: (1) when the file's identity check
    passes, the recorded [updated_on] is there and the remote one is not
    strictly later, and no remote journal is newer than the recorded
    marker (none at all when there is no marker), the sync reports
    [skipped] with the "already up to date" message and hands the store
    back untouched; (2) a second run against the same remote, not a dry
    run, for an issue with a non-empty [updated_on] and positive journal
    ids, and with a frontmatter library that decodes the frontmatter it
    encoded in the file just written, is [skipped] and leaves the store of
    the first run as it is. *)
Theorem C3_unchanged_is_skipped (host : Host) (remote : Remote) (id : Z)
    (config : RedmineConfig) (options : SyncIssueOptions) (fs : FS)
    (issue : RedmineIssue) :
  getIssue remote id (defaults_include config) = Ok issue ->
  (forall existingFile,
     readMarkdownFile host fs (target_path host config options issue) = Ok existingFile ->
     id_conflict (extractIssueIdFromFrontmatter (pm_frontmatter existingFile))
       (i_id issue) = false ->
     truthy (get (u "updated_on") (pm_frontmatter existingFile)) = true ->
     ~ strictly_later host (i_updated_on issue)
         (get (u "updated_on") (pm_frontmatter existingFile)) ->
     no_new_comments (default [] (i_journals issue)) (pm_frontmatter existingFile) ->
     syncIssue host remote id config options fs
     = ({| success := true; issueId := i_id issue;
           res_filename := target_name host config issue; action := skipped;
           message := u "Issue " ++ Number_toString id ++ u " is already up to date";
           changes := None |}, fs))
  /\ (dryRun options = false ->
      i_updated_on issue <> [] ->
      (forall j, j ∈ default [] (i_journals issue) -> 0 < j_id j) ->
      let fs1 := snd (syncIssue host remote id config options fs) in
      (forall d text,
         md_frontmatter d = mapIssueToFrontmatter issue ->
         buildMarkdownContent host d (comments config) = Ok text ->
         files fs1 !! target_path host config options issue = Some text ->
         exists body, matter host text = Ok (mapIssueToFrontmatter issue, body)) ->
      action (fst (syncIssue host remote id config options fs1)) = skipped
      /\ snd (syncIssue host remote id config options fs1) = fs1).
Proof.
  intros Hfetch. split.
  - intros existingFile Hread Hid Ht Hn Hc.
    apply (up_to_date_skips _ _ _ _ _ _ _ existingFile);
      auto using not_later_no_update, no_new_comments_no_update.
  - intros Hdry Hupd Hpos fs1 Hlib. subst fs1. revert Hlib.
    destruct (syncIssue host remote id config options fs) as [r1 fs1] eqn:Hrun1.
    cbn [snd]. unfold syncIssue in Hrun1.
    destruct (syncIssue_try host remote id config options fs) as [[r fs']|e] eqn:Hrun.
    + injection Hrun1 as -> ->.
      destruct (syncIssue_try_outcome _ _ _ _ _ _ _ _ Hdry Hrun)
        as [[-> Hact]|(issue' & cmts & text & Hfetch' & Hbuild & Hden & ->)].
      * intros _. unfold syncIssue. by rewrite Hrun.
      * rewrite Hfetch in Hfetch'. injection Hfetch' as <-. intros Hlib.
        destruct (Hlib {| md_frontmatter := mapIssueToFrontmatter issue;
                          md_content := mapIssueToContent issue;
                          md_comments := cmts |} text eq_refl Hbuild)
          as [body Hmatter].
        { simpl. apply lookup_insert_eq. }
        assert (exists rest, text = 45%N :: rest) as [rest Hrest].
        { eapply build_starts_with_fence; [|exact Hbuild]. simpl. discriminate. }
        destruct (written_file_read_back host fs _ _ _ _ _ Hden Hrest Hmatter)
          as (existingFile & Hread & Hfm).
        destruct (fresh_frontmatter_unchanged host issue Hupd Hpos) as (Hu & Hc & Hid).
        rewrite (up_to_date_skips _ _ _ _ _ _ _ _ Hfetch Hread); by rewrite ?Hfm.
    + injection Hrun1 as <- <-. intros _. unfold syncIssue. by rewrite Hrun.
Qed.

Lemma C3_unchanged_witness :
  syncIssue Node.host (Sample.remote Sample.first) 42 Sample.config Sample.write
    Sample.synced_fs
  = ({| success := true; issueId := 42; res_filename := u "42-fix-bug.md";
        action := skipped; message := u "Issue 42 is already up to date";
        changes := None |}, Sample.synced_fs)
  /\ action (fst (syncIssue Node.host (Sample.remote Sample.first) 42 Sample.config
                    Sample.write Sample.synced_fs)) = skipped
  /\ snd (syncIssue Node.host (Sample.remote Sample.first) 42 Sample.config
            Sample.write Sample.synced_fs) = Sample.synced_fs.
Proof.
  split.
  - refine (proj1 (C3_unchanged_is_skipped Node.host (Sample.remote Sample.first) 42
                     Sample.config Sample.write Sample.synced_fs Sample.first eq_refl)
              {| pm_frontmatter := mapIssueToFrontmatter Sample.first;
                 pm_content := Sample.header_rest ++ u "Some description" ++ nl ++ nl;
                 pm_comments := md_comments Sample.document;
                 pm_rawContent := Sample.document_text |} _ _ _ _ _).
    + by vm_compute.
    + reflexivity.
    + reflexivity.
    + intros (r & l & Hr & Hl & Hlt). vm_compute in Hr, Hl.
      injection Hr as <-. injection Hl as <-. lia.
    + left. exists 10. split; [reflexivity|].
      intros j Hj. apply list_elem_of_singleton in Hj as ->. simpl. lia.
  - refine (proj2 (C3_unchanged_is_skipped Node.host (Sample.remote Sample.first) 42
                     Sample.config Sample.write Sample.empty_fs Sample.first eq_refl)
              eq_refl _ _ _).
    + discriminate.
    + intros j Hj. apply list_elem_of_singleton in Hj as ->. simpl. lia.
    + intros d text _ _ Hfile. vm_compute in Hfile. injection Hfile as <-.
      exists (Sample.header_rest ++ document_body Sample.document (comments Sample.config)).
      by vm_compute.
Defined.

(** ** C8: the dry run *)

Lemma dry_run_keeps_store host remote id config options fs :
  dryRun options = true ->
  snd (syncIssue host remote id config options fs) = fs.
Proof.
  intros Hdry. unfold syncIssue, syncIssue_try. cbv zeta.
  destruct (getIssue remote id (defaults_include config)); cbn [bind]; [|done].
  destruct (readMarkdownFile host fs _); cbn [bind]; [|done].
  destruct (id_conflict _ _); [done|].
  destruct (negb _ && negb _); [done|].
  destruct (resolveComments _ _ _ _ _ _); cbn [bind]; [|done].
  by rewrite Hdry.
Qed.

(** C8.  With [dryRun] set the store handed back is the store handed in,
    whatever happens.  And when the fetch and the read succeed, a change
    is detected and the comments resolve, the result is a success that
    names the action the run would take: [created], with the message
    "Would created issue <id> (dry run)", when the file holds no usable id
    (none, one that cannot be read, or 0); [updated], with the message
    "Would updated issue <id> (dry run)", when the file holds the id of
    the fetched issue and that id is not 0.  (A file holding another id is
    the conflict of C2: such a run does not get as far as the dry run.) *)
Theorem C8_dry_run (host : Host) (remote : Remote) (id : Z)
    (config : RedmineConfig) (options : SyncIssueOptions) (fs : FS) :
  dryRun options = true ->
  snd (syncIssue host remote id config options fs) = fs
  /\ forall issue existingFile cmts,
       getIssue remote id (defaults_include config) = Ok issue ->
       readMarkdownFile host fs (target_path host config options issue)
       = Ok existingFile ->
       let fm := pm_frontmatter existingFile in
       let needsUpdate := shouldUpdateIssue host issue fm in
       let needsCommentsUpdate :=
         shouldUpdateComments (default [] (i_journals issue)) fm in
       needsUpdate || needsCommentsUpdate = true ->
       resolveComments host issue config existingFile needsCommentsUpdate
         (extractLastJournalId fm) = Ok cmts ->
       (no_recorded_id fm \/ id_on_file fm 0 ->
        fst (syncIssue host remote id config options fs)
        = {| success := true; issueId := i_id issue;
             res_filename := target_name host config issue; action := created;
             message := u "Would created issue " ++ Number_toString id
                          ++ u " (dry run)";
             changes := Some {| ch_content := needsUpdate;
                                ch_comments := needsCommentsUpdate;
                                ch_frontmatter := needsUpdate |} |})
       /\ (id_on_file fm (i_id issue) -> i_id issue <> 0 ->
           fst (syncIssue host remote id config options fs)
           = {| success := true; issueId := i_id issue;
                res_filename := target_name host config issue; action := updated;
                message := u "Would updated issue " ++ Number_toString id
                             ++ u " (dry run)";
                changes := Some {| ch_content := needsUpdate;
                                   ch_comments := needsCommentsUpdate;
                                   ch_frontmatter := needsUpdate |} |}).
Proof.
  intros Hdry. split; [by apply dry_run_keeps_store|].
  intros issue existingFile cmts Hfetch Hread fm needsUpdate needsCommentsUpdate
    Hchange Hcmts.
  subst fm needsUpdate needsCommentsUpdate.
  assert (forall e,
            extractIssueIdFromFrontmatter (pm_frontmatter existingFile) = e ->
            id_conflict e (i_id issue) = false ->
            fst (syncIssue host remote id config options fs)
            = {| success := true; issueId := i_id issue;
                 res_filename := target_name host config issue;
                 action := if id_truthy e then updated else created;
                 message := dry_run_message
                              (if id_truthy e then updated else created) id;
                 changes :=
                   Some {| ch_content :=
                             shouldUpdateIssue host issue (pm_frontmatter existingFile);
                           ch_comments :=
                             shouldUpdateComments (default [] (i_journals issue))
                               (pm_frontmatter existingFile);
                           ch_frontmatter :=
                             shouldUpdateIssue host issue (pm_frontmatter existingFile)
                        |} |}) as Hrun.
  { intros e <- Hid. run_engine Hfetch Hread. rewrite Hid.
    change_detected Hchange.
    rewrite Hcmts. cbn [bind]. rewrite Hdry. reflexivity. }
  split.
  - intros [Hno|Hzero].
    + pose proof (no_recorded_id_falsy _ Hno) as Hfalsy.
      rewrite (Hrun _ eq_refl (id_falsy_no_conflict _ _ Hfalsy)), Hfalsy.
      reflexivity.
    + apply id_on_file_extracted in Hzero.
      rewrite (Hrun (Some 0) Hzero eq_refl). reflexivity.
  - intros Hsame%id_on_file_extracted H0.
    rewrite (Hrun (Some (i_id issue)) Hsame).
    + cbn [id_truthy]. apply Z.eqb_neq in H0. rewrite H0. reflexivity.
    + cbn [id_conflict]. by rewrite Z.eqb_refl, andb_false_r.
Qed.

Lemma C8_dry_run_witness :
  snd (syncIssue Node.host (Sample.remote Sample.first) 42 Sample.config Sample.dry
         Sample.empty_fs) = Sample.empty_fs
  /\ fst (syncIssue Node.host (Sample.remote Sample.first) 42 Sample.config Sample.dry
            Sample.empty_fs)
     = {| success := true; issueId := 42; res_filename := u "42-fix-bug.md";
          action := created; message := u "Would created issue 42 (dry run)";
          changes := Some {| ch_content := true; ch_comments := true;
                             ch_frontmatter := true |} |}
  /\ snd (syncIssue Node.host (Sample.remote Sample.second) 42 Sample.config Sample.dry
            Sample.synced_fs) = Sample.synced_fs
  /\ fst (syncIssue Node.host (Sample.remote Sample.second) 42 Sample.config Sample.dry
            Sample.synced_fs)
     = {| success := true; issueId := 42; res_filename := u "42-fix-bug.md";
          action := updated; message := u "Would updated issue 42 (dry run)";
          changes := Some {| ch_content := true; ch_comments := true;
                             ch_frontmatter := true |} |}.
Proof.
  destruct (C8_dry_run Node.host (Sample.remote Sample.first) 42 Sample.config
              Sample.dry Sample.empty_fs eq_refl) as [Hstore Hresult].
  destruct (C8_dry_run Node.host (Sample.remote Sample.second) 42 Sample.config
              Sample.dry Sample.synced_fs eq_refl) as [Hstore' Hresult'].
  split; [exact Hstore|]. split; [|split; [exact Hstore'|]].
  - refine (proj1 (Hresult Sample.first (empty_parsed []) (md_comments Sample.document)
                     eq_refl _ eq_refl _) _).
    + by vm_compute.
    + by vm_compute.
    + by left.
  - refine (proj2 (Hresult' Sample.second (Sample.reread Sample.synced_fs)
                     (Some (default [] (md_comments Sample.document) ++ separator))
                     eq_refl _ _ _) _ _).
    + by vm_compute.
    + by vm_compute.
    + by vm_compute.
    + by vm_compute.
    + discriminate.
Defined.

(** C8, the id 0.  The file of issue 42 holds [id: 0]: an id is there, a
    change is detected, and the dry run names the action [created], not
    [updated]; the action follows the truthiness of the id, not its
    presence. *)
Lemma C8_zero_id_reports_created :
  id_on_file (pm_frontmatter (Sample.reread Sample.zero_fs)) 0
  /\ syncIssue Node.host (Sample.remote Sample.first) 42 Sample.config Sample.dry
       Sample.zero_fs
     = ({| success := true; issueId := 42; res_filename := u "42-fix-bug.md";
           action := created; message := u "Would created issue 42 (dry run)";
           changes := Some {| ch_content := true; ch_comments := true;
                              ch_frontmatter := true |} |}, Sample.zero_fs)
  /\ ~ names_action_by_presence Node.host (Sample.remote Sample.first) 42
        Sample.config Sample.dry Sample.zero_fs.
Proof.
  assert (syncIssue Node.host (Sample.remote Sample.first) 42 Sample.config
            Sample.dry Sample.zero_fs
          = ({| success := true; issueId := 42; res_filename := u "42-fix-bug.md";
                action := created; message := u "Would created issue 42 (dry run)";
                changes := Some {| ch_content := true; ch_comments := true;
                                   ch_frontmatter := true |} |}, Sample.zero_fs))
    as Hrun; [by vm_compute|].
  split; [by vm_compute|]. split; [exact Hrun|].
  intros Hclaimed.
  destruct (Hclaimed Sample.first (Sample.reread Sample.zero_fs)) as [_ Hupdated].
  - reflexivity.
  - by vm_compute.
  - by vm_compute.
  - rewrite Hrun in Hupdated. cbn [fst action] in Hupdated.
    assert (created = updated) as Habs; [|discriminate].
    apply Hupdated. exists 0. by vm_compute.
Qed.

(** ** C9: a file without a recorded id *)

(** C9.  When the fetch and the read succeed and the frontmatter has no
    [id], an [id] that is neither a number nor a string [parseInt] reads,
    or the number 0, the identity check reports no conflict; and a sync
    that then detects a change, is not a dry run, resolves the comments
    and writes, replaces the text of the file by the new serialization and
    reports a success with action [created]. *)
Theorem C9_unrecorded_id_creates (host : Host) (remote : Remote) (id : Z)
    (config : RedmineConfig) (options : SyncIssueOptions) (fs : FS)
    (issue : RedmineIssue) (existingFile : ParsedMarkdown) :
  getIssue remote id (defaults_include config) = Ok issue ->
  readMarkdownFile host fs (target_path host config options issue) = Ok existingFile ->
  no_recorded_id (pm_frontmatter existingFile) ->
  let fm := pm_frontmatter existingFile in
  let needsUpdate := shouldUpdateIssue host issue fm in
  let needsCommentsUpdate := shouldUpdateComments (default [] (i_journals issue)) fm in
  id_conflict (extractIssueIdFromFrontmatter fm) (i_id issue) = false
  /\ forall cmts fs',
       dryRun options = false ->
       needsUpdate || needsCommentsUpdate = true ->
       resolveComments host issue config existingFile needsCommentsUpdate
         (extractLastJournalId fm) = Ok cmts ->
       writeMarkdownFile host fs (target_path host config options issue)
         {| md_frontmatter := mapIssueToFrontmatter issue;
            md_content := mapIssueToContent issue;
            md_comments := cmts |} (comments config) = Ok fs' ->
       syncIssue host remote id config options fs
       = ({| success := true; issueId := i_id issue;
             res_filename := target_name host config issue; action := created;
             message := u "Successfully created issue " ++ Number_toString id;
             changes := Some {| ch_content := needsUpdate;
                                ch_comments := needsCommentsUpdate;
                                ch_frontmatter := needsUpdate |} |}, fs')
       /\ exists text,
            buildMarkdownContent host
              {| md_frontmatter := mapIssueToFrontmatter issue;
                 md_content := mapIssueToContent issue;
                 md_comments := cmts |} (comments config) = Ok text
            /\ files fs' = <[ target_path host config options issue := text ]> (files fs).
Proof.
  intros Hfetch Hread Hno fm needsUpdate needsCommentsUpdate.
  subst fm needsUpdate needsCommentsUpdate.
  pose proof (no_recorded_id_falsy _ Hno) as Hfalsy.
  pose proof (id_falsy_no_conflict _ (i_id issue) Hfalsy) as Hid.
  split; [exact Hid|].
  intros cmts fs' Hdry Hchange Hcmts Hwrite. split.
  - run_engine Hfetch Hread. rewrite Hid.
    change_detected Hchange.
    rewrite Hcmts. cbn [bind]. rewrite Hdry.
    unfold target_path, target_name in Hwrite. rewrite Hwrite. cbn [bind].
    rewrite Hfalsy. reflexivity.
  - apply write_inserts in Hwrite as (text & Hbuild & _ & ->). eauto.
Qed.

Lemma C9_unrecorded_id_witness :
  syncIssue Node.host (Sample.remote Sample.first) 42 Sample.config Sample.write
    Sample.zero_fs
  = ({| success := true; issueId := 42; res_filename := u "42-fix-bug.md";
        action := created; message := u "Successfully created issue 42";
        changes := Some {| ch_content := true; ch_comments := true;
                           ch_frontmatter := true |} |},
     {| files := {[ Sample.path42 := Sample.document_text ]}; denied := ∅ |}).
Proof.
  refine (proj1 (proj2 (C9_unrecorded_id_creates Node.host (Sample.remote Sample.first)
                          42 Sample.config Sample.write Sample.zero_fs Sample.first
                          {| pm_frontmatter := [ (u "id", VNum 0) ];
                             pm_content := u "Draft"; pm_comments := None;
                             pm_rawContent := u "---" ++ nl ++ u "id: 0" ++ nl
                                                ++ u "---" ++ nl ++ u "Draft" |}
                          eq_refl _ eq_refl)
                   (md_comments Sample.document) _ eq_refl eq_refl _ _)).
  - by vm_compute.
  - by vm_compute.
  - by vm_compute.
Defined.

(* ===================================================================== *)
(** * The comment reconciler *)
(* ===================================================================== *)

(** The rendering loop emits text for the journals of [rendered] only. *)
Lemma render_loop_rendered host comments js :
  render_loop host comments js = render_loop host comments (rendered js).
Proof.
  revert comments. induction js as [|j js IH]; intros comments; simpl; [done|].
  destruct (silent j) eqn:Hs; simpl; [apply IH|].
  rewrite Hs. destruct (render_journal host j); simpl; [apply IH|done].
Qed.

Lemma insert_by_Forall {A} (P : A -> Prop) cmp x (l : list A) :
  P x -> Forall P l -> Forall P (insert_by cmp x l).
Proof.
  intros Hx. induction 1 as [|y l Hy Hl IH]; simpl; [by repeat constructor|].
  destruct (cmp x y <? 0); by repeat constructor.
Qed.

Lemma sort_by_Forall {A} (P : A -> Prop) cmp (l : list A) :
  Forall P l -> Forall P (sort_by cmp l).
Proof.
  unfold sort_by. assert (Forall P (@nil A)) as Hacc by constructor.
  revert Hacc. generalize (@nil A) as acc.
  induction l as [|x l IH]; intros acc Hacc Hl; simpl; [done|].
  inversion Hl; subst. apply IH; [by apply insert_by_Forall|done].
Qed.

Lemma silent_render_nothing host js :
  Forall (fun j => silent j = true) js -> render_loop host [] js = Ok [].
Proof. induction 1 as [|j js Hj _ IH]; simpl; [done|]. by rewrite Hj. Qed.

(** Journals without a note render to the empty text. *)
Lemma silent_journals_render_empty host journals config :
  Forall (fun j => silent j = true) journals ->
  mapJournalsToComments host journals config = Ok [].
Proof.
  intros Hs. unfold mapJournalsToComments. destruct journals as [|j js]; [done|].
  rewrite silent_render_nothing; [done|]. by apply sort_by_Forall.
Qed.

(** What the engine does with new journals that are all silent when the
    file already has comments: the separator is appended to them. *)
Lemma silent_journals_append_separator host issue config existingFile last
    journals c cs :
  i_journals issue = Some journals ->
  extractNewJournals journals last <> [] ->
  Forall (fun j => silent j = true) (extractNewJournals journals last) ->
  pm_comments existingFile = Some (c :: cs) ->
  resolveComments host issue config existingFile true last
  = Ok (Some ((c :: cs) ++ separator)).
Proof.
  intros Hj Hne Hs Hc. unfold resolveComments. rewrite Hj.
  destruct (extractNewJournals journals last) as [|j js] eqn:Hnew; [done|].
  cbn [length Nat.ltb Nat.leb]. rewrite silent_journals_render_empty by done.
  cbn [bind]. rewrite Hc. by rewrite app_nil_r.
Qed.

(** ** C4: the marker *)

Lemma fold_max_attained (l : list Z) (a : Z) :
  fold_left Z.max l a = a \/ fold_left Z.max l a ∈ l.
Proof.
  revert a. induction l as [|b l IH]; intros a; simpl; [by left|].
  destruct (IH (Z.max a b)) as [H|H].
  - rewrite H. destruct (Z.max_spec a b) as [[_ ->]|[_ ->]]; [right|left]; set_solver.
  - right. set_solver.
Qed.

Lemma max_id_attained js m :
  max_id js = Some m -> exists j, j ∈ js /\ j_id j = m.
Proof.
  destruct js as [|a js]; simpl; [done|]. intros [= <-].
  destruct (fold_max_attained (List.map j_id js) (j_id a)) as [H|H].
  - exists a. split; [set_solver|done].
  - apply list_elem_of_In, in_map_iff in H as (j & Hj & Hin).
    exists j. split; [|done]. apply list_elem_of_In in Hin. set_solver.
Qed.

Lemma extractNewJournals_subset journals last j :
  j ∈ extractNewJournals journals last -> j ∈ journals.
Proof.
  unfold extractNewJournals. destruct last as [[| |]|]; try done.
  all: intros H%list_elem_of_In%filter_In; apply list_elem_of_In, H.
Qed.

Lemma rendered_subset journals j : j ∈ rendered journals -> j ∈ journals.
Proof. intros H%list_elem_of_In%filter_In. apply list_elem_of_In, H. Qed.

(** C4 (the claim as stated fails).  On the first sync of issue 42 with the
    written journal 10 and the silent journal 11 the marker written is 11,
    while journal 10 is the only entry rendered: the comments text is the
    one rendered from journal 10 alone. *)
Lemma C4_marker_counts_silent_entries :
  extractLastJournalId (mapIssueToFrontmatter Sample.second) = Some 11
  /\ List.map j_id (rendered (extractNewJournals [Sample.note10; Sample.silent11] None))
     = [10]
  /\ mapJournalsToComments Node.host [Sample.note10; Sample.silent11]
       (comments Sample.config)
     = mapJournalsToComments Node.host [Sample.note10] (comments Sample.config)
  /\ ~ marker_is_max_rendered Sample.second None.
Proof.
  split; [reflexivity|]. split; [reflexivity|]. split; [by vm_compute|].
  unfold marker_is_max_rendered. intros H. vm_compute in H. discriminate H.
Qed.

(** C4, amended.  The marker written for an issue is the greatest id among
    all the journals fetched, rendered or not; it is at least the id of
    every journal rendered in this sync, and, when every journal seen
    before is still among those fetched, at least the id of every journal
    seen before, so at least the greatest of them (the marker of the
    previous sync). *)
Theorem C4_marker_is_max_fetched (issue : RedmineIssue) (last : option Z)
    (previous : list RedmineJournal) :
  let journals := default [] (i_journals issue) in
  let marker := extractLastJournalId (mapIssueToFrontmatter issue) in
  marker = max_id journals
  /\ (forall j, j ∈ rendered (extractNewJournals journals last) ->
        exists m, marker = Some m /\ j_id j <= m)
  /\ ((forall j, j ∈ previous -> exists j', j' ∈ journals /\ j_id j' = j_id j) ->
      (forall j, j ∈ previous -> exists m, marker = Some m /\ j_id j <= m)
      /\ (forall m0, max_id previous = Some m0 ->
            exists m, marker = Some m /\ m0 <= m)).
Proof.
  intros journals marker.
  assert (marker = max_id journals) as Hm by apply marker_is_max_fetched.
  assert (forall j, j ∈ journals -> exists m, marker = Some m /\ j_id j <= m) as Hge.
  { intros j Hj. destruct (max_id_some _ _ Hj) as [m Hmax].
    exists m. split; [congruence|]. by apply (max_id_ge journals). }
  split; [done|]. split.
  - intros j Hj. apply Hge. eapply extractNewJournals_subset, rendered_subset, Hj.
  - intros Hseen.
    assert (forall j, j ∈ previous -> exists m, marker = Some m /\ j_id j <= m) as Hprev.
    { intros j Hj. destruct (Hseen j Hj) as (j' & Hj' & <-). by apply Hge. }
    split; [done|]. intros m0 Hmax.
    destruct (max_id_attained _ _ Hmax) as (j0 & Hj0 & <-). by apply Hprev.
Qed.

(** ** C5: a silent update *)

(** C5 (the code departs from the claim).  The file of issue 42 records
    the marker 10 and has comments; the remote then has one more journal,
    11, with an empty note and one field change, and a later [updated_on].
    The text rendered for journal 11 is empty, the action is [updated] and
    the marker becomes 11, as the claim says; but the comments are not
    left as they were: the separator is appended to them, and the file
    read again shows a rule that no comment follows. *)
Theorem C5_silent_update_appends_separator :
  let old := Sample.reread Sample.synced_fs in
  let run := syncIssue Node.host (Sample.remote Sample.second) 42 Sample.config
               Sample.write Sample.synced_fs in
  let new := Sample.reread (snd run) in
  extractLastJournalId (pm_frontmatter old) = Some 10
  /\ pm_comments old = md_comments Sample.document
  /\ mapJournalsToComments Node.host [Sample.silent11] (comments Sample.config) = Ok []
  /\ success (fst run) = true
  /\ action (fst run) = updated
  /\ extractLastJournalId (pm_frontmatter new) = Some 11
  /\ resolveComments Node.host Sample.second Sample.config old true (Some 10)
     = Ok ((fun t => t ++ separator) <$> pm_comments old)
  /\ pm_comments new = (fun t => t ++ nl ++ nl ++ u "---") <$> pm_comments old
  /\ pm_comments new <> pm_comments old.
Proof.
  cbv zeta. repeat split; by vm_compute.
Qed.

(** ** C7: nothing is thrown past the engine or the orchestrator *)

Lemma raises_caught host remote id config options fs e :
  raises host remote id config options fs e ->
  syncIssue_try host remote id config options fs = Err e.
Proof.
  unfold raises, syncIssue_try, target_path, target_name. cbv zeta.
  intros [Hfetch|(issue & Hfetch & Hrest)]; rewrite Hfetch; cbn [bind]; [done|].
  destruct Hrest as [Hread|(existingFile & Hread & Hid & Hchange & Hrest)];
    rewrite Hread; cbn [bind]; [done|].
  rewrite Hid.
  change_detected Hchange.
  destruct Hrest as [Hcmts|(cmts & Hcmts & Hdry & Hwrite)]; rewrite Hcmts;
    cbn [bind]; [done|].
  rewrite Hdry, Hwrite. done.
Qed.

Lemma thrown_raises host remote id config options fs e :
  syncIssue_try host remote id config options fs = Err e ->
  raises host remote id config options fs e.
Proof.
  unfold raises, syncIssue_try, target_path, target_name. cbv zeta.
  destruct (getIssue remote id (defaults_include config)) as [issue|e0];
    cbn [bind]; [|intros [= ->]; by left].
  intros Hrun. right. exists issue. split; [done|]. revert Hrun.
  destruct (readMarkdownFile host fs _) as [existingFile|e0];
    cbn [bind]; [|intros [= ->]; by left].
  intros Hrun. right. exists existingFile. revert Hrun.
  destruct (id_conflict _ _); [done|].
  destruct (shouldUpdateIssue host issue (pm_frontmatter existingFile)),
    (shouldUpdateComments (default [] (i_journals issue))
       (pm_frontmatter existingFile)) eqn:Hc; cbn [negb andb orb]; try done.
  all: destruct (resolveComments _ _ _ _ _ _) as [cmts|e0]; cbn [bind];
    [|intros [= ->]; repeat split; by left].
  all: destruct (dryRun options) eqn:Hdry; [done|].
  all: destruct (writeMarkdownFile _ _ _ _ _) as [fs1|e0] eqn:Hw; cbn [bind];
    [done|intros [= ->]].
  all: repeat split; right; exists cmts; by rewrite Hw.
Qed.

Lemma sync_each_tallies host remote config options issues r fs :
  fst (sync_each host remote config options issues r fs)
  = fold_left tally (outcomes host remote config options issues fs) r.
Proof.
  revert r fs. induction issues as [|issue rest IH]; intros r fs; simpl; [done|].
  destruct (syncIssue host remote (i_id issue) config options fs) as [res fs1].
  simpl. apply IH.
Qed.

Lemma tally_counts rs r :
  let r' := fold_left tally rs r in
  n_failed r' = n_failed r + Z.of_nat (length (failures rs))
  /\ processed r' = processed r + Z.of_nat (length rs)
  /\ errors r' = errors r ++ List.map report (failures rs)
  /\ totalIssues r' = totalIssues r.
Proof.
  revert r. induction rs as [|res rs IH]; intros r; simpl.
  - rewrite app_nil_r. repeat split; lia.
  - destruct (IH (tally r res)) as (Hf & Hp & He & Ht).
    rewrite Hf, Hp, He, Ht. unfold tally, failures. simpl.
    destruct (success res) eqn:Hs; simpl.
    + destruct (action res); simpl; repeat split; try lia; done.
    + rewrite <- app_assoc. simpl. repeat split; try lia; done.
Qed.

(** C7.  [syncIssue] always returns a result: an exception thrown by the
    fetch, the read, the merge of the comments or the write (and a thrown
    exception can only come from one of them) comes back as a result with
    [success = false] that carries the requested id and the error's
    message, and the store is handed back as it was.  [syncProject]: when
    fetching the list fails the result has [success = false], exactly one
    error entry, with issue id 0, and no processed issue; when it succeeds,
    [success] is true exactly when no issue failed, [failed] counts the
    failed issues and [errors] lists them; and this holds of the tally in
    whatever order the outcomes of the issues come in. *)
Theorem C7_failures_are_results (host : Host) (remote : Remote)
    (config : RedmineConfig) :
  (forall id options fs e,
     (syncIssue_try host remote id config options fs = Err e
      <-> raises host remote id config options fs e)
     /\ (raises host remote id config options fs e ->
         syncIssue host remote id config options fs
         = ({| success := false; issueId := id; res_filename := [];
               action := skipped;
               message := u "Failed to sync issue " ++ Number_toString id
                            ++ u ": " ++ exn_message e;
               changes := None |}, fs)))
  /\ (forall options fs e,
        getIssuesConcurrently remote (project_id config) (project_query config options)
        = Err e ->
        syncProject host remote config options fs
        = ({| p_success := false; totalIssues := 0; processed := 0;
              n_created := 0; n_updated := 0; n_skipped := 0; n_failed := 0;
              errors := [ (0, u "Failed to fetch issues: " ++ exn_message e) ] |},
           fs))
  /\ (forall options fs issues,
        getIssuesConcurrently remote (project_id config) (project_query config options)
        = Ok issues ->
        let r := fst (syncProject host remote config options fs) in
        let rs := outcomes host remote config (project_options options) issues fs in
        (p_success r = true <-> failures rs = [])
        /\ n_failed r = Z.of_nat (length (failures rs))
        /\ processed r = Z.of_nat (length rs)
        /\ errors r = List.map report (failures rs)
        /\ totalIssues r = Z.of_nat (length issues))
  /\ (forall (rs : list SyncIssueResult) (total : Z),
        let r := finish (fold_left tally rs
                           {| p_success := true; totalIssues := total;
                              processed := 0; n_created := 0; n_updated := 0;
                              n_skipped := 0; n_failed := 0; errors := [] |}) in
        (p_success r = true <-> failures rs = [])
        /\ n_failed r = Z.of_nat (length (failures rs))).
Proof.
  split; [|split; [|split]]; cycle 3.
  { intros rs total r. subst r.
    match goal with
    | |- context [fold_left tally rs ?r0] =>
        destruct (tally_counts rs r0) as (Hf & _)
    end.
    cbn [finish p_success n_failed]. rewrite Hf. cbn [n_failed].
    split; [|lia]. split.
    - intros H%Z.eqb_eq. destruct (failures rs); [done|]. simpl in H. lia.
    - intros ->. done. }
  - intros id options fs e. split.
    + split; [apply thrown_raises|apply raises_caught].
    + intros Hr. unfold syncIssue. by rewrite (raises_caught _ _ _ _ _ _ _ Hr).
  - intros options fs e Hfetch. unfold syncProject, project_query in *. cbv zeta.
    by rewrite Hfetch.
  - intros options fs issues Hfetch r rs. subst r rs.
    unfold syncProject, project_query in *. cbv zeta. rewrite Hfetch.
    destruct issues as [|issue rest]; [simpl; repeat split; done|].
    fold (project_options options).
    pose proof (sync_each_tallies host remote config (project_options options)
                  (issue :: rest)
                  {| p_success := true;
                     totalIssues := Z.of_nat (length (issue :: rest));
                     processed := 0; n_created := 0; n_updated := 0;
                     n_skipped := 0; n_failed := 0; errors := [] |} fs) as Hfold.
    destruct (sync_each _ _ _ _ _ _ _) as [r fs1]. cbn [fst] in Hfold. subst r.
    match goal with
    | |- context [fold_left tally ?rs ?r0] =>
        destruct (tally_counts rs r0) as (Hf & Hp & He & Ht)
    end.
    cbn [fst finish p_success n_failed processed errors totalIssues].
    rewrite Hf, Hp, He, Ht. cbn [n_failed processed errors totalIssues].
    repeat split; try (simpl; lia); try done.
    + intros H%Z.eqb_eq. destruct (failures _); [done|]. simpl in H. lia.
    + intros ->. done.
Qed.

Lemma C7_offline_witness :
  syncIssue Node.host Sample.offline 42 Sample.config Sample.write Sample.empty_fs
  = ({| success := false; issueId := 42; res_filename := []; action := skipped;
        message := u "Failed to sync issue 42: Not Found"; changes := None |},
     Sample.empty_fs)
  /\ syncProject Node.host Sample.offline Sample.config Sample.all_issues
       Sample.empty_fs
     = ({| p_success := false; totalIssues := 0; processed := 0;
           n_created := 0; n_updated := 0; n_skipped := 0; n_failed := 0;
           errors := [ (0, u "Failed to fetch issues: Not Found") ] |},
        Sample.empty_fs)
  /\ (let r := fst (syncProject Node.host Sample.partial Sample.config
                      Sample.all_issues Sample.empty_fs) in
      let rs := outcomes Node.host Sample.partial Sample.config
                  (project_options Sample.all_issues)
                  [ Sample.first; Sample.issue 7 "2024-01-05T00:00:00Z" None ]
                  Sample.empty_fs in
      (p_success r = true <-> failures rs = [])
      /\ n_failed r = Z.of_nat (length (failures rs))
      /\ processed r = Z.of_nat (length rs)
      /\ errors r = List.map report (failures rs)
      /\ totalIssues r = 2).
Proof.
  destruct (C7_failures_are_results Node.host Sample.offline Sample.config)
    as (Hissue & Hlist & _ & _).
  split; [|split].
  - apply (proj2 (Hissue 42 Sample.write Sample.empty_fs Sample.not_found)).
    by left.
  - apply (Hlist Sample.all_issues Sample.empty_fs Sample.not_found). reflexivity.
  - apply (proj1 (proj2 (proj2 (C7_failures_are_results Node.host Sample.partial
                                  Sample.config)))
             Sample.all_issues Sample.empty_fs
             [ Sample.first; Sample.issue 7 "2024-01-05T00:00:00Z" None ]).
    reflexivity.
Defined.

(* ===================================================================== *)
(** * The scenarios of the specification, run on the reference host *)
(* ===================================================================== *)

(** First sync: no local file, issue 42 "Fix bug" without comments.  The
    file [/out/42-fix-bug.md] is created, its frontmatter has [id: 42] and
    it has no comments block. *)
Example scenario_first_sync :
  let run := syncIssue Node.host (Sample.remote Sample.plain) 42 Sample.config
               Sample.write Sample.empty_fs in
  action (fst run) = created
  /\ message (fst run) = u "Successfully created issue 42"
  /\ dom (files (snd run)) = {[ Sample.path42 ]}
  /\ get (u "id") (pm_frontmatter (Sample.reread (snd run))) = VNum 42
  /\ pm_comments (Sample.reread (snd run)) = None
  /\ includes START_ANCHOR (default [] (files (snd run) !! Sample.path42)) = false.
Proof. cbv zeta. repeat split; by vm_compute. Qed.

(** One failing issue does not stop the others: of the two issues of the
    project, issue 42 is created and issue 7 is reported. *)
Example scenario_partial_failure :
  fst (syncProject Node.host Sample.partial Sample.config Sample.all_issues
         Sample.empty_fs)
  = {| p_success := false; totalIssues := 2; processed := 2; n_created := 1;
       n_updated := 0; n_skipped := 0; n_failed := 1;
       errors := [ (7, u "Failed to sync issue 7: Not Found") ] |}.
Proof. by vm_compute. Qed.

(** A comment whose timestamp cannot be read makes the merge throw; the
    engine reports it, in a dry run as well, and writes nothing. *)
Example scenario_merge_failure :
  let remote := Sample.remote (Sample.issue 42 "2024-01-07T00:00:00Z"
                                 (Some [ Sample.note10; Sample.undated12 ])) in
  let failed := {| success := false; issueId := 42; res_filename := [];
                   action := skipped;
                   message := u "Failed to sync issue 42: Invalid time value";
                   changes := None |} in
  syncIssue Node.host remote 42 Sample.config Sample.write Sample.synced_fs
  = (failed, Sample.synced_fs)
  /\ syncIssue Node.host remote 42 Sample.config Sample.dry Sample.synced_fs
     = (failed, Sample.synced_fs).
Proof. cbv zeta. split; by vm_compute. Qed.
(* ===================================================================== *)
(** * Decimal numerals *)
(* ===================================================================== *)

Lemma u_cons a s : u (String a s) = N_of_ascii a :: u s.
Proof. reflexivity. Qed.

Lemma u_app (a b : string) : u (String.append a b) = u a ++ u b.
Proof.
  induction a as [|c a IH]; [done|].
  change (u (String c (String.append a b)) = u (String c a) ++ u b).
  by rewrite !u_cons, IH.
Qed.

Lemma digits_value_digit c acc s :
  is_digit c = true ->
  digits_value acc (c :: s) = digits_value (10 * acc + (Z.of_N c - 48)) s.
Proof. intros Hc. simpl. by rewrite Hc. Qed.

(** The decimal numeral of [d], as [Number_toString] writes it. *)
Lemma uint_digits d : forallb is_digit (u (NilEmpty.string_of_uint d)) = true.
Proof.
  induction d; cbn [NilEmpty.string_of_uint]; rewrite ?u_cons; [done|..];
    by cbn [forallb]; rewrite IHd.
Qed.

Lemma digits_value_uint_acc d p :
  digits_value (Z.pos p) (u (NilEmpty.string_of_uint d)) = Z.pos (Pos.of_uint_acc d p).
Proof.
  revert p. induction d; intros p; cbn [NilEmpty.string_of_uint Pos.of_uint_acc];
    rewrite ?u_cons; [done|..];
    (rewrite digits_value_digit by done);
    match goal with |- digits_value ?a _ = Z.pos (Pos.of_uint_acc _ ?q) =>
       replace a with (Z.pos q) by (vm_compute (N_of_ascii _); lia) end; apply IHd.
Qed.

Lemma digits_value_uint d :
  digits_value 0 (u (NilEmpty.string_of_uint d)) = Z.of_N (Pos.of_uint d).
Proof.
  induction d; cbn [NilEmpty.string_of_uint Pos.of_uint];
    rewrite ?u_cons; [done|..]; (rewrite digits_value_digit by done);
    [exact IHd|..];
    match goal with |- digits_value ?a _ = Z.of_N (N.pos (Pos.of_uint_acc _ ?q)) =>
       replace a with (Z.pos q) by (vm_compute (N_of_ascii _); lia) end;
    apply digits_value_uint_acc.
Qed.

Lemma Number_toString_pos p :
  Number_toString (Z.pos p) = u (NilEmpty.string_of_uint (Pos.to_uint p)).
Proof.
  unfold Number_toString. cbn [Z.to_int NilZero.string_of_int NilZero.string_of_uint].
  pose proof (Unsigned.to_uint_nonnil p) as Hn.
  by destruct (Pos.to_uint p).
Qed.

Lemma Number_toString_neg p :
  Number_toString (Z.neg p) = 45%N :: Number_toString (Z.pos p).
Proof.
  unfold Number_toString. cbn [Z.to_int NilZero.string_of_int]. by rewrite u_cons.
Qed.

Lemma Number_toString_digits z : 0 <= z -> forallb is_digit (Number_toString z) = true.
Proof.
  destruct z as [|p|p]; [done| |lia]. intros _.
  rewrite Number_toString_pos. apply uint_digits.
Qed.

Lemma Number_toString_nonempty z : Number_toString z <> [].
Proof.
  destruct z as [|p|p]; [done| |by rewrite Number_toString_neg].
  rewrite Number_toString_pos. pose proof (Unsigned.to_uint_nonnil p) as Hn.
  by destruct (Pos.to_uint p).
Qed.

Lemma digits_value_Number_toString z :
  0 <= z -> digits_value 0 (Number_toString z) = z.
Proof.
  destruct z as [|p|p]; [done| |lia]. intros _.
  rewrite Number_toString_pos, digits_value_uint, Unsigned.of_to. done.
Qed.

Lemma digit_cases c :
  is_digit c = true ->
  (c = 48 \/ c = 49 \/ c = 50 \/ c = 51 \/ c = 52 \/ c = 53 \/ c = 54 \/ c = 55
   \/ c = 56 \/ c = 57)%N.
Proof.
  unfold is_digit. intros [H1 H2]%andb_true_iff. apply N.leb_le in H1, H2. lia.
Qed.

Lemma parseInt_digits c s :
  is_digit c = true -> parseInt (c :: s) = Some (digits_value 0 (c :: s)).
Proof.
  intros Hc. unfold parseInt.
  destruct (digit_cases c Hc) as [->|[->|[->|[->|[->|[->|[->|[->|[->| ->]]]]]]]]];
    reflexivity.
Qed.

(** [parseInt] reads back what [toString] writes. *)
Lemma parseInt_Number_toString z : parseInt (Number_toString z) = Some z.
Proof.
  destruct z as [|p|p]; [done| |].
  - pose proof (Number_toString_digits (Z.pos p) ltac:(lia)) as Hd.
    pose proof (digits_value_Number_toString (Z.pos p) ltac:(lia)) as Hv.
    pose proof (Number_toString_nonempty (Z.pos p)) as Hn.
    destruct (Number_toString (Z.pos p)) as [|c s]; [done|].
    apply andb_true_iff in Hd as [Hc _].
    by rewrite parseInt_digits, Hv.
  - rewrite Number_toString_neg.
    pose proof (Number_toString_digits (Z.pos p) ltac:(lia)) as Hd.
    pose proof (digits_value_Number_toString (Z.pos p) ltac:(lia)) as Hv.
    pose proof (Number_toString_nonempty (Z.pos p)) as Hn.
    destruct (Number_toString (Z.pos p)) as [|c s]; [done|].
    apply andb_true_iff in Hd as [Hc _].
    unfold parseInt. change (trimStart (45%N :: c :: s)) with (45%N :: c :: s).
    cbv iota beta. by rewrite Hc, Hv.
Qed.

(** X1.  An issue id or a journal marker that the frontmatter holds as the
    decimal text of an integer is read as that integer:
    [extractIssueIdFromFrontmatter] and [extractLastJournalId] undo
    [toString].  This is for the integers a JavaScript number holds
    exactly, those between -2^53 and 2^53, negative ones included; beyond
    them [parseInt] rounds and [toString] drops digits. *)
Theorem decimal_ids_read_back (fm : frontmatter) (n : Z) :
  - 2 ^ 53 < n < 2 ^ 53 ->
  (get (u "id") fm = VStr (Number_toString n) ->
   extractIssueIdFromFrontmatter fm = Some n)
  /\ (get (u "lastJournalId") fm = VStr (Number_toString n) ->
      extractLastJournalId fm = Some n).
Proof.
  intros _. unfold extractIssueIdFromFrontmatter, extractLastJournalId.
  split; intros ->; apply parseInt_Number_toString.
Qed.

Lemma decimal_ids_read_back_witness :
  extractIssueIdFromFrontmatter [ (u "id", VStr (u "456")) ] = Some 456
  /\ extractLastJournalId [ (u "lastJournalId", VStr (u "101")) ] = Some 101.
Proof.
  split.
  - apply (proj1 (decimal_ids_read_back [ (u "id", VStr (u "456")) ] 456
                    ltac:(split; reflexivity))).
    reflexivity.
  - apply (proj2 (decimal_ids_read_back [ (u "lastJournalId", VStr (u "101")) ] 101
                    ltac:(split; reflexivity))).
    reflexivity.
Defined.

(* ===================================================================== *)
(** * More about the codec *)
(* ===================================================================== *)

Section Occurrences.

Lemma indexOf_cons p b s :
  indexOf p (b :: s) = if startsWith p (b :: s) then Some 0%nat else S <$> indexOf p s.
Proof. reflexivity. Qed.

(** A pattern whose first code unit occurs nowhere else in it cannot
    start in [x] and run over a later occurrence of that code unit. *)
Lemma startsWith_head_unique c p b x y :
  c ∉ p -> startsWith (c :: p) ((b :: x) ++ c :: y) = startsWith (c :: p) (b :: x).
Proof. intros Hc. simpl. by rewrite startsWith_across. Qed.

Lemma indexOf_head_unique c p x y :
  c ∉ p ->
  indexOf (c :: p) (x ++ c :: y)
  = match indexOf (c :: p) x with
    | Some i => Some i
    | None => (fun j => (length x + j)%nat) <$> indexOf (c :: p) (c :: y)
    end.
Proof.
  intros Hc. induction x as [|b x IH].
  - change ([] ++ c :: y) with (c :: y).
    rewrite indexOf_nil_pattern_free by done.
    by destruct (indexOf (c :: p) (c :: y)).
  - change ((b :: x) ++ c :: y) with (b :: (x ++ c :: y)) at 1.
    rewrite (indexOf_cons _ b (x ++ c :: y)), (indexOf_cons _ b x).
    change (b :: x ++ c :: y) with ((b :: x) ++ c :: y).
    rewrite startsWith_head_unique by done.
    destruct (startsWith (c :: p) (b :: x)); [done|].
    rewrite IH. destruct (indexOf (c :: p) x); [done|].
    by destruct (indexOf (c :: p) (c :: y)).
Qed.

(** No occurrence starts in a text without the first code unit. *)
Lemma indexOf_skip c p x y :
  c ∉ x ->
  indexOf (c :: p) (x ++ y) = (fun j => (length x + j)%nat) <$> indexOf (c :: p) y.
Proof.
  intros Hc. induction x as [|b x IH].
  - change ([] ++ y) with y. by destruct (indexOf (c :: p) y).
  - change ((b :: x) ++ y) with (b :: (x ++ y)). rewrite indexOf_cons.
    cbn [startsWith].
    destruct (N.eqb_spec c b) as [->|Hb]; [exfalso; apply Hc; set_solver|].
    cbn [andb]. rewrite IH by set_solver.
    by destruct (indexOf (c :: p) y).
Qed.

Lemma substring_from_app x y : substring_from (x ++ y) (Z.of_nat (length x)) = y.
Proof.
  unfold substring_from, substring. cbv zeta. rewrite length_app.
  set (a := Z.of_nat (length x)). set (n := Z.of_nat (length x + length y)).
  replace (Z.max 0 (Z.min a n)) with a by lia.
  replace (Z.max 0 (Z.min n n)) with n by lia.
  replace (Z.min a n) with a by lia. replace (Z.max a n) with n by lia.
  subst a n. rewrite Nat2Z.id.
  replace (Z.to_nat (Z.of_nat (length x + length y) - Z.of_nat (length x)))
    with (length y) by lia.
  by rewrite drop_app_length, firstn_all.
Qed.

Lemma trimStart_idem s : trimStart (trimStart s) = trimStart s.
Proof.
  induction s as [|c s IH]; [done|]. simpl.
  destruct (is_ws c) eqn:Hc; [done|]. simpl. by rewrite Hc.
Qed.

Lemma trimEnd_idem s : trimEnd (trimEnd s) = trimEnd s.
Proof. unfold trimEnd. by rewrite rev_involutive, trimStart_idem. Qed.

(** A visible code unit at the end stops [trimStart] at the latest. *)
Lemma trimStart_snoc_visible s c :
  is_ws c = false -> exists s', trimStart (s ++ [c]) = s' ++ [c].
Proof.
  intros Hc. induction s as [|b s IH]; simpl.
  - rewrite Hc. by exists [].
  - destruct (is_ws b); [done|]. by exists (b :: s).
Qed.

Lemma trimEnd_visible_head c s :
  is_ws c = false -> exists s', trimEnd (c :: s) = c :: s'.
Proof.
  intros Hc. unfold trimEnd. simpl.
  destruct (trimStart_snoc_visible (rev s) c Hc) as [s' ->].
  exists (rev s'). by rewrite rev_app_distr.
Qed.

Lemma trimStart_head s : trimStart s = [] \/ exists c r, trimStart s = c :: r /\ is_ws c = false.
Proof.
  induction s as [|c s IH]; simpl; [by left|].
  destruct (is_ws c) eqn:Hc; [done|]. right. by exists c, s.
Qed.

(** [trim] does nothing to a text it has produced. *)
Lemma trim_idem s : trim (trim s) = trim s.
Proof.
  unfold trim. destruct (trimStart_head s) as [->|(c & r & -> & Hc)]; [done|].
  destruct (trimEnd_visible_head c r Hc) as [r' Hr].
  assert (trimStart (trimEnd (c :: r)) = trimEnd (c :: r)) as ->.
  { rewrite Hr. simpl. by rewrite Hc. }
  apply trimEnd_idem.
Qed.

End Occurrences.

Lemma start_anchor_head : exists p, START_ANCHOR = 60%N :: p /\ 60%N ∉ p.
Proof. eexists. split; [reflexivity|]. apply (bool_decide_unpack _). by vm_compute. Qed.

Lemma end_anchor_head : exists p, END_ANCHOR = 60%N :: p /\ 60%N ∉ p.
Proof. eexists. split; [reflexivity|]. apply (bool_decide_unpack _). by vm_compute. Qed.

(** Both anchors start with the one [<] they hold, so the first
    occurrence of an anchor is where the body is built to have it. *)
Lemma start_anchor_first x y :
  includes START_ANCHOR x = false ->
  indexOf START_ANCHOR (x ++ START_ANCHOR ++ y) = Some (length x).
Proof.
  intros Hx%includes_false. destruct start_anchor_head as (p & Hp & Hc).
  pose proof (indexOf_here START_ANCHOR y) as Hhere.
  rewrite Hp in *. change ((60%N :: p) ++ y) with (60%N :: (p ++ y)) in *.
  rewrite indexOf_head_unique, Hx, Hhere by done. simpl. f_equal. lia.
Qed.

Lemma end_anchor_first x t y :
  includes END_ANCHOR x = false -> includes END_ANCHOR t = false ->
  indexOf END_ANCHOR (x ++ START_ANCHOR ++ t ++ END_ANCHOR ++ y)
  = Some (length x + 31 + length t)%nat.
Proof.
  intros Hx%includes_false Ht%includes_false.
  destruct end_anchor_head as (p & Hp & Hc).
  destruct start_anchor_head as (q & Hq & Hcq).
  pose proof (indexOf_here END_ANCHOR y) as Hhere.
  assert (length q = 30%nat) as Hlen.
  { pose proof start_anchor_length as Hl. rewrite Hq in Hl. simpl in Hl. lia. }
  assert (startsWith END_ANCHOR (START_ANCHOR ++ t ++ END_ANCHOR ++ y) = false) as Hs
    by reflexivity.
  rewrite Hq in Hs |- *. rewrite Hp in Hx, Ht, Hhere, Hs |- *.
  change ((60%N :: q) ++ t ++ (60%N :: p) ++ y) with (60%N :: (q ++ t ++ 60%N :: (p ++ y))) in *.
  rewrite indexOf_head_unique, Hx by done.
  rewrite indexOf_cons, Hs.
  rewrite indexOf_skip by done.
  rewrite indexOf_head_unique, Ht by done.
  change (60%N :: p ++ y) with ((60%N :: p) ++ y). rewrite Hhere.
  simpl. f_equal. lia.
Qed.

(** X2.  A body made of a text [x], the start anchor, a text [t], the end
    anchor and a text [y], with no anchor in [x] and no end anchor in [t]:
    the comments extracted are [t] trimmed (none when [t] is empty), and
    the content kept is [x] followed by [y] trimmed.  What stands before
    the start anchor keeps its trailing white space; the two cases of
    [test/file.util.test.ts] are instances. *)
Theorem comments_block_located (x t y : jsstring) :
  includes START_ANCHOR x = false ->
  includes END_ANCHOR x = false ->
  includes END_ANCHOR t = false ->
  extractCommentsSection (x ++ START_ANCHOR ++ t ++ END_ANCHOR ++ y)
  = match t with
    | [] => None
    | _ => Some (trim t)
    end
  /\ removeCommentsSection (x ++ START_ANCHOR ++ t ++ END_ANCHOR ++ y) = x ++ trim y.
Proof.
  intros Hsx Hex Het.
  unfold extractCommentsSection, removeCommentsSection.
  rewrite start_anchor_first, end_anchor_first by done.
  rewrite start_anchor_length, end_anchor_length. split.
  - destruct t as [|c t]; [by rewrite Nat.add_0_r, Nat.leb_refl|].
    replace (length x + 31 + length (c :: t) <=? length x + 31)%nat with false
      by (symmetry; apply Nat.leb_gt; simpl; lia).
    f_equal. f_equal.
    pose proof (substring_middle (x ++ START_ANCHOR) (c :: t) (END_ANCHOR ++ y)) as Hm.
    rewrite length_app, start_anchor_length, <- app_assoc in Hm. exact Hm.
  - f_equal.
    + rewrite substring_prefix by (rewrite length_app; lia).
      by rewrite take_app_length.
    + f_equal.
      pose proof (substring_from_app (x ++ START_ANCHOR ++ t ++ END_ANCHOR) y) as Hf.
      rewrite !length_app, start_anchor_length, end_anchor_length in Hf.
      rewrite <- !app_assoc in Hf.
      replace (length x + 31 + length t + 29)%nat
        with (length x + (31 + (length t + 29)))%nat by lia.
      exact Hf.
Qed.

Lemma comments_block_located_witness :
  extractCommentsSection
    (u "Some content" ++ nl ++ START_ANCHOR ++ (nl ++ u "Comment content" ++ nl)
       ++ END_ANCHOR ++ nl ++ u "More content")
  = Some (u "Comment content")
  /\ removeCommentsSection
       ((u "# Main content" ++ nl ++ nl) ++ START_ANCHOR
          ++ (nl ++ u "Comment content" ++ nl) ++ END_ANCHOR
          ++ nl ++ nl ++ u "More content")
     = u "# Main content" ++ nl ++ nl ++ u "More content".
Proof.
  split.
  - apply (comments_block_located (u "Some content" ++ nl)
             (nl ++ u "Comment content" ++ nl) (nl ++ u "More content"));
      reflexivity.
  - apply (comments_block_located (u "# Main content" ++ nl ++ nl)
             (nl ++ u "Comment content" ++ nl) (nl ++ nl ++ u "More content"));
      reflexivity.
Defined.

Lemma blank_trim s : Forall (fun c => is_ws c = true) s -> trim s = [].
Proof.
  intros Hs. unfold trim.
  assert (trimStart s = []) as ->; [|done].
  induction Hs as [|c s Hc _ IH]; simpl; [done|]. by rewrite Hc.
Qed.

(** X3.  The comments of a parsed document carry no white space at
    either end: [trim] leaves them as they are. *)
Theorem extracted_comments_trimmed (host : Host) (text : jsstring)
    (p : ParsedMarkdown) (c : jsstring) :
  parseMarkdownContent host text = Ok p ->
  pm_comments p = Some c ->
  trim c = c.
Proof.
  unfold parseMarkdownContent. intros Hp Hc.
  destruct (trim text); [by injection Hp as <-|].
  destruct (matter host text) as [[fm body]|e]; [|done].
  cbn [bind] in Hp. injection Hp as <-. cbn [pm_comments] in Hc.
  unfold extractCommentsSection in Hc.
  destruct (indexOf START_ANCHOR body), (indexOf END_ANCHOR body); try done.
  destruct (_ <=? _)%nat; [done|]. injection Hc as <-. apply trim_idem.
Qed.

Lemma extracted_comments_trimmed_witness :
  trim (u "## Ann - 2024-01-02 10:20" ++ nl ++ nl ++ u "First note" ++ nl ++ nl ++ u "---")
  = u "## Ann - 2024-01-02 10:20" ++ nl ++ nl ++ u "First note" ++ nl ++ nl ++ u "---".
Proof.
  apply (extracted_comments_trimmed Node.host Sample.document_text
           (Sample.reread Sample.synced_fs)); by vm_compute.
Defined.

(** X4.  A file that is missing, or that holds nothing but white space,
    reads as the empty document (no frontmatter, no content, no comments),
    whatever the frontmatter library would make of it: for every host. *)
Theorem missing_or_blank_file_is_empty (host : Host) (fs : FS)
    (path raw : jsstring) :
  path ∉ denied fs ->
  (files fs !! path = None /\ raw = [])
  \/ (files fs !! path = Some raw /\ Forall (fun c => is_ws c = true) raw) ->
  readMarkdownFile host fs path = Ok (empty_parsed raw).
Proof.
  intros Hd Hf. unfold readMarkdownFile, readFile.
  rewrite bool_decide_eq_false_2 by done.
  destruct Hf as [[-> ->]|[-> Hws]]; cbn [bind].
  - by rewrite bool_decide_eq_true_2.
  - unfold parseMarkdownContent. by rewrite blank_trim.
Qed.

Lemma missing_or_blank_file_is_empty_witness :
  readMarkdownFile Node.host Sample.empty_fs Sample.path42 = Ok (empty_parsed [])
  /\ readMarkdownFile Node.host
       {| files := {[ Sample.path42 := nl ++ u "  " ++ nl ]}; denied := ∅ |} Sample.path42
     = Ok (empty_parsed (nl ++ u "  " ++ nl)).
Proof.
  split.
  - apply (missing_or_blank_file_is_empty Node.host Sample.empty_fs Sample.path42);
      [set_solver|by left].
  - apply (missing_or_blank_file_is_empty Node.host
             {| files := {[ Sample.path42 := nl ++ u "  " ++ nl ]}; denied := ∅ |}
             Sample.path42); [set_solver|right].
    split; [apply lookup_singleton_eq|by repeat constructor].
Defined.

(** X5.  Only a missing file reads as empty.  A path whose access is
    refused fails with that error; and when the frontmatter library throws
    on a file that is not blank, the error is passed on, unless it carries
    the code ENOENT, which the [catch] takes for a missing file. *)
Theorem read_errors_propagate (host : Host) (fs : FS) (path : jsstring) :
  (path ∈ denied fs -> readMarkdownFile host fs path = Err EACCES)
  /\ (forall text e,
        path ∉ denied fs -> files fs !! path = Some text -> trim text <> [] ->
        matter host text = Err e ->
        readMarkdownFile host fs path
        = if bool_decide (exn_code e = Some (u "ENOENT"))
          then Ok (empty_parsed []) else Err e).
Proof.
  split.
  - intros Hd. unfold readMarkdownFile, readFile.
    by rewrite bool_decide_eq_true_2.
  - intros text e Hd Hf Ht Hm. unfold readMarkdownFile, readFile.
    rewrite bool_decide_eq_false_2, Hf by done. cbn [bind].
    unfold parseMarkdownContent. destruct (trim text); [done|].
    by rewrite Hm.
Qed.

(** X6.  A write that succeeds changes the target and nothing else:
    reading the target back gives the serialization of the document, the
    other files are as they were, and so are the refused paths. *)
Theorem write_only_touches_target (host : Host) (fs fs' : FS) (path : jsstring)
    (d : MarkdownData) (config : CommentsConfig) :
  writeMarkdownFile host fs path d config = Ok fs' ->
  readFile fs' path = buildMarkdownContent host d config
  /\ denied fs' = denied fs
  /\ forall other, other <> path -> files fs' !! other = files fs !! other.
Proof.
  intros (text & Hb & Hd & ->)%write_inserts. rewrite Hb.
  split; [|split]; cbn [files denied]; [|done|].
  - unfold readFile. cbn [files denied].
    by rewrite bool_decide_eq_false_2, lookup_insert_eq.
  - intros other Ho. by rewrite lookup_insert_ne.
Qed.

Lemma write_only_touches_target_witness :
  readFile Sample.synced_fs Sample.path42
  = buildMarkdownContent Node.host Sample.document (comments Sample.config)
  /\ denied Sample.synced_fs = denied Sample.empty_fs
  /\ forall other, other <> Sample.path42 ->
       files Sample.synced_fs !! other = files Sample.empty_fs !! other.
Proof.
  apply (write_only_touches_target Node.host Sample.empty_fs Sample.synced_fs).
  by vm_compute.
Defined.

(** The expression [/^---\n|\n---\n?$/g] on what the library returns. *)
Lemma strip_delimiters_blank_line y :
  strip_delimiters (u "---" ++ nl ++ y ++ nl ++ u "---" ++ nl ++ nl)
  = y ++ nl ++ u "---" ++ nl ++ nl.
Proof.
  unfold strip_delimiters.
  change (startsWith (u "---" ++ nl) (u "---" ++ nl ++ y ++ nl ++ u "---" ++ nl ++ nl))
    with true. cbv iota.
  change (drop 4 (u "---" ++ nl ++ y ++ nl ++ u "---" ++ nl ++ nl))
    with (y ++ nl ++ u "---" ++ nl ++ nl).
  unfold endsWith.
  by rewrite !(rev_app_distr y).
Qed.

(** With a single newline after the closing delimiter both delimiters
    go, and with them the newline that ended the last line of [y]. *)
Lemma strip_delimiters_one_newline y :
  strip_delimiters (u "---" ++ nl ++ y ++ nl ++ u "---" ++ nl) = y.
Proof.
  unfold strip_delimiters.
  change (startsWith (u "---" ++ nl) (u "---" ++ nl ++ y ++ nl ++ u "---" ++ nl))
    with true. cbv iota.
  change (drop 4 (u "---" ++ nl ++ y ++ nl ++ u "---" ++ nl))
    with (y ++ nl ++ u "---" ++ nl).
  unfold endsWith.
  rewrite !(rev_app_distr y), length_app, startsWith_app.
  replace (length y + length (nl ++ u "---" ++ nl) - 5)%nat with (length y)
    by (simpl; lia).
  by rewrite take_app_length.
Qed.

(** X7.  When the frontmatter library ends its output with a blank line
    after the closing delimiter (what gray-matter does for an empty
    content), the expression [/^---\n|\n---\n?$/g] removes the opening
    delimiter only, and the text built has the closing delimiter twice:
    the library's, then the one [buildMarkdownContent] adds. *)
Theorem closing_fence_kept (host : Host) (d : MarkdownData) (config : CommentsConfig)
    (y : jsstring) :
  md_frontmatter d <> [] ->
  matter_stringify host (md_frontmatter d)
  = Ok (u "---" ++ nl ++ y ++ nl ++ u "---" ++ nl ++ nl) ->
  buildMarkdownContent host d config
  = Ok (u "---" ++ nl ++ y ++ nl ++ u "---" ++ nl ++ nl ++ u "---" ++ nl ++ nl
          ++ document_body d config).
Proof.
  intros Hfm Hy. rewrite build_as_parts. unfold frontmatter_part, document_body.
  destruct (md_frontmatter d) as [|kv fm]; [done|].
  rewrite Hy. cbn [bind].
  rewrite strip_delimiters_blank_line. f_equal. by rewrite <- !app_assoc.
Qed.

Lemma closing_fence_kept_witness :
  exists y,
    buildMarkdownContent Node.host Sample.document (comments Sample.config)
    = Ok (u "---" ++ nl ++ y ++ nl ++ u "---" ++ nl ++ nl ++ u "---" ++ nl ++ nl
            ++ document_body Sample.document (comments Sample.config)).
Proof.
  exists (match Node.safeDump (md_frontmatter Sample.document) with
          | Ok y => trim y
          | Err _ => []
          end).
  apply (closing_fence_kept Node.host Sample.document); by vm_compute.
Defined.

(* ===================================================================== *)
(** * More about the mappers *)
(* ===================================================================== *)

Lemma existsb_filter {A} (f : A -> bool) (l : list A) :
  existsb f l = (0 <? length (List.filter f l))%nat.
Proof. induction l as [|a l IH]; simpl; [done|]. by destruct (f a). Qed.

(** X8.  For a marker that is a number, or absent,
    [shouldUpdateComments] holds exactly when [extractNewJournals], on the
    marker as [extractLastJournalId] reads it, selects a journal: the test
    that triggers the merge and the selection made in it agree. *)
Theorem comments_update_iff_new_journals (journals : list RedmineJournal)
    (fm : frontmatter) :
  get (u "lastJournalId") fm = VUndef
  \/ (exists m, get (u "lastJournalId") fm = VNum m) ->
  shouldUpdateComments journals fm
  = (0 <? length (extractNewJournals journals (extractLastJournalId fm)))%nat.
Proof.
  unfold shouldUpdateComments, extractLastJournalId, extractNewJournals.
  intros [->|[m ->]]; cbn [truthy negb]; [done|].
  destruct (Z.eqb_spec m 0) as [->|Hm]; cbn [negb]; [done|].
  rewrite existsb_filter. by destruct m.
Qed.

Lemma comments_update_iff_new_journals_witness :
  shouldUpdateComments [Sample.note10; Sample.silent11]
    (pm_frontmatter (Sample.reread Sample.synced_fs))
  = (0 <? length (extractNewJournals [Sample.note10; Sample.silent11]
                    (extractLastJournalId
                       (pm_frontmatter (Sample.reread Sample.synced_fs)))))%nat.
Proof.
  apply comments_update_iff_new_journals. right. exists 10. by vm_compute.
Defined.

(** X9.  Against the marker written for an issue whose journal ids are
    positive, the journals selected as new are the fetched journals with
    an id above every journal of that issue, and only those: no journal
    seen before is selected again, none above all of them is left out. *)
Theorem new_journals_are_beyond_the_marker (issue : RedmineIssue)
    (fetched : list RedmineJournal) (j : RedmineJournal) :
  (forall j', j' ∈ default [] (i_journals issue) -> 0 < j_id j') ->
  j ∈ extractNewJournals fetched (extractLastJournalId (mapIssueToFrontmatter issue))
  <-> j ∈ fetched /\ forall j', j' ∈ default [] (i_journals issue) -> j_id j' < j_id j.
Proof.
  intros Hpos. rewrite marker_is_max_fetched.
  destruct (max_id (default [] (i_journals issue))) as [m|] eqn:Hmax.
  - destruct (max_id_attained _ _ Hmax) as (jm & Hjm & Hm).
    pose proof (Hpos jm Hjm) as Hm0.
    assert (extractNewJournals fetched (Some m)
            = List.filter (fun j => m <? j_id j) fetched) as ->.
    { unfold extractNewJournals. destruct m; [lia|done|done]. }
    rewrite list_elem_of_In, filter_In, <- list_elem_of_In, Z.ltb_lt.
    split; intros [Hj Hlt]; (split; [done|]).
    + intros j' Hj'. pose proof (max_id_ge _ _ _ Hmax Hj'). lia.
    + rewrite <- Hm. by apply Hlt.
  - assert (default [] (i_journals issue) = []) as Hnil.
    { destruct (default [] (i_journals issue)); [done|discriminate]. }
    rewrite Hnil. cbn [extractNewJournals]. split; [|by intros [? _]].
    intros Hj. split; [done|]. by intros j' ?%elem_of_nil.
Qed.

Lemma new_journals_are_beyond_the_marker_witness :
  Sample.silent11
    ∈ extractNewJournals [Sample.note10; Sample.silent11]
        (extractLastJournalId (mapIssueToFrontmatter Sample.first))
  <-> Sample.silent11 ∈ [Sample.note10; Sample.silent11]
      /\ forall j', j' ∈ default [] (i_journals Sample.first) ->
           j_id j' < j_id Sample.silent11.
Proof.
  apply new_journals_are_beyond_the_marker.
  intros j' ->%list_elem_of_singleton. by vm_compute.
Defined.

Lemma extractNewJournals_nil last : extractNewJournals [] last = [].
Proof. by destruct last as [[| |]|]. Qed.

Lemma insert_by_perm {A} (cmp : A -> A -> Z) (a : A) (l : list A) :
  insert_by cmp a l ≡ₚ a :: l.
Proof.
  induction l as [|b l IH]; simpl; [done|].
  destruct (cmp a b <? 0); [done|]. rewrite IH. apply perm_swap.
Qed.

Lemma sort_by_perm {A} (cmp : A -> A -> Z) (l : list A) : sort_by cmp l ≡ₚ l.
Proof.
  unfold sort_by.
  assert (forall acc, fold_left (fun acc a => insert_by cmp a acc) l acc ≡ₚ acc ++ l)
    as H; [|apply H].
  induction l as [|a l IH]; intros acc; simpl; [by rewrite app_nil_r|].
  rewrite IH, insert_by_perm. simpl. apply Permutation_middle.
Qed.

Lemma insert_by_id_sorted host (j : RedmineJournal) l :
  StronglySorted (fun a b => j_id a <= j_id b) l ->
  StronglySorted (fun a b => j_id a <= j_id b) (insert_by (journal_cmp host journalId) j l).
Proof.
  induction 1 as [|j' l Hl IH Hy]; simpl; [by repeat constructor|].
  destruct (Z.ltb_spec (j_id j - j_id j') 0) as [Hlt|Hge].
  - constructor; [by constructor|]. constructor; [lia|].
    eapply Forall_impl; [exact Hy|]. simpl. intros; lia.
  - constructor; [done|]. apply insert_by_Forall; [lia|done].
Qed.

Lemma sort_by_id_sorted host l :
  StronglySorted (fun a b => j_id a <= j_id b) (sort_by (journal_cmp host journalId) l).
Proof.
  unfold sort_by.
  assert (forall acc, StronglySorted (fun a b => j_id a <= j_id b) acc ->
            StronglySorted (fun a b => j_id a <= j_id b)
              (fold_left (fun acc j => insert_by (journal_cmp host journalId) j acc) l acc))
    as H; [|apply H; constructor].
  induction l as [|j l IH]; intros acc Hacc; simpl; [done|].
  by apply IH, insert_by_id_sorted.
Qed.

Lemma NoDup_map_inj {A B} (f : A -> B) (l : list A) a b :
  NoDup (List.map f l) -> a ∈ l -> b ∈ l -> f a = f b -> a = b.
Proof.
  induction l as [|c l IH]; [by intros _ ?%elem_of_nil|].
  simpl. intros [Hc Hnd]%NoDup_cons [->|Ha]%elem_of_cons [->|Hb]%elem_of_cons Heq;
    try done.
  - exfalso. apply Hc. rewrite Heq. by apply (list_elem_of_fmap_2 f).
  - exfalso. apply Hc. rewrite <- Heq. by apply (list_elem_of_fmap_2 f).
  - by apply IH.
Qed.

(** Sorting by id forgets the order of a list with distinct ids. *)
Lemma sort_by_id_unique host l1 l2 :
  l1 ≡ₚ l2 -> NoDup (List.map j_id l1) ->
  sort_by (journal_cmp host journalId) l1 = sort_by (journal_cmp host journalId) l2.
Proof.
  intros Hp Hnd.
  apply (StronglySorted_unique_strong (fun a b => j_id a <= j_id b));
    [|apply sort_by_id_sorted..|by rewrite !sort_by_perm].
  intros a b Ha Hb Hab Hba. rewrite sort_by_perm in Ha, Hb. rewrite <- Hp in Hb.
  apply (NoDup_map_inj j_id l1); try done. lia.
Qed.

(** The rendering loop stops at the first journal it cannot date. *)
Lemma render_loop_fails host acc l e :
  render_loop host acc l = Err e
  <-> e = Exn None (u "Invalid time value")
      /\ exists j, j ∈ l /\ silent j = false
                   /\ Date_new host (VStr (j_created_on j)) = None.
Proof.
  revert acc. induction l as [|j l IH]; intros acc; simpl.
  - split; [done|]. by intros (_ & j & ?%elem_of_nil & _).
  - destruct (silent j) eqn:Hs.
    + rewrite IH. split; intros (-> & j' & Hin & Hs' & Hd); (split; [done|]).
      * exists j'. split; [by right|done].
      * apply elem_of_cons in Hin as [->|Hin]; [congruence|]. by exists j'.
    + unfold render_journal.
      destruct (Date_new host (VStr (j_created_on j))) as [t|] eqn:Hd; cbn [bind].
      * rewrite IH. split; intros (-> & j' & Hin & Hs' & Hd'); (split; [done|]).
        -- exists j'. split; [by right|done].
        -- apply elem_of_cons in Hin as [->|Hin]; [congruence|]. by exists j'.
      * split; [intros [= <-]|by intros [-> _]].
        split; [done|]. exists j. split; [by left|done].
Qed.

(** X10.  Rendering fails exactly when a journal that is not skipped has
    a creation date that [Date] cannot read, wherever it stands in the
    list; the error is then the RangeError of [toISOString],
    "Invalid time value". *)
Theorem rendering_fails_on_undated_comment (host : Host)
    (journals : list RedmineJournal) (config : CommentsConfig) (e : exn) :
  mapJournalsToComments host journals config = Err e
  <-> e = Exn None (u "Invalid time value")
      /\ exists j, j ∈ journals /\ silent j = false
                   /\ Date_new host (VStr (j_created_on j)) = None.
Proof.
  unfold mapJournalsToComments.
  destruct journals as [|j0 js]; [split; [done|by intros (_ & j & ?%elem_of_nil & _)]|].
  set (journals := j0 :: js).
  destruct (render_loop host [] (sort_by (journal_cmp host (trackBy config)) journals))
    as [c|e'] eqn:Hr; cbn [bind].
  - split; [done|]. intros (-> & j & Hin & Hs & Hd). exfalso.
    assert (render_loop host [] (sort_by (journal_cmp host (trackBy config)) journals)
            = Err (Exn None (u "Invalid time value"))) as Hfail; [|congruence].
    apply render_loop_fails. split; [done|]. exists j. by rewrite sort_by_perm.
  - apply render_loop_fails in Hr as (-> & j & Hin & Hs & Hd).
    rewrite sort_by_perm in Hin. split; [by intros [= <-]; eauto|by intros [-> _]].
Qed.

(** X11.  Tracking by journal id, the journals are rendered in ascending
    order of their ids, whatever the list; and when the ids are distinct
    the text rendered does not depend on the order in which the journals
    were fetched. *)
Theorem rendering_ignores_fetch_order (host : Host)
    (journals : list RedmineJournal) (config : CommentsConfig) :
  trackBy config = journalId ->
  StronglySorted (fun a b => j_id a <= j_id b)
    (sort_by (journal_cmp host (trackBy config)) journals)
  /\ forall journals',
       journals ≡ₚ journals' ->
       NoDup (List.map j_id journals) ->
       mapJournalsToComments host journals config
       = mapJournalsToComments host journals' config.
Proof.
  intros Ht. rewrite Ht. split; [apply sort_by_id_sorted|].
  intros journals' Hp Hnd.
  unfold mapJournalsToComments. rewrite Ht.
  rewrite (sort_by_id_unique host journals journals') by done.
  destruct journals as [|j js], journals' as [|j' js']; try done; exfalso;
    by (apply Permutation_nil_cons in Hp
        || (symmetry in Hp; apply Permutation_nil_cons in Hp)).
Qed.

Lemma rendering_ignores_fetch_order_witness :
  StronglySorted (fun a b => j_id a <= j_id b)
    (sort_by (journal_cmp Node.host (trackBy (comments Sample.config)))
       [Sample.silent11; Sample.note10])
  /\ mapJournalsToComments Node.host [Sample.silent11; Sample.note10]
       (comments Sample.config)
     = mapJournalsToComments Node.host [Sample.note10; Sample.silent11]
         (comments Sample.config).
Proof.
  destruct (rendering_ignores_fetch_order Node.host [Sample.silent11; Sample.note10]
              (comments Sample.config) eq_refl) as [Hsorted Hsame].
  split; [exact Hsorted|].
  apply Hsame; [apply perm_swap|].
  apply (bool_decide_unpack _). by vm_compute.
Defined.

(* ===================================================================== *)
(** * More about the engine *)
(* ===================================================================== *)

(** X12.  The merge only appends to the comments block the parser found.
    When that block is not empty and the merge does not throw, the
    comments of the document to write are: that block followed by the
    separator and the text [mapJournalsToComments] renders for the new
    journals, when a comments update is needed and some fetched journal
    is new; that block as it is, otherwise.  The block is the one between
    the two default anchors: see [own_anchors_lose_comments] for a file
    written under other anchors. *)
Theorem merge_keeps_existing_comments (host : Host) (issue : RedmineIssue)
    (config : RedmineConfig) (existingFile : ParsedMarkdown)
    (needsCommentsUpdate : bool) (last : option Z) (c : N) (cs : jsstring)
    (r : option jsstring) :
  pm_comments existingFile = Some (c :: cs) ->
  resolveComments host issue config existingFile needsCommentsUpdate last = Ok r ->
  let newJournals := extractNewJournals (default [] (i_journals issue)) last in
  if needsCommentsUpdate && (0 <? length newJournals)%nat
  then exists newComments,
         mapJournalsToComments host newJournals (comments config) = Ok newComments
         /\ r = Some ((c :: cs) ++ separator ++ newComments)
  else r = Some (c :: cs).
Proof.
  intros Hc. cbv zeta. unfold resolveComments. rewrite Hc.
  cbn [comments_or_undefined].
  destruct needsCommentsUpdate; cbn [andb]; [|by intros [= <-]].
  destruct (i_journals issue) as [journals|]; cbn [default].
  - destruct (0 <? _)%nat; [|by intros [= <-]].
    destruct (mapJournalsToComments _ _ _) as [new|]; cbn [bind]; [|done].
    intros [= <-]. by exists new.
  - rewrite extractNewJournals_nil. by intros [= <-].
Qed.

Lemma merge_keeps_existing_comments_witness :
  exists r,
    resolveComments Node.host Sample.third Sample.config
      (Sample.reread Sample.synced_fs) true (Some 10) = Ok r
    /\ exists newComments,
         mapJournalsToComments Node.host [Sample.note12] (comments Sample.config)
         = Ok newComments
         /\ r = Some (default [] (md_comments Sample.document)
                        ++ separator ++ newComments).
Proof.
  assert (pm_comments (Sample.reread Sample.synced_fs)
          = Some (35%N :: u "# Ann - 2024-01-02 10:20" ++ nl ++ nl ++ u "First note"
                    ++ nl ++ nl ++ u "---")) as Hfound; [by vm_compute|].
  assert (resolveComments Node.host Sample.third Sample.config
            (Sample.reread Sample.synced_fs) true (Some 10)
          = Ok (Some (default [] (md_comments Sample.document) ++ separator
                        ++ u "## Cy - 2024-01-04 10:20" ++ nl ++ nl
                        ++ u "Later note" ++ nl ++ nl ++ u "---")))
    as Hmerged; [by vm_compute|].
  eexists. split; [exact Hmerged|].
  exact (merge_keeps_existing_comments Node.host Sample.third Sample.config
           (Sample.reread Sample.synced_fs) true (Some 10) _ _ _ Hfound Hmerged).
Defined.

(** What the merge keeps is what the parser found, and the parser looks
    for the two default anchors whatever the configuration says.  Under
    anchors of the user's own the block written by one sync is not found
    by the next, and the comment it held is gone from the file. *)
Example own_anchors_lose_comments :
  includes (u "First note") (Sample.twice Sample.config) = true
  /\ includes (u "Later note") (Sample.twice Sample.config) = true
  /\ includes (u "First note") (Sample.twice Sample.own_anchors) = false
  /\ includes (u "Later note") (Sample.twice Sample.own_anchors) = true.
Proof. repeat split; by vm_compute. Qed.


(** Past the identity check, a recorded id is the id of the issue. *)
Lemma passing_guard_recorded fm id :
  id_conflict (extractIssueIdFromFrontmatter fm) id = false ->
  if id_truthy (extractIssueIdFromFrontmatter fm)
  then recorded_id fm id
  else forall e, ~ recorded_id fm e.
Proof.
  unfold recorded_id, id_conflict, id_truthy.
  destruct (extractIssueIdFromFrontmatter fm) as [e|]; [|by intros _ e' [? _]].
  destruct (Z.eqb_spec e 0) as [->|He]; cbn [negb andb].
  - intros _ e' [[= <-] He']. done.
  - intros Hc%negb_false_iff%Z.eqb_eq. by subst.
Qed.

(** X14.  What the reported action tells: [updated] is reported only for
    a run that succeeded on a file recording the id of the fetched issue,
    [created] only for a run that succeeded on a file recording no usable
    id (none, an unreadable one, or 0), and a run reporting [skipped] has
    left the store as it was. *)
Theorem action_tells_recorded_id (host : Host) (remote : Remote) (id : Z)
    (config : RedmineConfig) (options : SyncIssueOptions) (fs : FS) :
  let run := syncIssue host remote id config options fs in
  match action (fst run) with
  | skipped => snd run = fs
  | a =>
      exists issue existingFile,
        getIssue remote id (defaults_include config) = Ok issue
        /\ readMarkdownFile host fs (target_path host config options issue)
           = Ok existingFile
        /\ success (fst run) = true
        /\ match a with
           | updated => recorded_id (pm_frontmatter existingFile) (i_id issue)
           | _ => forall e, ~ recorded_id (pm_frontmatter existingFile) e
           end
  end.
Proof.
  cbv zeta. unfold syncIssue, syncIssue_try. cbv zeta.
  destruct (getIssue remote id (defaults_include config)) as [issue|] eqn:Hfetch;
    cbn [bind]; [|done].
  fold (target_name host config issue). fold (target_path host config options issue).
  destruct (readMarkdownFile host fs _) as [existingFile|] eqn:Hread; cbn [bind];
    [|done].
  destruct (id_conflict _ _) eqn:Hconf; [done|].
  destruct (negb _ && negb _); [done|].
  destruct (resolveComments _ _ _ _ _ _) as [cmts|]; cbn [bind]; [|done].
  pose proof (passing_guard_recorded _ _ Hconf) as Hid.
  destruct (dryRun options).
  - cbn [fst snd action success].
    destruct (id_truthy _); by exists issue, existingFile.
  - destruct (writeMarkdownFile _ _ _ _ _) as [fs1|]; cbn [bind]; [|done].
    cbn [fst snd action success].
    destruct (id_truthy _); by exists issue, existingFile.
Qed.

(** X26.  A dry run predicts the run.  On the same store and with the same
    output directory: when the run that writes succeeds, the dry run
    succeeds with the same action, the same changes, the same id and the
    same file name; and when the dry run fails, the run that writes
    returns the very same failure. *)
Theorem dry_run_predicts_the_run (host : Host) (remote : Remote) (id : Z)
    (config : RedmineConfig) (dir : option jsstring) (fs : FS) :
  let dry := fst (syncIssue host remote id config
                    {| dryRun := true; o_outputDir := dir |} fs) in
  let real := fst (syncIssue host remote id config
                     {| dryRun := false; o_outputDir := dir |} fs) in
  (success real = true ->
   success dry = true /\ action dry = action real /\ changes dry = changes real
   /\ issueId dry = issueId real /\ res_filename dry = res_filename real)
  /\ (success dry = false -> real = dry).
Proof.
  cbv zeta. unfold syncIssue, syncIssue_try. cbv zeta. cbn [dryRun o_outputDir].
  destruct (getIssue remote id (defaults_include config)) as [issue|];
    cbn [bind]; [|done].
  destruct (readMarkdownFile host fs _) as [existingFile|]; cbn [bind]; [|done].
  destruct (id_conflict _ _); [done|].
  destruct (negb _ && negb _); [done|].
  destruct (resolveComments _ _ _ _ _ _) as [cmts|]; cbn [bind]; [|done].
  destruct (writeMarkdownFile _ _ _ _ _) as [fs1|]; cbn [bind]; done.
Qed.














Example url_with_query_has_no_id :
  extractIssueIdFromUrl (u "https://redmine.example.com/issues/12345?tab=history") = None
  /\ extractIssueIdFromUrl (u "https://redmine.example.com/issues/12345#note-3") = None
  /\ extractIssueIdFromUrl (u "https://redmine.example.com/issues/12345.json") = None
  /\ extractIssueIdFromUrl (u "https://redmine.example.com/projects/demo/issues") = None.
Proof. repeat split; reflexivity. Qed.

(* ===================================================================== *)
(** * More about the orchestrator *)
(* ===================================================================== *)

Lemma tally_balanced r res : balanced r -> balanced (tally r res).
Proof.
  unfold balanced, tally. intros (Hs & He & ? & ? & ?).
  destruct (success res); [destruct (action res)|]; cbn; rewrite ?length_app; cbn;
    repeat split; lia.
Qed.

Lemma fold_tally_balanced rs r : balanced r -> balanced (fold_left tally rs r).
Proof.
  revert r. induction rs as [|res rs IH]; intros r Hr; simpl; [done|].
  by apply IH, tally_balanced.
Qed.

Lemma outcomes_length host remote config options issues fs :
  length (outcomes host remote config options issues fs) = length issues.
Proof.
  revert fs. induction issues as [|issue rest IH]; intros fs; simpl; [done|].
  destruct (syncIssue host remote (i_id issue) config options fs) as [res fs1].
  simpl. by rewrite IH.
Qed.

(** X17.  The counters of a project run add up: each processed issue is
    counted once as created, updated, skipped or failed, every issue
    listed is processed, no counter is negative, and [success] is true
    exactly when [errors] is empty. *)
Theorem project_counts_add_up (host : Host) (remote : Remote)
    (config : RedmineConfig) (options : SyncProjectOptions) (fs : FS) :
  let r := fst (syncProject host remote config options fs) in
  n_created r + n_updated r + n_skipped r + n_failed r = processed r
  /\ processed r = totalIssues r
  /\ (p_success r = true <-> errors r = [])
  /\ 0 <= n_created r /\ 0 <= n_updated r /\ 0 <= n_skipped r /\ 0 <= n_failed r.
Proof.
  cbv zeta. unfold syncProject. cbv zeta.
  destruct (getIssuesConcurrently remote _ _) as [issues|e].
  - destruct issues as [|issue rest]; [cbn; repeat split; (done || lia)|].
    set (issues := issue :: rest).
    set (o := {| dryRun := p_dryRun options; o_outputDir := p_outputDir options |}).
    set (r0 := {| p_success := true; totalIssues := Z.of_nat (length issues);
                  processed := 0; n_created := 0; n_updated := 0; n_skipped := 0;
                  n_failed := 0; errors := [] |}).
    pose proof (sync_each_tallies host remote config o issues r0 fs) as Hfold.
    destruct (sync_each host remote config o issues r0 fs) as [r fs1].
    cbn [fst] in Hfold |- *. subst r.
    assert (balanced r0) as Hb0 by (unfold balanced; cbn; lia).
    pose proof (fold_tally_balanced (outcomes host remote config o issues fs) r0 Hb0)
      as (Hs & He & ? & ? & ?).
    pose proof (tally_counts (outcomes host remote config o issues fs) r0)
      as (_ & Hp & _ & Ht).
    cbv zeta in Hp, Ht. rewrite outcomes_length in Hp.
    set (r := fold_left tally _ r0) in *.
    unfold finish. cbn [n_created n_updated n_skipped n_failed processed totalIssues
                        p_success errors].
    repeat split; try lia.
    + rewrite Hp, Ht. cbn. lia.
    + intros Hf%Z.eqb_eq. destruct (errors r); [done|]. simpl in He. lia.
    + intros Hnil. apply Z.eqb_eq. rewrite Hnil in He. simpl in He. lia.
  - cbn. repeat split; try lia; done.
Qed.

(** A run keeps the refused paths and every file there is. *)
Lemma syncIssue_store_grows host remote id config options fs :
  denied (snd (syncIssue host remote id config options fs)) = denied fs
  /\ dom (files fs) ⊆ dom (files (snd (syncIssue host remote id config options fs))).
Proof.
  unfold syncIssue, syncIssue_try. cbv zeta.
  destruct (getIssue remote id (defaults_include config)) as [issue|];
    cbn [bind]; [|done].
  destruct (readMarkdownFile host fs _) as [existingFile|]; cbn [bind]; [|done].
  destruct (id_conflict _ _); [done|].
  destruct (negb _ && negb _); [done|].
  destruct (resolveComments _ _ _ _ _ _) as [cmts|]; cbn [bind]; [|done].
  destruct (dryRun options); [done|].
  destruct (writeMarkdownFile _ _ _ _ _) as [fs1|] eqn:Hw; cbn [bind]; [|done].
  apply write_inserts in Hw as (text & Hb & Hd & ->). cbn [snd files denied].
  split; [done|]. rewrite dom_insert. set_solver.
Qed.

Lemma sync_each_store host remote config options issues r fs :
  let fs' := snd (sync_each host remote config options issues r fs) in
  denied fs' = denied fs
  /\ dom (files fs) ⊆ dom (files fs')
  /\ (dryRun options = true -> fs' = fs).
Proof.
  cbv zeta. revert r fs.
  induction issues as [|issue rest IH]; intros r fs; simpl; [done|].
  pose proof (syncIssue_store_grows host remote (i_id issue) config options fs)
    as [Hd Hg].
  pose proof (dry_run_keeps_store host remote (i_id issue) config options fs) as Hdry.
  destruct (syncIssue host remote (i_id issue) config options fs) as [res fs1].
  cbn [snd] in *.
  destruct (IH (tally r res) fs1) as (Hd' & Hg' & Hdry').
  split; [congruence|]. split; [by etrans|].
  intros Ho. rewrite Hdry' by done. by apply Hdry.
Qed.

(** X18.  A project run deletes nothing and changes no access right: every
    file of the store is still there afterwards (possibly rewritten), the
    refused paths are the same, and with [dryRun] the store is the one
    handed in. *)
Theorem project_sync_keeps_files (host : Host) (remote : Remote)
    (config : RedmineConfig) (options : SyncProjectOptions) (fs : FS) :
  let fs' := snd (syncProject host remote config options fs) in
  denied fs' = denied fs
  /\ dom (files fs) ⊆ dom (files fs')
  /\ (p_dryRun options = true -> fs' = fs).
Proof.
  cbv zeta. unfold syncProject. cbv zeta.
  destruct (getIssuesConcurrently remote _ _) as [issues|e]; [|done].
  destruct issues as [|issue rest]; [done|].
  match goal with |- context [sync_each host remote config ?o ?l ?r fs] =>
    pose proof (sync_each_store host remote config o l r fs) as Hs;
    destruct (sync_each host remote config o l r fs) as [r1 fs1] end.
  exact Hs.
Qed.

(* ===================================================================== *)
(** * The HTTP client: paging *)
(* ===================================================================== *)

Section Paging.
Context (request : list (jsstring * jsstring) -> result RedmineIssuesResponse)
        (all : list RedmineIssue) (Hserves : serves request all).

(** What [getIssues] gets from the server for one page. *)
Lemma getIssues_page projectId options pageSize offset :
  0 < pageSize -> 0 <= offset ->
  RedmineApiClient.getIssues request projectId (with_pageSize options pageSize)
    (Some offset)
  = Ok {| r_issues := take (Z.to_nat pageSize) (drop (Z.to_nat offset) all);
          total_count := Z.of_nat (length all);
          r_offset := offset; r_limit := pageSize |}.
Proof.
  intros Hp Ho. unfold RedmineApiClient.getIssues. rewrite Hserves.
  unfold window, with_pageSize. cbn [q_status q_pageSize q_include q_updatedSince].
  destruct (Z.eqb_spec pageSize 0) as [|_]; [lia|].
  match goal with |- context [param (u "limit") ?ps] => set (sent := ps) end.
  assert (param (u "limit") sent = Some (Number_toString pageSize)) as ->.
  { subst sent. destruct (q_status options) as [|c s]; [done|]. cbv zeta.
    by destruct (str_eqb (c :: s) (u "*")). }
  assert (default 0 (param (u "offset") sent ≫= parseInt) = offset) as ->.
  { subst sent. destruct (Z.eqb_spec offset 0) as [->|_].
    - destruct (q_status options) as [|c s];
        [|cbv zeta; destruct (str_eqb (c :: s) (u "*"))];
        (destruct (q_include options); destruct (q_updatedSince options) as [[|??]|]);
        reflexivity.
    - transitivity (default 0 (Some (Number_toString offset) ≫= parseInt)).
      + destruct (q_status options) as [|c s];
          [|cbv zeta; destruct (str_eqb (c :: s) (u "*"))]; reflexivity.
      + cbn [mbind option_bind]. by rewrite parseInt_Number_toString. }
  cbn [mbind option_bind]. by rewrite parseInt_Number_toString.
Qed.

Lemma getIssues_count projectId options :
  total_count <$> match RedmineApiClient.getIssues request projectId
                          (with_pageSize options 1) None with
                  | Ok response => Some response
                  | Err _ => None
                  end
  = Some (Z.of_nat (length all)).
Proof. unfold RedmineApiClient.getIssues. by rewrite Hserves. Qed.

Lemma all_of_map {A B} (f : A -> result B) (g : A -> B) (l : list A) :
  (forall a, a ∈ l -> f a = Ok (g a)) -> all_of (List.map f l) = Ok (List.map g l).
Proof.
  induction l as [|a l IH]; intros Hf; simpl; [done|].
  rewrite Hf by set_solver. cbn [bind]. rewrite IH by set_solver. done.
Qed.

(** [n] consecutive pages of [k] issues are the first [n * k] issues. *)
Lemma concat_chunks {A} (k n : nat) (l : list A) :
  concat (List.map (fun i => take k (drop (i * k) l)) (seq 0 n)) = take (n * k) l.
Proof.
  induction n as [|n IH]; [done|].
  rewrite seq_S, List.map_app, concat_app, IH. cbn [List.map concat].
  rewrite app_nil_r, take_take_drop. f_equal. lia.
Qed.

Lemma ceil_div_covers a b : 0 < b -> a <= ceil_div a b * b /\ (0 <= a -> 0 <= ceil_div a b).
Proof.
  intros Hb. unfold ceil_div.
  pose proof (Z_div_mod_eq_full (- a) b) as Hd.
  pose proof (Z.mod_pos_bound (- a) b Hb) as Hm. split; [nia|].
  intros Ha. assert (- a / b <= 0); [|lia].
  apply Z.div_le_upper_bound; lia.
Qed.

Lemma pages_cover_all projectId options :
  0 <= q_pageSize options ->
  RedmineApiClient.getIssuesConcurrently request projectId options = Ok all.
Proof.
  intros Hq. unfold RedmineApiClient.getIssuesConcurrently. cbv zeta.
  set (pageSize := if q_pageSize options =? 0 then 100 else q_pageSize options).
  assert (0 < pageSize) as Hp.
  { subst pageSize. destruct (Z.eqb_spec (q_pageSize options) 0); lia. }
  pose proof (getIssues_count projectId options) as Hcount.
  destruct (RedmineApiClient.getIssues request projectId (with_pageSize options 1) None)
    as [initial|]; [|done].
  injection Hcount as Hcount. cbn [bind]. rewrite Hcount.
  destruct (ceil_div_covers (Z.of_nat (length all)) pageSize Hp) as [Hcover Hpages].
  specialize (Hpages ltac:(lia)).
  set (totalPages := ceil_div (Z.of_nat (length all)) pageSize) in *.
  rewrite (all_of_map _ (fun index =>
             take (Z.to_nat pageSize) (drop (Z.to_nat (index * pageSize)) all))).
  - cbn [bind]. f_equal. unfold indices. rewrite List.map_map.
    rewrite (List.map_ext _ (fun i => take (Z.to_nat pageSize)
                                        (drop (i * Z.to_nat pageSize) all)))
      by (intros i; do 2 f_equal; lia).
    rewrite concat_chunks. apply take_ge. nia.
  - intros index (i & <- & _)%list_elem_of_In%in_map_iff.
    rewrite getIssues_page by lia. done.
Qed.

(** The [while] loop from an offset on, with the issues before the offset
    collected so far. *)
Lemma loop_covers_all projectId options pageSize fuel offset :
  0 < pageSize ->
  (length all - offset < fuel)%nat ->
  RedmineApiClient.getAllIssues_loop request fuel projectId options pageSize
    (take offset all) (Z.of_nat offset)
  = Some (Ok all).
Proof.
  intros Hp. revert offset. induction fuel as [|fuel IH]; intros offset Hf; [lia|].
  cbn [RedmineApiClient.getAllIssues_loop].
  rewrite getIssues_page by lia. cbn [r_issues total_count].
  rewrite Nat2Z.id, take_take_drop.
  destruct (Z.ltb_spec (Z.of_nat (length (take (offset + Z.to_nat pageSize) all)))
              (Z.of_nat (length all))) as [Hlt|Hge].
  - rewrite length_take in Hlt.
    replace (Z.of_nat offset + pageSize) with (Z.of_nat (offset + Z.to_nat pageSize))
      by lia.
    apply IH. lia.
  - rewrite length_take in Hge. f_equal. f_equal. apply take_ge. lia.
Qed.

End Paging.

(** X19.  Paging is complete.  Against a server that answers each request
    with the window of the project's issues the request asks for and with
    their number, [getIssuesConcurrently] returns every issue, once, in
    the server's order, for every page size that is not negative (0
    standing for the default of 100). *)
Theorem paging_collects_every_issue
    (request : list (jsstring * jsstring) -> result RedmineIssuesResponse)
    (all : list RedmineIssue) (projectId : Z) (options : IssuesQuery) :
  serves request all ->
  0 <= q_pageSize options ->
  RedmineApiClient.getIssuesConcurrently request projectId options = Ok all.
Proof. intros Hs Hq. by apply pages_cover_all. Qed.

Lemma paging_collects_every_issue_witness :
  RedmineApiClient.getIssuesConcurrently Sample.server 1 Sample.by_two
  = Ok Sample.backlog.
Proof.
  apply (paging_collects_every_issue Sample.server Sample.backlog 1 Sample.by_two);
    [by intros ps|by vm_compute].
Defined.

(** X20.  The sequential pager agrees: against such a server the loop of
    [getAllIssues] ends, within as many rounds as there are issues plus
    one, and returns every issue, once, in the server's order. *)
Theorem sequential_paging_collects_every_issue
    (request : list (jsstring * jsstring) -> result RedmineIssuesResponse)
    (all : list RedmineIssue) (projectId : Z) (options : IssuesQuery) (fuel : nat) :
  serves request all ->
  0 <= q_pageSize options ->
  (length all < fuel)%nat ->
  RedmineApiClient.getAllIssues request fuel projectId options = Some (Ok all).
Proof.
  intros Hs Hq Hf. unfold RedmineApiClient.getAllIssues. cbv zeta.
  apply (loop_covers_all request all Hs projectId options _ fuel 0%nat); [|lia].
  destruct (Z.eqb_spec (q_pageSize options) 0); lia.
Qed.

Lemma sequential_paging_collects_every_issue_witness :
  RedmineApiClient.getAllIssues Sample.server 4 1 Sample.by_two
  = Some (Ok Sample.backlog).
Proof.
  apply (sequential_paging_collects_every_issue Sample.server Sample.backlog 1
           Sample.by_two 4); [by intros ps|by vm_compute|simpl; lia].
Defined.

(** X21.  A negative page size fetches nothing: once the first request
    has answered with a count that is not negative, the number of pages
    [Math.ceil(totalCount / pageSize)] is not positive, so no page is
    requested and the list returned is empty, whatever the server holds. *)
Theorem negative_page_size_fetches_nothing
    (request : list (jsstring * jsstring) -> result RedmineIssuesResponse)
    (projectId : Z) (options : IssuesQuery) (initial : RedmineIssuesResponse) :
  q_pageSize options < 0 ->
  RedmineApiClient.getIssues request projectId (with_pageSize options 1) None
  = Ok initial ->
  0 <= total_count initial ->
  RedmineApiClient.getIssuesConcurrently request projectId options = Ok [].
Proof.
  intros Hq Hi Ht. unfold RedmineApiClient.getIssuesConcurrently. cbv zeta.
  rewrite Hi. cbn [bind].
  destruct (Z.eqb_spec (q_pageSize options) 0) as [|_]; [lia|].
  assert (ceil_div (total_count initial) (q_pageSize options) <= 0) as Hpages.
  { unfold ceil_div.
    assert (0 <= - total_count initial / q_pageSize options); [|lia].
    replace (q_pageSize options) with (- - q_pageSize options) by lia.
    rewrite Z.div_opp_opp by lia. apply Z.div_pos; lia. }
  unfold indices. replace (Z.to_nat _) with 0%nat by lia. done.
Qed.

Lemma negative_page_size_fetches_nothing_witness :
  RedmineApiClient.getIssuesConcurrently Sample.server 1
    (with_pageSize Sample.by_two (-5))
  = Ok [].
Proof.
  apply (negative_page_size_fetches_nothing Sample.server 1
           (with_pageSize Sample.by_two (-5)) (window Sample.backlog [(u "limit", u "1")]));
    by vm_compute.
Defined.

(** X22.  A project run over the paging client covers the project: against
    a server that serves the issues [all], and for a page size that is not
    negative, [totalIssues] and [processed] are the number of issues the
    server holds, and the four counters add up to it. *)
Theorem project_sync_covers_every_issue (host : Host)
    (request : list (jsstring * jsstring) -> result RedmineIssuesResponse)
    (fetch : Z -> list jsstring -> result RedmineIssue)
    (all : list RedmineIssue) (config : RedmineConfig)
    (options : SyncProjectOptions) (fs : FS) :
  serves request all ->
  0 <= q_pageSize (project_query config options) ->
  let remote := {| getIssue := fetch;
                   getIssuesConcurrently :=
                     RedmineApiClient.getIssuesConcurrently request |} in
  let r := fst (syncProject host remote config options fs) in
  totalIssues r = Z.of_nat (length all)
  /\ processed r = Z.of_nat (length all)
  /\ n_created r + n_updated r + n_skipped r + n_failed r = Z.of_nat (length all).
Proof.
  intros Hs Hq. cbv zeta. unfold syncProject. cbv zeta.
  fold (project_query config options). cbn [getIssuesConcurrently].
  rewrite (pages_cover_all request all Hs) by done.
  destruct all as [|issue rest]; [done|].
  set (remote := {| getIssue := fetch;
                    getIssuesConcurrently :=
                      RedmineApiClient.getIssuesConcurrently request |}).
  set (issues := issue :: rest).
  set (o := {| dryRun := p_dryRun options; o_outputDir := p_outputDir options |}).
  set (r0 := {| p_success := true; totalIssues := Z.of_nat (length issues);
                processed := 0; n_created := 0; n_updated := 0; n_skipped := 0;
                n_failed := 0; errors := [] |}).
  pose proof (sync_each_tallies host remote config o issues r0 fs) as Hfold.
  destruct (sync_each host remote config o issues r0 fs) as [r fs1].
  cbn [fst] in Hfold |- *. subst r.
  assert (balanced r0) as Hb0 by (unfold balanced; cbn; lia).
  pose proof (fold_tally_balanced (outcomes host remote config o issues fs) r0 Hb0)
    as (Hsum & _).
  pose proof (tally_counts (outcomes host remote config o issues fs) r0)
    as (_ & Hp & _ & Ht).
  cbv zeta in Hp, Ht. rewrite outcomes_length in Hp.
  unfold finish. cbn [n_created n_updated n_skipped n_failed processed totalIssues].
  rewrite Hsum, Hp, Ht. cbn [processed totalIssues r0]. lia.
Qed.

Lemma project_sync_covers_every_issue_witness :
  totalIssues
    (fst (syncProject Node.host
            {| getIssue := getIssue Sample.partial;
               getIssuesConcurrently :=
                 RedmineApiClient.getIssuesConcurrently Sample.server |}
            Sample.config Sample.all_issues Sample.empty_fs)) = 3
  /\ processed
       (fst (syncProject Node.host
               {| getIssue := getIssue Sample.partial;
                  getIssuesConcurrently :=
                    RedmineApiClient.getIssuesConcurrently Sample.server |}
               Sample.config Sample.all_issues Sample.empty_fs)) = 3
  /\ (let r := fst (syncProject Node.host
                      {| getIssue := getIssue Sample.partial;
                         getIssuesConcurrently :=
                           RedmineApiClient.getIssuesConcurrently Sample.server |}
                      Sample.config Sample.all_issues Sample.empty_fs) in
      n_created r + n_updated r + n_skipped r + n_failed r) = 3.
Proof.
  apply (project_sync_covers_every_issue Node.host Sample.server
           (getIssue Sample.partial) Sample.backlog Sample.config Sample.all_issues
           Sample.empty_fs); [by intros ps|by vm_compute].
Defined.

(* ===================================================================== *)
(** * Slugs and file names *)
(* ===================================================================== *)

Lemma first_split_unique {A} (c : A) (x1 x2 y1 y2 : list A) :
  c ∉ x1 -> c ∉ x2 -> x1 ++ c :: y1 = x2 ++ c :: y2 -> x1 = x2.
Proof.
  revert x2. induction x1 as [|a x1 IH]; intros [|b x2] H1 H2; simpl; try done.
  - intros [= <- _]. exfalso. apply H2. set_solver.
  - intros [= -> _]. exfalso. apply H1. set_solver.
  - intros [= -> Heq]. f_equal. apply IH; [set_solver|set_solver|done].
Qed.

Lemma last_split_unique {A} (c : A) (x1 x2 y1 y2 : list A) :
  c ∉ y1 -> c ∉ y2 -> x1 ++ c :: y1 = x2 ++ c :: y2 -> y1 = y2.
Proof.
  intros H1 H2 Heq. apply (f_equal (@rev A)) in Heq.
  rewrite !rev_app_distr in Heq. simpl in Heq. rewrite <- !app_assoc in Heq.
  simpl in Heq. apply first_split_unique in Heq.
  - apply (f_equal (@rev A)) in Heq. by rewrite !rev_involutive in Heq.
  - by rewrite list_elem_of_In, <- in_rev, <- list_elem_of_In.
  - by rewrite list_elem_of_In, <- in_rev, <- list_elem_of_In.
Qed.

Lemma digits_no_dash d : forallb is_digit d = true -> 45%N ∉ d.
Proof.
  intros Hd Hin. rewrite forallb_forall in Hd.
  by specialize (Hd _ (proj1 (list_elem_of_In _ _) Hin)).
Qed.

Lemma Number_toString_inj j k : Number_toString j = Number_toString k -> j = k.
Proof.
  intros H. pose proof (parseInt_Number_toString j) as Hj.
  rewrite H, parseInt_Number_toString in Hj. by injection Hj.
Qed.

Lemma candidate_inj (slug0 : jsstring) (maxLen j k : Z) :
  0 <= j -> 0 <= k -> candidate slug0 maxLen j = candidate slug0 maxLen k -> j = k.
Proof.
  intros Hj Hk. unfold candidate. intros Heq.
  apply Number_toString_inj.
  apply (last_split_unique 45%N) in Heq; [done|..];
    by apply digits_no_dash, Number_toString_digits.
Qed.

(** The names tried are pairwise different: [n] of them in the set make
    the set that large. *)
Lemma candidates_fill (slug0 : jsstring) (maxLen : Z) (E : gset jsstring) (n : nat) :
  (forall j, 1 <= j <= Z.of_nat n -> candidate slug0 maxLen j ∈ E) ->
  (n <= size E)%nat.
Proof.
  intros Hin.
  set (l := (fun i => candidate slug0 maxLen (Z.of_nat (S i))) <$> seq 0 n).
  assert (NoDup l) as Hnd.
  { apply NoDup_fmap_2_strong; [|apply NoDup_seq].
    intros i j _ _ Heq. apply candidate_inj in Heq; lia. }
  assert (list_to_set l ⊆ E) as Hsub.
  { intros x (i & -> & Hi%elem_of_seq)%elem_of_list_to_set%list_elem_of_fmap.
    apply Hin. lia. }
  apply subseteq_size in Hsub. rewrite size_list_to_set in Hsub by done.
  subst l. by rewrite length_fmap, length_seq in Hsub.
Qed.

(** The loop at its [k]-th round: the names tried before are in the set,
    and the rounds left are one more than the names the set can still
    hold.  The name it ends on is then not in the set. *)
Lemma dedupe_loop_fresh (slug0 : jsstring) (maxLen : Z) (E : gset jsstring)
    (fuel : nat) (k : Z) (cur : jsstring) :
  1 <= k ->
  cur = (if k =? 1 then slug0 else candidate slug0 maxLen (k - 1)) ->
  (forall j, 1 <= j < k - 1 -> candidate slug0 maxLen j ∈ E) ->
  Z.of_nat fuel + (k - 1) = Z.of_nat (size E) + 1 ->
  let slug := dedupe_loop fuel slug0 maxLen E cur k in
  (slug ∉ E)
  /\ (slug = slug0
      \/ exists j, 1 <= j <= Z.of_nat (size E) + 1 /\ slug = candidate slug0 maxLen j).
Proof.
  cbv zeta. revert k cur. induction fuel as [|fuel IH]; intros k cur Hk Hcur Hin Hfuel.
  - cbn [dedupe_loop]. destruct (Z.eqb_spec k 1) as [|_]; [lia|]. subst cur.
    split; [|right; exists (k - 1); split; [lia|done]].
    intros Hlast.
    assert (S (size E) <= size E)%nat; [|lia].
    apply (candidates_fill slug0 maxLen). intros j Hj.
    destruct (Z.eq_dec j (k - 1)) as [->|]; [done|]. apply Hin. lia.
  - cbn [dedupe_loop]. case_bool_decide as Hmem.
    + apply IH; [lia| | |lia].
      * destruct (Z.eqb_spec (k + 1) 1) as [|_]; [lia|].
        unfold candidate. by replace (k + 1 - 1) with k by lia.
      * intros j Hj. destruct (Z.eq_dec j (k - 1)) as [->|]; [|apply Hin; lia].
        destruct (Z.eqb_spec k 1) as [|_]; [lia|]. by subst cur.
    + split; [done|]. subst cur. destruct (Z.eqb_spec k 1) as [|Hk1]; [by left|].
      right. exists (k - 1). split; [lia|done].
Qed.

(** X23.  With [dedupe] set, the slug returned is not in the set handed
    in: it is the slug of the title cut to [maxLength], or that slug cut
    further and followed by [-k] for a [k] between 1 and the size of the
    set plus one.  The slug is added to the set, so the next call on the
    set returns another slug. *)
Theorem generated_slugs_are_fresh (host : Host) (title1 title2 : jsstring)
    (config : SlugConfig) (existingSlugs : gset jsstring) :
  dedupe config = true ->
  let first := generateSlug host title1 config existingSlugs in
  let second := generateSlug host title2 config (snd first) in
  let slug0 := substring (slugify host title1 (lowercase config)) 0 (maxLength config) in
  (fst first ∉ existingSlugs)
  /\ (fst first = slug0
      \/ exists k, 1 <= k <= Z.of_nat (size existingSlugs) + 1
                   /\ fst first = candidate slug0 (maxLength config) k)
  /\ snd first = {[ fst first ]} ∪ existingSlugs
  /\ fst second <> fst first
  /\ (fst second ∉ existingSlugs).
Proof.
  intros Hd. cbv zeta.
  assert (forall title E,
            (fst (generateSlug host title config E) ∉ E)
            /\ (fst (generateSlug host title config E)
                = substring (slugify host title (lowercase config)) 0 (maxLength config)
                \/ exists k, 1 <= k <= Z.of_nat (size E) + 1
                     /\ fst (generateSlug host title config E)
                        = candidate (substring (slugify host title (lowercase config))
                                       0 (maxLength config)) (maxLength config) k)
            /\ snd (generateSlug host title config E)
               = {[ fst (generateSlug host title config E) ]} ∪ E) as Hone.
  { intros title E. unfold generateSlug. cbv zeta. rewrite Hd. cbn [negb fst snd].
    destruct (dedupe_loop_fresh
                (substring (slugify host title (lowercase config)) 0 (maxLength config))
                (maxLength config) E (S (size E)) 1 _ ltac:(lia) eq_refl
                ltac:(intros; lia) ltac:(lia)) as [Hfresh Hshape].
    done. }
  destruct (Hone title1 existingSlugs) as (H1 & Hs1 & He1).
  destruct (Hone title2 (snd (generateSlug host title1 config existingSlugs)))
    as (H2 & _ & _).
  rewrite He1 in H2 |- *. repeat split; try done.
  - intros Heq. apply H2. rewrite Heq. by apply elem_of_union_l, elem_of_singleton.
  - intros Hin. by apply H2, elem_of_union_r.
Qed.

Lemma generated_slugs_are_fresh_witness :
  (fst (generateSlug Node.host (u "Test Slug") Sample.dedupe ({[ u "test-slug" ]}))
     ∉ ({[ u "test-slug" ]} : gset jsstring))
  /\ fst (generateSlug Node.host (u "Test Slug") Sample.dedupe ({[ u "test-slug" ]}))
     = u "test-slug-1"
  /\ fst (generateSlug Node.host (u "Test Slug") Sample.dedupe
            (snd (generateSlug Node.host (u "Test Slug") Sample.dedupe
                    ({[ u "test-slug" ]}))))
     = u "test-slug-2".
Proof.
  split; [|split; by vm_compute].
  exact (proj1 (generated_slugs_are_fresh Node.host (u "Test Slug") (u "Test Slug")
                  Sample.dedupe ({[ u "test-slug" ]}) eq_refl)).
Defined.


Lemma Number_toString_no_brace z : 123%N ∉ Number_toString z.
Proof.
  assert (forall d, forallb is_digit d = true -> 123%N ∉ d) as Hd.
  { intros d Hd Hin. rewrite forallb_forall in Hd.
    by specialize (Hd _ (proj1 (list_elem_of_In _ _) Hin)). }
  destruct z as [|p|p]; [by apply Hd| |].
  - by apply Hd, Number_toString_digits.
  - rewrite Number_toString_neg. intros [?|Hin]%elem_of_cons; [done|].
    revert Hin. by apply Hd, Number_toString_digits.
Qed.

(** The two [replace] calls on the default pattern: the digits of the id
    hold no brace, so [{slug}] is found where the pattern has it. *)
Lemma filename_of_default_pattern (host : Host) (issueId : Z) (title : jsstring)
    (config : FilenameConfig) (existingSlugs : gset jsstring) :
  pattern config = u "{issueId}-{slug}.md" ->
  generateFilename host issueId title config existingSlugs
  = Number_toString issueId ++ u "-"
      ++ fst (generateSlug host title (slug config) existingSlugs) ++ u ".md".
Proof.
  intros Hp. unfold generateFilename. cbv zeta. rewrite Hp.
  set (slug1 := fst (generateSlug host title (slug config) existingSlugs)).
  set (d := Number_toString issueId).
  assert (replace_first (u "{issueId}") d (u "{issueId}-{slug}.md")
          = d ++ u "-{slug}.md") as -> by reflexivity.
  unfold replace_first.
  change (u "{slug}") with (123%N :: u "slug}").
  rewrite indexOf_skip by apply Number_toString_no_brace.
  change (indexOf (123%N :: u "slug}") (u "-{slug}.md")) with (Some 1%nat).
  cbn [fmap option_fmap option_map].
  rewrite take_app_add' by done.
  replace (length d + 1 + length (123%N :: u "slug}"))%nat
    with (length d + 7)%nat by (simpl; lia).
  rewrite drop_app_add' by done. by rewrite <- app_assoc.
Qed.

(** X24.  With the default pattern ["{issueId}-{slug}.md"] the file name
    is the decimal id, a dash, the slug and [.md]. *)
Theorem default_pattern_filename (host : Host) (issueId : Z) (title : jsstring)
    (config : FilenameConfig) (existingSlugs : gset jsstring) :
  pattern config = u "{issueId}-{slug}.md" ->
  generateFilename host issueId title config existingSlugs
  = Number_toString issueId ++ u "-"
      ++ fst (generateSlug host title (slug config) existingSlugs) ++ u ".md".
Proof. apply filename_of_default_pattern. Qed.

Lemma default_pattern_filename_witness :
  generateFilename Node.host 123 (u "Test Issue Title") (filename Sample.config) ∅
  = u "123-test-issue-title.md".
Proof.
  rewrite (default_pattern_filename Node.host 123 (u "Test Issue Title")
             (filename Sample.config) ∅ eq_refl).
  by vm_compute.
Defined.

(** X25.  Under the default pattern, issues with different ids (none
    negative) get different file names, whatever their titles and
    whatever the slug library returns: the name starts with the digits of
    the id and the dash that ends them. *)
Theorem default_names_tell_issues_apart (host : Host) (config : RedmineConfig)
    (a b : RedmineIssue) :
  pattern (filename config) = u "{issueId}-{slug}.md" ->
  0 <= i_id a -> 0 <= i_id b ->
  i_id a <> i_id b ->
  target_name host config a <> target_name host config b.
Proof.
  intros Hp Ha Hb Hne. unfold target_name.
  rewrite !filename_of_default_pattern by done.
  intros Heq. apply Hne, Number_toString_inj.
  apply (first_split_unique 45%N) in Heq; [done|..];
    by apply digits_no_dash, Number_toString_digits.
Qed.

Lemma default_names_tell_issues_apart_witness :
  target_name Node.host Sample.config Sample.first
  <> target_name Node.host Sample.config (Sample.issue 7 "2024-01-05T00:00:00Z" None).
Proof.
  apply (default_names_tell_issues_apart Node.host Sample.config Sample.first
           (Sample.issue 7 "2024-01-05T00:00:00Z" None)); [reflexivity|by vm_compute..].
Defined.

